(** * pl.py: region results to TikZ diagrams

    A shallow embedding of the conversion core of [pl.py]
    ([s2f], [get_output_header_for_vars], [get_output_footer], [get_span],
    [latex_safe_text], [generate_output_for_input_file]) together with the
    Python built-ins it relies on ([re.search] for the one pattern of the
    program, [fractions.Fraction] on the strings that pattern can capture,
    IEEE binary64 floats, [round], the [.2f] format, [str.replace],
    [pathlib.Path.stem], [readlines]), and of the script around it: the
    argument types [positive_int] and [positive_float], the output paths
    ([get_output_dir_for_input_subdir], [get_output_file_for_input_file],
    [non_recursive_file_condition]), the choice of the styles, the scan of
    the input directory and the loop over the files to convert.

    Conventions.
    - Text is ASCII: a [string] is a sequence of characters below 128, so
      [\w] is [[A-Za-z0-9_]].
    - A Python float is a [spec_float] of the Standard Library's [SpecFloat]
      with [prec = 53] and [emax = 1024]; [<], [-] and [/] on floats are
      [SFltb], [SFsub] and [SFdiv].  Conversions of exact rationals to floats
      (int to float, int / int, the result of [round]) go through one
      correctly rounding function, [round_ratio].
    - Exceptions are values of [exn]; a computation that may raise returns a
      [result].
    - [int] of a string, on its own and inside [Fraction], has the limit of
      CPython on the number of digits, at its default [int_max_str_digits]
      of 4300: a longer literal is a [ValueError].
    - Python's shortest-repr conversion [str(f)] of a float is kept symbolic:
      output text is a list of [chunk]s, [Repr f] standing for [str(f)]. *)

From stdpp Require Import gmap strings.
From Stdlib Require Import ZArith QArith Qabs Qpower Qfield Lia List Ascii String DecimalString.
From Stdlib Require Import Floats.SpecFloat.
Import ListNotations.

Local Open Scope Z_scope.

(** ** Exceptions and results *)

Inductive exn : Type :=
| UnexpectedFormatException (msg : string)
| UnknownStateException (msg : string)
| ValueError
| ZeroDivisionError
| OverflowError
| TypeError
| UnboundLocalError.

Inductive result (A : Type) : Type :=
| Ok (a : A)
| Raise (e : exn).
Arguments Ok {A} a.
Arguments Raise {A} e.

Definition bind {A B : Type} (r : result A) (k : A -> result B) : result B :=
  match r with
  | Ok a => k a
  | Raise e => Raise e
  end.

Notation "'let*' x ':=' r 'in' k" := (bind r (fun x => k))
  (at level 10, x name, r at level 100, k at level 200).

(** ** Strings *)

Module Str.

Definition is_digit (c : ascii) : bool :=
  (48 <=? Z.of_N (N_of_ascii c)) && (Z.of_N (N_of_ascii c) <=? 57).

Definition is_alpha (c : ascii) : bool :=
  let n := Z.of_N (N_of_ascii c) in
  ((65 <=? n) && (n <=? 90)) || ((97 <=? n) && (n <=? 122)).

(** [\w] on ASCII text. *)
Definition is_word (c : ascii) : bool :=
  is_alpha c || is_digit c || Ascii.eqb c "_".

(** The class [[0-9/]]. *)
Definition is_bound_char (c : ascii) : bool :=
  is_digit c || Ascii.eqb c "/".

Fixpoint drop (n : nat) (s : string) : string :=
  match n, s with
  | O, _ => s
  | S n', EmptyString => EmptyString
  | S n', String _ s' => drop n' s'
  end.

Fixpoint take (n : nat) (s : string) : string :=
  match n, s with
  | O, _ => EmptyString
  | S n', EmptyString => EmptyString
  | S n', String c s' => String c (take n' s')
  end.

(** Length of the longest prefix of [s] made of characters of [cls]. *)
Fixpoint span_length (cls : ascii -> bool) (s : string) : nat :=
  match s with
  | String c s' => if cls c then S (span_length cls s') else O
  | EmptyString => O
  end.

(** [strip_prefix p s] is the rest of [s] after the prefix [p], if [s]
    starts with [p]. *)
Fixpoint strip_prefix (p s : string) : option string :=
  match p, s with
  | EmptyString, _ => Some s
  | String a p', String b s' =>
      if Ascii.eqb a b then strip_prefix p' s' else None
  | String _ _, EmptyString => None
  end.

Fixpoint all (cls : ascii -> bool) (s : string) : bool :=
  match s with
  | EmptyString => true
  | String c s' => cls c && all cls s'
  end.

(** [split_first sep s]: the text before and after the first occurrence of
    the character [sep], or [None] when [sep] does not occur. *)
Fixpoint split_first (sep : ascii) (s : string) : option (string * string) :=
  match s with
  | EmptyString => None
  | String c s' =>
      if Ascii.eqb c sep then Some (EmptyString, s')
      else match split_first sep s' with
           | Some (a, b) => Some (String c a, b)
           | None => None
           end
  end.

(** Decimal text of a natural number, as [str(n)] prints an int. *)
Definition of_N (n : N) : string := NilZero.string_of_uint (N.to_uint n).

End Str.

(** ** The record pattern and [re.search]

    The pattern of the program is a sequence of literals and capturing
    groups, each group a greedy star over a character class: a group of
    word characters, ": ", a group over digits and "/", "<=", a group of
    word characters, "<=", a group over digits and "/", ",", and the same
    three groups again, closed by ";". *)

Module Regex.

Inductive item : Type :=
| Group (cls : ascii -> bool)
| Lit (s : string).

(** Backtracking match of the items at the start of [s]; the result lists
    the captured groups.  A greedy star first takes the longest run and
    gives characters back one at a time. *)
Fixpoint match_here (p : list item) (s : string) : option (list string) :=
  match p with
  | [] => Some []
  | Lit l :: p' =>
      match Str.strip_prefix l s with
      | Some s' => match_here p' s'
      | None => None
      end
  | Group cls :: p' =>
      (fix give_back (k : nat) : option (list string) :=
         match match_here p' (Str.drop k s) with
         | Some gs => Some (Str.take k s :: gs)
         | None =>
             match k with
             | O => None
             | S k' => give_back k'
             end
         end) (Str.span_length cls s)
  end.

(** [re.search]: the first position, from the left, where the items
    match. *)
Fixpoint search (p : list item) (s : string) : option (list string) :=
  match match_here p s with
  | Some gs => Some gs
  | None =>
      match s with
      | EmptyString => None
      | String _ s' => search p s'
      end
  end.

Definition record_pattern : list item :=
  [ Group Str.is_word; Lit ": ";
    Group Str.is_bound_char; Lit "<="; Group Str.is_word; Lit "<=";
    Group Str.is_bound_char; Lit ",";
    Group Str.is_bound_char; Lit "<="; Group Str.is_word; Lit "<=";
    Group Str.is_bound_char; Lit ";" ].

End Regex.

(** The seven groups of a match: state, x0, x_axis, x1, y0, y_axis, y1. *)
Record groups : Type := mkGroups {
  g_state : string;
  g_x0 : string;
  g_x_axis : string;
  g_x1 : string;
  g_y0 : string;
  g_y_axis : string;
  g_y1 : string
}.

Definition search_record (line : string) : option groups :=
  match Regex.search Regex.record_pattern line with
  | Some [st; x0; xa; x1; y0; ya; y1] => Some (mkGroups st x0 xa x1 y0 ya y1)
  | _ => None
  end.

(** [readlines] of a text file: the text cut after each newline, every line
    keeping its newline. *)
Fixpoint readlines_aux (cur : string) (s : string) : list string :=
  match s with
  | EmptyString =>
      match cur with
      | EmptyString => []
      | _ => [cur]
      end
  | String c s' =>
      if Ascii.eqb c "010" then (cur ++ String c EmptyString)%string :: readlines_aux EmptyString s'
      else readlines_aux (cur ++ String c EmptyString)%string s'
  end.

Definition readlines (text : string) : list string := readlines_aux EmptyString text.

Definition nl : string := String "010" EmptyString.

(** ** Floats *)

Module Float.

Definition prec : Z := 53.
Definition emax : Z := 1024.

Definition is_zero (x : spec_float) : bool :=
  match x with
  | S754_zero _ => true
  | _ => false
  end.

(** Nearest integer to [n / d], a tie going to the even neighbour
    ([0 <= n], [0 < d]). *)
Definition rne_div (n d : Z) : Z :=
  let q := n / d in
  match 2 * (n mod d) ?= d with
  | Lt => q
  | Gt => q + 1
  | Eq => if Z.even q then q else q + 1
  end.

(** Correct rounding of a ratio [p / q] ([0 <= p], [0 < q]) to binary64.
    The value is counted in units of [2^-1074], the smallest positive
    float.  [round_mk p q = (m, k)] gives the nearest float as
    [m * 2^k] units: [k] is chosen so that the quotient has at most 53
    bits, and exactly 53 unless [k = 0]; the quotient is rounded to the
    nearest integer, a tie going to the even one; a mantissa rounded up to
    [2^53] moves to the next exponent. *)
Definition round_mk (p q : Z) : Z * Z :=
  let P := p * 2 ^ 1074 in
  let k0 := Z.max 0 (Z.log2 P - Z.log2 q - 53) in
  let k := if 2 ^ 53 <=? P / (q * 2 ^ k0) then k0 + 1 else k0 in
  let m := rne_div P (q * 2 ^ k) in
  if m =? 2 ^ 53 then (2 ^ 52, k + 1) else (m, k).

(** [round_ratio s p q] is the binary64 nearest to [(-1)^s * p / q]; the
    infinity of sign [s] when the rounded value is beyond the largest
    float. *)
Definition round_ratio (s : bool) (p q : Z) : spec_float :=
  let '(m, k) := round_mk p q in
  match m with
  | Zpos m' =>
      if k - 1074 <=? emax - prec then S754_finite s m' (k - 1074)
      else S754_infinity s
  | _ => S754_zero s
  end.

(** [x < y] *)
Definition lt (x y : spec_float) : bool := SFltb x y.

(** [x - y]: the exact difference of two finite floats, rounded; on zeros,
    infinities and nan, the table of [SFsub]. *)
Definition sub (x y : spec_float) : spec_float :=
  match x, y with
  | S754_finite sx mx ex, S754_finite sy my ey =>
      let ez := Z.min ex ey in
      let z := cond_Zopp sx (Zpos mx) * 2 ^ (ex - ez)
               - cond_Zopp sy (Zpos my) * 2 ^ (ey - ez) in
      round_ratio (z <? 0) (Z.abs z * 2 ^ Z.max ez 0) (2 ^ Z.max (- ez) 0)
  | _, _ => SFsub prec emax x y
  end.

(** [x / y] for a non-zero [y]: the exact quotient of two finite floats,
    rounded; on zeros, infinities and nan, the table of [SFdiv]. *)
Definition div (x y : spec_float) : spec_float :=
  match x, y with
  | S754_finite sx mx ex, S754_finite sy my ey =>
      round_ratio (xorb sx sy)
        (Zpos mx * 2 ^ Z.max (ex - ey) 0) (Zpos my * 2 ^ Z.max (ey - ex) 0)
  | _, _ => SFdiv prec emax x y
  end.

(** A float of the format: the mantissa and exponent are in range and
    normalised. *)
Definition valid (x : spec_float) : Prop := valid_binary prec emax x = true.

(** Zero or finite. *)
Definition is_finite (x : spec_float) : bool :=
  match x with
  | S754_zero _ | S754_finite _ _ _ => true
  | _ => false
  end.

(** The exact value of a finite float, and that value in units of
    [2^-1074] (an integer for every float of the format). *)
Definition F2Q (x : spec_float) : Q :=
  match x with
  | S754_finite s m e => (inject_Z (cond_Zopp s (Zpos m)) * 2 ^ e)%Q
  | _ => 0%Q
  end.

Definition F2Z (x : spec_float) : Z :=
  match x with
  | S754_finite s m e => cond_Zopp s (Zpos m) * 2 ^ (e + 1074)
  | _ => 0
  end.

(** The values of the non-negative floats, in units of [2^-1074]: a
    mantissa below [2^53] at an exponent [k >= 0], normalised unless
    [k = 0].  (The exponent is not bounded above: the largest float is
    accounted for where it matters.) *)
Definition representable (V : Z) : Prop :=
  exists m k, V = m * 2 ^ k /\ 0 <= k /\ 0 <= m < 2 ^ 53 /\ (k = 0 \/ 2 ^ 52 <= m).

(** An infinite result of a conversion raises [OverflowError]. *)
Definition checked (x : spec_float) : result spec_float :=
  match x with
  | S754_infinity _ => Raise OverflowError
  | _ => Ok x
  end.

(** [float(n)] for an int [n], as in [x / n]. *)
Definition of_int (n : Z) : result spec_float :=
  checked (round_ratio (n <? 0) (Z.abs n) 1).

(** [x / n] for a float [x] and an int [n]. *)
Definition truediv_int (x : spec_float) (n : Z) : result spec_float :=
  let* y := of_int n in
  if is_zero y then Raise ZeroDivisionError else Ok (div x y).

(** [round(x, ndigits)]: the decimal digits of [x] rounded half to even at
    [ndigits] places after the point, converted back to the nearest
    float. *)
Definition round (x : spec_float) (ndigits : Z) : result spec_float :=
  match x with
  | S754_finite s m e =>
      if 323 <? ndigits then Ok x
      else if ndigits <? -308 then Ok (S754_zero s)
      else
        let num := Zpos m * 2 ^ Z.max e 0 * 10 ^ Z.max ndigits 0 in
        let den := 2 ^ Z.max (- e) 0 * 10 ^ Z.max (- ndigits) 0 in
        let n := rne_div num den in
        match round_ratio s (n * 10 ^ Z.max (- ndigits) 0) (10 ^ Z.max ndigits 0) with
        | S754_infinity _ => Raise OverflowError
        | r => Ok r
        end
  | _ => Ok x
  end.

Definition digit (d : Z) : ascii := ascii_of_N (Z.to_N (48 + d)).

(** The last [p] decimal digits of [r], zero padded. *)
Fixpoint frac_digits (p : nat) (r : Z) : string :=
  match p with
  | O => EmptyString
  | S p' => (frac_digits p' (r / 10) ++ String (digit (r mod 10)) EmptyString)%string
  end.

Definition sign_text (s : bool) : string := if s then "-"%string else ""%string.

(** [format(x, ".pf")]: fixed notation with [p] digits after the point,
    the exact value rounded half to even. *)
Definition format_f (p : nat) (x : spec_float) : string :=
  match x with
  | S754_nan => "nan"%string
  | S754_infinity s => (sign_text s ++ "inf")%string
  | S754_zero s =>
      (sign_text s ++ "0" ++
         match p with O => "" | _ => "." ++ frac_digits p 0 end)%string
  | S754_finite s m e =>
      let n := rne_div (Zpos m * 2 ^ Z.max e 0 * 10 ^ Z.of_nat p) (2 ^ Z.max (- e) 0) in
      (sign_text s ++ Str.of_N (Z.to_N (n / 10 ^ Z.of_nat p)) ++
         match p with O => "" | _ => "." ++ frac_digits p (n mod 10 ^ Z.of_nat p) end)%string
  end.

End Float.

(** ** [fractions.Fraction] on the captured bounds *)

(** The number that a string of decimal digits writes; [None] for any
    other string. *)
Fixpoint parse_digits_aux (acc : Z) (s : string) : option Z :=
  match s with
  | EmptyString => Some acc
  | String c s' =>
      if Str.is_digit c
      then parse_digits_aux (10 * acc + (Z.of_N (N_of_ascii c) - 48)) s'
      else None
  end.

(** [sys.get_int_max_str_digits()] as the interpreter starts: [int]
    refuses a decimal literal of more digits, leading zeros counted, with a
    [ValueError]. *)
Definition int_max_str_digits : Z := 4300.

(** [int(s)] for a string without sign, white space and underscores: the
    number that its digits write.  [None] stands for the [ValueError] of
    the empty string, of a string of more than [int_max_str_digits] digits
    and of any string that holds another character. *)
Definition parse_digits (s : string) : option Z :=
  match s with
  | EmptyString => None
  | _ =>
      if int_max_str_digits <? Z.of_nat (String.length s) then None
      else parse_digits_aux 0 s
  end.

(** [Fraction(s)] for a string [s] over the digits and "/" (all a captured
    bound can hold): digits, or digits "/" digits; anything else is a
    [ValueError], and so is a numerator or a denominator that [int]
    refuses for its length; a zero denominator is a [ZeroDivisionError].
    A [Fraction] is kept in lowest terms. *)
Definition Fraction (s : string) : result Q :=
  match Str.split_first "/" s with
  | None =>
      match parse_digits s with
      | Some n => Ok (n # 1)
      | None => Raise ValueError
      end
  | Some (a, b) =>
      match parse_digits a, parse_digits b with
      | Some n, Some d =>
          if d =? 0 then Raise ZeroDivisionError
          else Ok (Qred (n # Z.to_pos d))
      | _, _ => Raise ValueError
      end
  end.

(** [float(q)] for a [Fraction]: numerator / denominator, correctly
    rounded. *)
Definition float_of_Fraction (q : Q) : result spec_float :=
  Float.checked (Float.round_ratio (Qnum q <? 0) (Z.abs (Qnum q)) (Zpos (Qden q))).

Definition s2f (float_string : string) : result spec_float :=
  let* q := Fraction float_string in
  float_of_Fraction q.

(** ** Text helpers of the generator *)

Module Text.

(** [s.replace(old, new)]: every occurrence of [old], found from the left
    and not overlapping, becomes [new].  [skip] counts the characters of
    an occurrence still to be passed over. *)
Fixpoint replace_aux (old new : string) (skip : nat) (s : string) : string :=
  match s with
  | EmptyString => EmptyString
  | String c s' =>
      match skip with
      | S k => replace_aux old new k s'
      | O =>
          match Str.strip_prefix old s with
          | Some _ => (new ++ replace_aux old new (String.length old - 1) s')%string
          | None => String c (replace_aux old new 0 s')
          end
      end
  end.

(** With an empty [old], [new] is put before every character and at the
    end. *)
Fixpoint intersperse (new s : string) : string :=
  match s with
  | EmptyString => new
  | String c s' => (new ++ String c (intersperse new s'))%string
  end.

Definition replace (old new s : string) : string :=
  match old with
  | EmptyString => intersperse new s
  | _ => replace_aux old new 0 s
  end.

Fixpoint split_aux (sep : ascii) (cur s : string) : list string :=
  match s with
  | EmptyString => [cur]
  | String c s' =>
      if Ascii.eqb c sep then cur :: split_aux sep EmptyString s'
      else split_aux sep (cur ++ String c EmptyString)%string s'
  end.

(** [s.split(sep)] for a one-character separator. *)
Definition split (sep : ascii) (s : string) : list string :=
  split_aux sep EmptyString s.

(** [s.rfind(c)]: the index of the last [c] in [s]. *)
Fixpoint rfind (c : ascii) (s : string) : option nat :=
  match s with
  | EmptyString => None
  | String a s' =>
      match rfind c s' with
      | Some i => Some (S i)
      | None => if Ascii.eqb a c then Some O else None
      end
  end.

End Text.

(** [pathlib.Path] on a POSIX path. *)
Module Path.

(** The components of a path: what stands between the "/", the empty
    components and the "." components dropped. *)
Definition parts (p : string) : list string :=
  List.filter (fun c => negb (String.eqb c "" || String.eqb c "."))
              (Text.split "/" p).

(** [Path(p).name]: the last component, empty when there is none. *)
Definition name (p : string) : string := List.last (parts p) EmptyString.

(** [Path(p).stem]: the name without its last suffix.  A dot that opens or
    closes the name starts no suffix. *)
Definition stem (p : string) : string :=
  let n := name p in
  match Text.rfind "." n with
  | Some i =>
      if (0 <? i)%nat && (i <? String.length n - 1)%nat then Str.take i n else n
  | None => n
  end.

End Path.

(** ** Output text *)

(** A piece of output: literal text, or [str(f)] of a float [f]. *)
Inductive chunk : Type :=
| Text (s : string)
| Repr (f : spec_float).

(** An int or a float, as [args.line_width] holds. *)
Inductive number : Type :=
| Int (z : Z)
| Flt (f : spec_float).

Definition str_of_Z (z : Z) : string :=
  ((if (z <? 0)%Z then "-" else "") ++ Str.of_N (Z.abs_N z))%string.

Definition str_of_number (v : number) : chunk :=
  match v with
  | Int z => Text (str_of_Z z)
  | Flt f => Repr f
  end.

(** ** Configuration *)

Record Args : Type := mkArgs {
  line_width : number;
  x_split : Z;
  y_split : Z;
  x_split_rounding : Z;
  y_split_rounding : Z;
  no_title : bool
}.

(** The built-in styles. *)
Definition default_styles : gmap string string :=
  let g : gmap string string :=
    list_to_map
      [ ("ExistsSat", "");
        ("AllSat", "pattern=crosshatch dots,pattern color=green,preaction={fill,green!30},");
        ("ExistsViolated", "");
        ("AllViolated", "pattern=crosshatch,pattern color=red,preaction={fill,red!30},");
        ("Unknown", "") ]%string in
  let g := <[ "CenterSat"%string := default ""%string (g !! "ExistsSat"%string) ]> g in
  <[ "CenterViolated"%string := default ""%string (g !! "ExistsViolated"%string) ]> g.

(** ** The generator *)

Definition get_output_header_for_vars
    (x_min x_max y_min y_max x_tick_distance y_tick_distance : spec_float)
    (x_axis y_axis title : string) : list chunk :=
  [ Text (nl ++
          "\begin{tikzpicture}" ++ nl ++
          "\begin{axis}[" ++ nl ++
          "axis lines=middle," ++ nl ++
          "axis equal," ++ nl ++
          "every axis x label/.style=" ++ nl ++
          "    {at={(ticklabel cs: 0.5,0)}, anchor=north}," ++ nl ++
          "every axis y label/.style=" ++ nl ++
          "    {at={(ticklabel cs: 0.5,0)}, anchor=east}," ++ nl ++
          "xmin=");
    Repr x_min; Text ",xmax="; Repr x_max;
    Text ",ymin="; Repr y_min; Text ",ymax="; Repr y_max;
    Text ("," ++ nl ++ "xtick distance=");
    Text (Float.format_f 2 x_tick_distance);
    Text ("," ++ nl ++ "ytick distance=");
    Text (Float.format_f 2 y_tick_distance);
    Text ("," ++ nl ++ "xlabel="); Text x_axis;
    Text ("," ++ nl ++ "ylabel="); Text y_axis;
    Text ("," ++ nl ++ "title={"); Text title;
    Text ("}" ++ nl ++ "]" ++ nl) ]%string.

Definition get_output_footer : list chunk :=
  [ Text (nl ++ "\end{axis}[" ++ nl ++ "\end{tikzpicture}" ++ nl) ]%string.

(** [max - min]; an accumulator that is still [None] is a [TypeError]. *)
Definition get_span (min max : option spec_float) : result spec_float :=
  match max, min with
  | Some hi, Some lo => Ok (Float.sub hi lo)
  | _, _ => Raise TypeError
  end.

Definition latex_safe_text (text : string) : string :=
  Text.replace "_" "\_" text.

(** One parsed line: the state label, the axis names and the four bounds
    as floats. *)
Record record : Type := mkRecord {
  state : string;
  x0 : spec_float;
  x_axis : string;
  x1 : spec_float;
  y0 : spec_float;
  y_axis : string;
  y1 : spec_float
}.

(** The first half of a loop iteration: the pattern is searched in the
    line; a line without a match is skipped when empty and an error
    otherwise; the four bounds of a match are converted in the order x0,
    x1, y0, y1. *)
Definition line_record (line_no : nat) (line : string) : result (option record) :=
  match search_record line with
  | None =>
      if String.eqb line "" then Ok None
      else Raise (UnexpectedFormatException
                    ("File line " ++ Str.of_N (N.of_nat line_no) ++ " is not in expected format")%string)
  | Some g =>
      let* x0 := s2f (g_x0 g) in
      let* x1 := s2f (g_x1 g) in
      let* y0 := s2f (g_y0 g) in
      let* y1 := s2f (g_y1 g) in
      Ok (Some (mkRecord (g_state g) x0 (g_x_axis g) x1 y0 (g_y_axis g) y1))
  end.

(** The variables the loop carries from line to line. *)
Record loop_state : Type := mkState {
  x_min : option spec_float;
  x_max : option spec_float;
  y_min : option spec_float;
  y_max : option spec_float;
  rectangles_output_part : list chunk;
  axes : option (string * string)
}.

Definition initial_state : loop_state :=
  mkState None None None None [] None.

(** [if acc is None or v < acc: acc = v] *)
Definition lower (acc : option spec_float) (v : spec_float) : option spec_float :=
  match acc with
  | None => Some v
  | Some a => if Float.lt v a then Some v else Some a
  end.

(** [if acc is None or v > acc: acc = v] *)
Definition raise_to (acc : option spec_float) (v : spec_float) : option spec_float :=
  match acc with
  | None => Some v
  | Some a => if Float.lt a v then Some v else Some a
  end.

Section Generator.

Variable args : Args.
Variable graph_styles : gmap string string.

(** The second half of an iteration, for a parsed record. *)
Definition add_record (st : loop_state) (r : record) : result loop_state :=
  let x_min' := lower (x_min st) (x0 r) in
  let x_max' := raise_to (x_max st) (x1 r) in
  let y_min' := lower (y_min st) (y0 r) in
  let y_max' := raise_to (y_max st) (y1 r) in
  match graph_styles !! state r with
  | None => Raise (UnknownStateException ("Unknown state: " ++ state r)%string)
  | Some rectangle_style =>
      let rectangle_style :=
        [ Text rectangle_style; Text "line width = "%string;
          str_of_number (line_width args); Text "mm"%string ] in
      Ok (mkState x_min' x_max' y_min' y_max'
            (rectangles_output_part st ++
               [ Text "\draw ["%string ] ++ rectangle_style ++
               [ Text "] ("%string; Repr (x0 r); Text ","%string; Repr (y0 r);
                 Text ") rectangle ("%string; Repr (x1 r); Text ","%string;
                 Repr (y1 r); Text (");" ++ nl)%string ])
            (Some (x_axis r, y_axis r)))
  end.

Definition loop_body (st : loop_state) (line_no : nat) (line : string) : result loop_state :=
  let* r := line_record line_no line in
  match r with
  | None => Ok st
  | Some r => add_record st r
  end.

(** [for line_no, line in enumerate(lines)], from index [line_no] on. *)
Fixpoint loop (st : loop_state) (line_no : nat) (lines : list string) : result loop_state :=
  match lines with
  | [] => Ok st
  | line :: rest =>
      let* st' := loop_body st line_no line in
      loop st' (S line_no) rest
  end.

Definition tick_distance (span : spec_float) (split rounding : Z) : result spec_float :=
  let* d := Float.truediv_int span split in
  Float.round d rounding.

Definition title_for (input_file_name : string) : string :=
  if no_title args then ""%string else latex_safe_text (Path.stem input_file_name).

(** [generate_output_for_input_file], on the lines [readlines] gave. *)
Definition generate_output_for_lines (lines : list string) (input_file_name : string)
  : result (list chunk) :=
  let* st := loop initial_state 0 lines in
  let* x_span := get_span (x_min st) (x_max st) in
  let* y_span := get_span (y_min st) (y_max st) in
  let* x_tick_distance := tick_distance x_span (x_split args) (x_split_rounding args) in
  let* y_tick_distance := tick_distance y_span (y_split args) (y_split_rounding args) in
  let title := title_for input_file_name in
  match x_min st, x_max st, y_min st, y_max st, axes st with
  | Some xmin, Some xmax, Some ymin, Some ymax, Some (x_axis, y_axis) =>
      Ok (get_output_header_for_vars xmin xmax ymin ymax
            x_tick_distance y_tick_distance x_axis y_axis title
          ++ rectangles_output_part st ++ get_output_footer)
  | _, _, _, _, _ => Raise UnboundLocalError
  end.

(** The file is given by its text. *)
Definition generate_output_for_input_file (text : string) (input_file_name : string)
  : result (list chunk) :=
  generate_output_for_lines (readlines text) input_file_name.

End Generator.

(** * Notions used in the statements *)

(** Neither negative nor a negative zero. *)
Definition nonneg (x : spec_float) : Prop :=
  match x with
  | S754_zero s | S754_finite s _ _ => s = false
  | _ => False
  end.

(** A float of the format that is zero or finite. *)
Definition good (x : spec_float) : Prop :=
  Float.valid x /\ Float.is_finite x = true.

(** Text in fixed notation with two digits after the point. *)
Definition two_decimals (t : string) : Prop :=
  exists sg ip d1 d2,
    t = (sg ++ ip ++ "." ++ String d1 (String d2 ""))%string /\
    (sg = ""%string \/ sg = "-"%string) /\
    ip <> ""%string /\ Str.all Str.is_digit ip = true /\
    Str.is_digit d1 = true /\ Str.is_digit d2 = true.

(** The records of the lines, in order: what the first halves of the
    iterations produce, the index of the first line being [line_no]. *)
Fixpoint parse_records (line_no : nat) (lines : list string) : result (list record) :=
  match lines with
  | [] => Ok []
  | line :: rest =>
      let* r := line_record line_no line in
      let* rs := parse_records (S line_no) rest in
      Ok (match r with
          | Some r => r :: rs
          | None => rs
          end)
  end.

(** [a] is a least (greatest) element of [l], in the order of the exact
    values. *)
Definition is_minimum (a : spec_float) (l : list spec_float) : Prop :=
  In a l /\ forall v, In v l -> (Float.F2Q a <= Float.F2Q v)%Q.

Definition is_maximum (a : spec_float) (l : list spec_float) : Prop :=
  In a l /\ forall v, In v l -> (Float.F2Q v <= Float.F2Q a)%Q.

(** An accumulator of the loop against the values seen so far: [None]
    before the first value, a least (greatest) value afterwards. *)
Definition acc_min (acc : option spec_float) (l : list spec_float) : Prop :=
  match acc with
  | None => l = []
  | Some a => is_minimum a l
  end.

Definition acc_max (acc : option spec_float) (l : list spec_float) : Prop :=
  match acc with
  | None => l = []
  | Some a => is_maximum a l
  end.

Definition bounds_of (st : loop_state) (recs : list record) : Prop :=
  acc_min (x_min st) (map x0 recs) /\ acc_max (x_max st) (map x1 recs) /\
  acc_min (y_min st) (map y0 recs) /\ acc_max (y_max st) (map y1 recs).

(** The four bounds of a record are floats of the format, finite and not
    negative. *)
Definition record_good (r : record) : Prop :=
  (good (x0 r) /\ nonneg (x0 r)) /\ (good (x1 r) /\ nonneg (x1 r)) /\
  (good (y0 r) /\ nonneg (y0 r)) /\ (good (y1 r) /\ nonneg (y1 r)).

(** [f] is a float of the format nearest to the rational [q]. *)
Definition nearest_float (f : spec_float) (q : Q) : Prop :=
  good f /\
  forall g, good g -> (Qabs (Float.F2Q f - q) <= Qabs (Float.F2Q g - q))%Q.

(** Every underscore of [s] prefixed with a backslash. *)
Fixpoint escape_underscores (s : string) : string :=
  match s with
  | EmptyString => EmptyString
  | String c s' =>
      if Ascii.eqb c "_" then ("\_" ++ escape_underscores s')%string
      else String c (escape_underscores s')
  end.

(** A bound of the form digits "/" digits whose denominator is zero, both
    runs of digits short enough for [int]. *)
Definition zero_denominator (s : string) : Prop :=
  exists a b n,
    s = (a ++ "/" ++ b)%string /\ parse_digits a = Some n /\ parse_digits b = Some 0.

(** In the order of conversion (x0, x1, y0, y1), the first bound that does
    not convert has a zero denominator. *)
Definition first_failure_is_zero_denominator (g : groups) : Prop :=
  zero_denominator (g_x0 g) \/
  (exists a, s2f (g_x0 g) = Ok a) /\
  (zero_denominator (g_x1 g) \/
   (exists b, s2f (g_x1 g) = Ok b) /\
   (zero_denominator (g_y0 g) \/
    (exists c, s2f (g_y0 g) = Ok c) /\ zero_denominator (g_y1 g))).

(** The error of a line that is not in the expected format. *)
Definition format_error (line_no : nat) : exn :=
  UnexpectedFormatException
    ("File line " ++ Str.of_N (N.of_nat line_no) ++ " is not in expected format")%string.

(** No character of [s] is in the class [cls]. *)
Definition none_of (cls : ascii -> bool) (s : string) : bool :=
  Str.all (fun c => negb (cls c)) s.

(** ** Inputs of the examples *)

Definition args_default : Args := mkArgs (Int 0) 5 5 1 1 false.

Definition one_region : string := ("AllSat: 0<=p<=1,0<=q<=1;" ++ nl)%string.

Definition two_regions : string :=
  ("AllViolated: 1/10000<=prob1<=5001/20000,1/10000<=perr<=5001/20000;" ++ nl ++
   "AllSat: 0<=prob1<=1,0<=perr<=2;" ++ nl)%string.

(** The decimal digits of [2^1024]. *)
Definition digits_of_2_pow_1024 : string :=
  "179769313486231590772930519078902473361797697894230657273430081157732675805500963132708477322407536021120113879871393357658789768814416622492847430639474124377767893424865485276302219601246094119453082952085005768838150682342462881473913110540827237163350510684586298239947245938479716304835356329624224137216".

(** * The command line and the output paths *)

(** ** Built-ins on text: [int], [float], [str.lower]

    As for the rest of the development the text is ASCII: the white space
    that [int] and [float] strip is the space and the characters 9 to 13,
    a digit is one of "0" to "9". *)

Module Py.

Definition is_space (c : ascii) : bool :=
  let n := Z.of_N (N_of_ascii c) in
  ((9 <=? n) && (n <=? 13)) || (n =? 32).

Fixpoint lstrip (s : string) : string :=
  match s with
  | String c s' => if is_space c then lstrip s' else s
  | EmptyString => EmptyString
  end.

Fixpoint rstrip (s : string) : string :=
  match s with
  | EmptyString => EmptyString
  | String c s' =>
      match rstrip s' with
      | EmptyString => if is_space c then EmptyString else String c EmptyString
      | t => String c t
      end
  end.

Definition strip (s : string) : string := rstrip (lstrip s).

(** The digits of an int literal, one underscore allowed between two
    digits; [after_digit] tells whether the character before was a
    digit. *)
Fixpoint int_digits (acc : Z) (after_digit : bool) (s : string) : option Z :=
  match s with
  | EmptyString => if after_digit then Some acc else None
  | String c s' =>
      if Str.is_digit c
      then int_digits (10 * acc + (Z.of_N (N_of_ascii c) - 48)) true s'
      else if Ascii.eqb c "_" && after_digit then int_digits acc false s'
      else None
  end.

(** The number of digits in [s]. *)
Fixpoint count_digits (s : string) : nat :=
  match s with
  | EmptyString => O
  | String c s' => if Str.is_digit c then S (count_digits s') else count_digits s'
  end.

(** [int(value)] for a string, in base 10: white space around, a sign,
    digits.  [None] stands for the [ValueError] of any other string, and
    of a literal of more than [int_max_str_digits] digits: the sign, the
    white space and the underscores do not count, leading zeros do. *)
Definition int (value : string) : option Z :=
  let literal := strip value in
  if int_max_str_digits <? Z.of_nat (count_digits literal) then None
  else
    match literal with
    | String "+" r => int_digits 0 false r
    | String "-" r => option_map Z.opp (int_digits 0 false r)
    | r => int_digits 0 false r
    end.

Definition lower_char (c : ascii) : ascii :=
  let n := N_of_ascii c in
  if ((65 <=? n) && (n <=? 90))%N then ascii_of_N (n + 32) else c.

(** [s.lower()] *)
Fixpoint str_lower (s : string) : string :=
  match s with
  | EmptyString => EmptyString
  | String c s' => String (lower_char c) (str_lower s')
  end.

(** The underscores of a float literal are dropped; each one must stand
    between two digits.  [prev] is the character before, if any. *)
Fixpoint drop_underscores (prev : option ascii) (s : string) : option string :=
  match s with
  | EmptyString =>
      match prev with
      | Some p => if Ascii.eqb p "_" then None else Some EmptyString
      | None => Some EmptyString
      end
  | String c s' =>
      if Ascii.eqb c "_" then
        match prev with
        | Some p => if Str.is_digit p then drop_underscores (Some c) s' else None
        | None => None
        end
      else
        match prev with
        | Some p =>
            if Ascii.eqb p "_" && negb (Str.is_digit c) then None
            else option_map (String c) (drop_underscores (Some c) s')
        | None => option_map (String c) (drop_underscores (Some c) s')
        end
  end.

(** The number that a run of digits of a float literal writes, which may
    be of any length; [None] for the empty string and for a string that
    holds another character. *)
Definition digits_value (s : string) : option Z :=
  match s with
  | EmptyString => None
  | _ => parse_digits_aux 0 s
  end.

(** A sign in front of [s], and the rest. *)
Definition split_sign (s : string) : bool * string :=
  match s with
  | String "-" r => (true, r)
  | String "+" r => (false, r)
  | _ => (false, s)
  end.

(** The exponent part of a decimal literal: nothing, or "e" or "E", a
    sign and digits. *)
Definition exponent (s : string) : option Z :=
  match s with
  | EmptyString => Some 0
  | String c r =>
      if Ascii.eqb c "e" || Ascii.eqb c "E" then
        let '(neg, ds) := split_sign r in
        match digits_value ds with
        | Some e => Some (if neg then - e else e)
        | None => None
        end
      else None
  end.

(** A decimal literal without its sign: digits, a point and digits (one
    of the two runs of digits may be empty), an exponent.  Its value is
    rounded to the nearest float, to an infinity beyond the largest
    float.  [float] has no limit on the number of digits. *)
Definition decimal (neg : bool) (s : string) : option spec_float :=
  let ip := Str.take (Str.span_length Str.is_digit s) s in
  let r1 := Str.drop (Str.span_length Str.is_digit s) s in
  let '(fp, r2) :=
    match r1 with
    | String "." r =>
        (Str.take (Str.span_length Str.is_digit r) r,
         Str.drop (Str.span_length Str.is_digit r) r)
    | _ => (EmptyString, r1)
    end in
  match digits_value (ip ++ fp), exponent r2 with
  | Some n, Some e =>
      let e' := e - Z.of_nat (String.length fp) in
      Some (Float.round_ratio neg (n * 10 ^ Z.max e' 0) (10 ^ Z.max (- e') 0))
  | _, _ => None
  end.

(** [float(value)] for a string.  [None] stands for the [ValueError] of a
    string that is no float literal. *)
Definition float (value : string) : option spec_float :=
  match drop_underscores None (strip value) with
  | None => None
  | Some t =>
      let '(neg, r) := split_sign t in
      let l := str_lower r in
      if String.eqb l "inf" || String.eqb l "infinity" then Some (S754_infinity neg)
      else if String.eqb l "nan" then Some S754_nan
      else decimal neg r
  end.

End Py.

(** ** The argument types [positive_int] and [positive_float] *)

(** What a [type=] function of the argument parser gives for the text of
    an argument: the value, the [ValueError] of the conversion, or the
    [ArgumentTypeError] with its message. *)
Inductive arg_result (A : Type) : Type :=
| Accepted (a : A)
| InvalidLiteral
| ArgumentTypeError (msg : list chunk).
Arguments Accepted {A} a.
Arguments InvalidLiteral {A}.
Arguments ArgumentTypeError {A} msg.

Definition positive_int (value : string) : arg_result Z :=
  match Py.int value with
  | None => InvalidLiteral
  | Some ivalue =>
      if ivalue <=? 0
      then ArgumentTypeError [Text (value ++ " is not a positive integer")%string]
      else Accepted ivalue
  end.

Definition positive_float (value : string) : arg_result spec_float :=
  match Py.float value with
  | None => InvalidLiteral
  | Some fvalue =>
      if SFleb fvalue (S754_zero false)
      then ArgumentTypeError [Repr fvalue; Text " is not a positive decimal"%string]
      else Accepted fvalue
  end.

(** ** [os.path] and [str(Path(...))] on POSIX paths *)

Module OsPath.

(** [os.path.join(a, b)] *)
Definition join (a b : string) : string :=
  match b with
  | String "/" _ => b
  | _ =>
      match a with
      | EmptyString => b
      | _ =>
          match Str.drop (String.length a - 1) a with
          | String "/" EmptyString => (a ++ b)%string
          | _ => (a ++ "/" ++ b)%string
          end
      end
  end.

(** Some character of [s] is not a dot. *)
Fixpoint has_non_dot (s : string) : bool :=
  match s with
  | EmptyString => false
  | String c s' => negb (Ascii.eqb c ".") || has_non_dot s'
  end.

(** [os.path.splitext(p)]: the extension starts at the last dot of [p],
    when that dot is after the last "/" and some character between the
    two is not a dot. *)
Definition splitext (p : string) : string * string :=
  match Text.rfind "." p with
  | None => (p, EmptyString)
  | Some dotIndex =>
      let filenameIndex :=
        match Text.rfind "/" p with
        | Some sepIndex => S sepIndex
        | None => O
        end in
      if (filenameIndex <=? dotIndex)%nat
           && has_non_dot (Str.take (dotIndex - filenameIndex) (Str.drop filenameIndex p))
      then (Str.take dotIndex p, Str.drop dotIndex p)
      else (p, EmptyString)
  end.

(** The root of a path: "//" for exactly two leading "/", "/" for any
    other number of them. *)
Definition root (p : string) : string :=
  match p with
  | String "/" (String "/" (String "/" _)) => "/"
  | String "/" (String "/" _) => "//"
  | String "/" _ => "/"
  | _ => ""
  end%string.

Fixpoint join_parts (ps : list string) : string :=
  match ps with
  | [] => EmptyString
  | [p] => p
  | p :: rest => (p ++ "/" ++ join_parts rest)%string
  end.

(** [str(Path(p))]: the root and the components joined by "/"; "." for a
    path without root and components. *)
Definition str_of_Path (p : string) : string :=
  match root p, Path.parts p with
  | EmptyString, [] => "."%string
  | r, ps => (r ++ join_parts ps)%string
  end.

End OsPath.

(** ** The arguments of the input and output group *)

Record Cli : Type := mkCli {
  file : option string;
  input_dir : string;
  output_dir : string;
  output_extension : string;
  recursive : bool
}.

(** The truth value of an optional string: [None] and the empty string
    are false. *)
Definition truthy (v : option string) : bool :=
  match v with
  | Some (String _ _) => true
  | _ => false
  end.

Definition input_file_mask : string := ".regionresult".

Section Paths.

Variable cli : Cli.

Definition get_output_dir_for_input_subdir (curr_walk_dir : string) : string :=
  OsPath.join (output_dir cli) (Str.drop (String.length (input_dir cli)) curr_walk_dir).

Definition get_output_file_for_input_file (input_file : string) : string :=
  let path_of_file_relative_to_input_dir_starting_index :=
    if recursive cli && negb (truthy (file cli))
    then String.length (OsPath.str_of_Path (input_dir cli))
    else String.length (input_dir cli) in
  let output_file_path_wrong_ext :=
    (output_dir cli
     ++ Str.drop path_of_file_relative_to_input_dir_starting_index input_file)%string in
  (fst (OsPath.splitext output_file_path_wrong_ext) ++ "."
   ++ Py.str_lower (output_extension cli))%string.

End Paths.

(** [isfile] tells which paths are regular files. *)
Definition non_recursive_file_condition
    (isfile : string -> bool) (input_dir file_name : string) : bool :=
  isfile (OsPath.join input_dir file_name)
  && String.eqb
       (Str.drop (String.length file_name - String.length input_file_mask) file_name)
       input_file_mask.

(** ** The styles in use *)

(** What opening and loading the style file gives: its styles, or an
    [OSError].  (The file is taken to hold a JSON object of strings when it
    can be read.) *)
Inductive style_file : Type :=
| StylesRead (styles : gmap string string)
| StylesUnreadable.

(** The variable [graph_styles] after the set-up of the script, for the
    argument [--styles] and the outcome of reading that file.  [None] is
    Python's [None], the value the variable starts with. *)
Definition load_graph_styles (styles : string) (f : style_file)
  : option (gmap string string) :=
  let load_default_styles := String.eqb styles "" in
  let graph_styles :=
    if negb load_default_styles then
      match f with
      | StylesRead g => Some g
      | StylesUnreadable => None
      end
    else None in
  if load_default_styles then Some default_styles else graph_styles.

(** The loop of the generator while [graph_styles] is [None]: a line is
    searched and its bounds converted as ever, and the subscript
    [graph_styles[state]] of the first record raises [TypeError]. *)
Fixpoint loop_without_styles (line_no : nat) (lines : list string) : result unit :=
  match lines with
  | [] => Ok tt
  | line :: rest =>
      let* r := line_record line_no line in
      match r with
      | None => loop_without_styles (S line_no) rest
      | Some _ => Raise TypeError
      end
  end.

(** [generate_output_for_input_file] with the variable [graph_styles] as
    the script holds it.  Without styles the loop ends only if it saw no
    record, and the spans of the unset bounds raise. *)
Definition generate_output
    (args : Args) (graph_styles : option (gmap string string))
    (text input_file_name : string) : result (list chunk) :=
  match graph_styles with
  | Some styles => generate_output_for_input_file args styles text input_file_name
  | None =>
      let* _ := loop_without_styles 0 (readlines text) in
      let* x_span := get_span None None in
      Raise UnboundLocalError
  end.

(** ** The script around the generator

    The file system is a map from the paths of the readable files to their
    text; opening any other path to read it raises [OSError].  A file that
    was opened to write it can be read afterwards.  What the spinner shows
    is kept as a list of events, without the colours, the duration and the
    text of an [OSError]. *)

Inductive script_exn : Type :=
| ConversionError (e : exn)
| OSError
| NameError
| KeyError
| PathTypeError.

Inductive event : Type :=
| Stopped
| Started (text : string)
| Converted (path : string)
| ReadFailed (path : string)
| WriteFailed (path : string)
| SkippedOutputExists (output_file_path : string)
| SkippedUnchanged (path : string)
| SkippedTooLarge (path : string) (num_lines : nat).

(** The arguments that choose the files. *)
Record Selection : Type := mkSelection {
  all : bool;
  no_overwrite : bool;
  line_limit : Z;
  hide_skipped : bool
}.

(** The variables of the scan of the input directory. *)
Record scan : Type := mkScan {
  filtered_paths : list string;
  output_file_paths : gmap string (option string);
  skipped_too_large_file : bool;
  scan_shown : list event
}.

Section Scan.

Variable cli : Cli.
Variable sel : Selection.
Variable files : gmap string string.
Variable isfile : string -> bool.
Variable getmtime : string -> spec_float.

(** Why a file with an output is left out, if it is. *)
Definition skip_reason (path output_file_path : string) : option event :=
  if negb (all sel) then
    if isfile output_file_path then
      if no_overwrite sel then Some (SkippedOutputExists output_file_path)
      else if Float.lt (getmtime path) (getmtime output_file_path)
           then Some (SkippedUnchanged path)
           else None
    else None
  else None.

(** [create_done_spinner(msg, "info", cond)] *)
Definition show_if (cond : bool) (e : event) (shown : list event) : list event :=
  if cond then shown ++ [e] else shown.

(** The loop over the files found in the input directory. *)
Fixpoint filter_paths (paths : list string) (s : scan) : scan * option script_exn :=
  match paths with
  | [] => (s, None)
  | path_of_file_to_convert :: rest =>
      match files !! path_of_file_to_convert with
      | None => (s, Some OSError)
      | Some text =>
          let output_file_path := get_output_file_for_input_file cli path_of_file_to_convert in
          match skip_reason path_of_file_to_convert output_file_path with
          | Some e =>
              filter_paths rest
                (mkScan (filtered_paths s) (output_file_paths s) (skipped_too_large_file s)
                   (show_if (negb (hide_skipped sel)) e (scan_shown s)))
          | None =>
              let num_lines := List.length (readlines text) in
              if line_limit sel <? Z.of_nat num_lines then
                filter_paths rest
                  (mkScan (filtered_paths s) (output_file_paths s) true
                     (show_if true (SkippedTooLarge path_of_file_to_convert num_lines)
                        (scan_shown s)))
              else
                filter_paths rest
                  (mkScan (filtered_paths s ++ [path_of_file_to_convert])
                     (<[ path_of_file_to_convert := Some output_file_path ]>
                        (output_file_paths s))
                     (skipped_too_large_file s) (scan_shown s))
          end
      end
  end.

End Scan.

(** The scan starts without files and outputs. *)
Definition empty_scan : scan := mkScan [] empty false [].

(** The state the conversions change: the files, the standard output, what
    the spinner has shown, and whether the variable [spinner] is bound. *)
Record world : Type := mkWorld {
  world_files : gmap string string;
  stdout : list string;
  shown : list event;
  spinner : bool
}.

(** What [with open(output_file_path, "w") as wf: wf.write(output)] comes
    to.  [open] may raise [OSError], and the file is as it was.  Once
    [open] has returned the file exists and is empty, whatever it held;
    the text is then written from its start, and an [OSError] of the write
    or of closing the file leaves the [written] characters that reached
    the file. *)
Inductive write_outcome : Type :=
| WriteDone
| OpenRefused
| WriteBroken (written : nat).

Section Conversions.

Variable args : Args.
Variable graph_styles : option (gmap string string).
Variable output_to_std : bool.
Variable paths_out : gmap string (option string).

(** [repr] is the text of a float.  [try_write w path text] is the outcome
    of writing [text] to [path] in the state [w]; it may depend on all
    that has happened before. *)
Variable repr : spec_float -> string.
Variable try_write : world -> string -> string -> write_outcome.

Definition chunk_text (c : chunk) : string :=
  match c with
  | Text s => s
  | Repr f => repr f
  end.

(** The document as one string. *)
Definition render (doc : list chunk) : string :=
  fold_right (fun c rest => (chunk_text c ++ rest)%string) EmptyString doc.

(** One iteration of the loop over the files to convert. *)
Definition convert_file (w : world) (path_of_file_to_convert : string)
  : world * option script_exn :=
  if negb output_to_std && negb (spinner w) then (w, Some NameError)
  else
    let w :=
      if negb output_to_std
      then mkWorld (world_files w) (stdout w)
             (shown w ++ [Stopped; Started (path_of_file_to_convert ++ "...")%string]) true
      else w in
    match world_files w !! path_of_file_to_convert with
    | None =>
        if spinner w
        then (mkWorld (world_files w) (stdout w)
                (shown w ++ [ReadFailed path_of_file_to_convert]) true, None)
        else (w, Some NameError)
    | Some text =>
        match generate_output args graph_styles text path_of_file_to_convert with
        | Raise e => (w, Some (ConversionError e))
        | Ok output =>
            if output_to_std
            then (mkWorld (world_files w) (stdout w ++ [(render output ++ nl)%string])
                    (shown w) (spinner w), None)
            else
              match paths_out !! path_of_file_to_convert with
              | None => (w, Some KeyError)
              | Some None => (w, Some PathTypeError)
              | Some (Some output_file_path) =>
                  match try_write w output_file_path (render output) with
                  | WriteDone =>
                      (mkWorld (<[ output_file_path := render output ]> (world_files w))
                         (stdout w) (shown w ++ [Converted path_of_file_to_convert]) true,
                       None)
                  | OpenRefused =>
                      (mkWorld (world_files w) (stdout w)
                         (shown w ++ [WriteFailed output_file_path]) true, None)
                  | WriteBroken written =>
                      (mkWorld
                         (<[ output_file_path := Str.take written (render output) ]>
                            (world_files w))
                         (stdout w) (shown w ++ [WriteFailed output_file_path]) true, None)
                  end
              end
        end
    end.

(** The loop: an exception that is no [OSError] ends it. *)
Fixpoint convert_files (w : world) (paths_of_files_to_convert : list string)
  : world * option script_exn :=
  match paths_of_files_to_convert with
  | [] => (w, None)
  | p :: rest =>
      match convert_file w p with
      | (w', None) => convert_files w' rest
      | (w', Some e) => (w', Some e)
      end
  end.

End Conversions.

(** The set-up for a single input file: the only path is the file, its
    output is [--output-file], and the document goes to the standard
    output when that is not given. *)
Definition single_file_paths (file : string) (output_file : option string)
  : list string * gmap string (option string) * bool :=
  ([file], <[ file := output_file ]> empty, negb (truthy output_file)).

(** ** Notions for the statements about the document and the lines *)

(** The draw command of a record, with the style of its state. *)
Definition draw_command (args : Args) (style : string) (r : record) : list chunk :=
  [ Text "\draw ["; Text style; Text "line width = "; str_of_number (line_width args);
    Text "mm"; Text "] ("; Repr (x0 r); Text ","; Repr (y0 r);
    Text ") rectangle ("; Repr (x1 r); Text ","; Repr (y1 r);
    Text (");" ++ nl) ]%string.

(** The draw commands of the records, in order. *)
Definition draw_commands
    (args : Args) (graph_styles : gmap string string) (recs : list record) : list chunk :=
  flat_map (fun r => draw_command args (default ""%string (graph_styles !! state r)) r) recs.

(** The text of a record in the format of the input files:
    state: x0<=x_axis<=x1,y0<=y_axis<=y1; *)
Definition record_text (g : groups) : string :=
  (g_state g ++ ": " ++ g_x0 g ++ "<=" ++ g_x_axis g ++ "<=" ++ g_x1 g ++ ","
   ++ g_y0 g ++ "<=" ++ g_y_axis g ++ "<=" ++ g_y1 g ++ ";")%string.

(** The state and the axis names are words, the bounds are made of digits
    and "/". *)
Definition groups_in_classes (g : groups) : Prop :=
  Str.all Str.is_word (g_state g) = true /\
  Str.all Str.is_bound_char (g_x0 g) = true /\
  Str.all Str.is_word (g_x_axis g) = true /\
  Str.all Str.is_bound_char (g_x1 g) = true /\
  Str.all Str.is_bound_char (g_y0 g) = true /\
  Str.all Str.is_word (g_y_axis g) = true /\
  Str.all Str.is_bound_char (g_y1 g) = true.

(** An exception the generator can end with, for the lines it is given. *)
Definition generator_error
    (graph_styles : gmap string string) (lines : list string) (e : exn) : Prop :=
  (exists i line, nth_error lines i = Some line /\ search_record line = None /\
                  e = format_error i) \/
  (exists i line g, nth_error lines i = Some line /\ search_record line = Some g /\
                    graph_styles !! g_state g = None /\
                    e = UnknownStateException ("Unknown state: " ++ g_state g)) \/
  e = ValueError \/ e = ZeroDivisionError \/ e = OverflowError \/
  (e = TypeError /\ parse_records 0 lines = Ok []).

(** The text a match of the items covers, for the groups [gs] it
    captured: each literal as it is, each group a run of its class. *)
Fixpoint matched_text (p : list Regex.item) (gs : list string) (t : string) : Prop :=
  match p, gs with
  | [], [] => t = EmptyString
  | Regex.Lit l :: p', _ => exists t', t = (l ++ t')%string /\ matched_text p' gs t'
  | Regex.Group cls :: p', g :: gs' =>
      Str.all cls g = true /\ exists t', t = (g ++ t')%string /\ matched_text p' gs' t'
  | _, _ => False
  end.

(** What holds of a file the scan of the input directory has kept: its
    output path is recorded under its path, it can be read, it has no more
    lines than the limit, and, unless every file is asked for, an output
    that exists is neither protected nor newer than the file. *)
Definition kept_by_scan
    (cli : Cli) (sel : Selection) (files : gmap string string)
    (isfile : string -> bool) (getmtime : string -> spec_float)
    (s : scan) (p : string) : Prop :=
  output_file_paths s !! p = Some (Some (get_output_file_for_input_file cli p)) /\
  exists text,
    files !! p = Some text /\
    Z.of_nat (List.length (readlines text)) <= line_limit sel /\
    (all sel = false ->
     isfile (get_output_file_for_input_file cli p) = true ->
     no_overwrite sel = false /\
     Float.lt (getmtime p) (getmtime (get_output_file_for_input_file cli p)) = false).

(** ** Inputs of the examples about the script *)

Definition cli_default : Cli := mkCli None "./input/" "./output/" "tex" false.

Definition selection_default : Selection := mkSelection false false 100000 false.

(** Two files of the input directory: one region, and a text that is no
    region. *)
Definition two_files : gmap string string :=
  <[ "./input/a.regionresult"%string := one_region ]>
    (<[ "./input/b.regionresult"%string := ("garbage text" ++ nl)%string ]> empty).

Definition two_outputs : gmap string (option string) :=
  <[ "./input/a.regionresult"%string := Some "./output/a.tex"%string ]>
    (<[ "./input/b.regionresult"%string := Some "./output/b.tex"%string ]> empty).

Definition world_of (files : gmap string string) : world := mkWorld files [] [] true.

(** Every write succeeds. *)
Definition writes_succeed : world -> string -> string -> write_outcome :=
  fun _ _ _ => WriteDone.

(** The write of "./output/a.tex" breaks off after [n] characters, every
    other write succeeds. *)
Definition write_of_a_breaks (n : nat) : world -> string -> string -> write_outcome :=
  fun _ output_file_path _ =>
    if String.eqb output_file_path "./output/a.tex" then WriteBroken n else WriteDone.

(** [n] times the digit 0. *)
Fixpoint zeros (n : nat) : string :=
  match n with
  | O => EmptyString
  | S n' => String "0" (zeros n')
  end.

(** A string of digits only, which may be empty. *)
Definition all_digits (s : string) : Prop := Str.all Str.is_digit s = true.

(** No output path of the files to convert is the path of one of them. *)
Definition outputs_apart
    (paths_out : gmap string (option string)) (paths : list string) : Prop :=
  forall p q, In p paths -> paths_out !! p = Some (Some q) -> ~ In q paths.

(** What the file [q] holds after the write of [text] to it: the whole
    text, or the characters that a write that broke off has left. *)
Definition holds_written
    (try_write : world -> string -> string -> write_outcome)
    (content : option string) (q text : string) : Prop :=
  content = Some text \/
  exists n w0, try_write w0 q text = WriteBroken n /\ content = Some (Str.take n text).


(** * Facts about results *)

Lemma bind_ok {A B} (r : result A) (k : A -> result B) b :
  bind r k = Ok b -> exists a, r = Ok a /\ k a = Ok b.
Proof. destruct r as [a | e]; simpl; [eauto | discriminate]. Qed.


(** * Facts about the float model *)

Module FloatFacts.
Import Float.

Lemma pow2_pos k : 0 <= k -> 0 < 2 ^ k.
Proof. intros; apply Z.pow_pos_nonneg; lia. Qed.

Lemma pow2_split a b : 0 <= b <= a -> 2 ^ a = 2 ^ (a - b) * 2 ^ b.
Proof. intros H. rewrite <- Z.pow_add_r by lia. f_equal; lia. Qed.

Lemma pow2_ge_2 k : 1 <= k -> 2 <= 2 ^ k.
Proof.
  intros H. change 2 with (2 ^ 1) at 1. apply Z.pow_le_mono_r; lia.
Qed.

Lemma rne_div_cases n d :
  0 < d ->
  (rne_div n d = n / d /\ 2 * (n mod d) <= d) \/
  (rne_div n d = n / d + 1 /\ d <= 2 * (n mod d)).
Proof.
  intros Hd. unfold rne_div.
  destruct (Z.compare_spec (2 * (n mod d)) d) as [E | L | G].
  - destruct (Z.even (n / d)); [left | right]; lia.
  - left; lia.
  - right; lia.
Qed.

Lemma grid V n k :
  representable V -> 0 <= k -> 0 <= n < 2 ^ 53 -> (k = 0 \/ 2 ^ 52 <= n) ->
  V <= n * 2 ^ k \/ (n + 1) * 2 ^ k <= V.
Proof.
  intros (mg & kg & -> & Hkg & Hmg & Hn) Hk Hnk Hnn.
  destruct (Z_le_gt_dec k kg) as [Hle | Hgt].
  - rewrite (pow2_split kg k) by lia.
    pose proof (pow2_pos k Hk) as Hp.
    pose proof (pow2_pos (kg - k) ltac:(lia)) as Hp'.
    destruct (Z_le_gt_dec (mg * 2 ^ (kg - k)) n); [left | right]; nia.
  - left. destruct Hnn as [-> | Hnn]; [lia |].
    rewrite (pow2_split k kg) by lia.
    pose proof (pow2_pos kg Hkg) as Hp.
    pose proof (pow2_ge_2 (k - kg) ltac:(lia)) as Hp'.
    assert (mg <= n * 2 ^ (k - kg)) by nia.
    nia.
Qed.


Lemma exponent_spec P q :
  0 <= P -> 0 < q ->
  let k0 := Z.max 0 (Z.log2 P - Z.log2 q - 53) in
  let k := if 2 ^ 53 <=? P / (q * 2 ^ k0) then k0 + 1 else k0 in
  0 <= k /\ 0 <= P / (q * 2 ^ k) < 2 ^ 53 /\ (k = 0 \/ 2 ^ 52 <= P / (q * 2 ^ k)).
Proof.
  intros HP Hq k0 k.
  assert (Hk0 : 0 <= k0) by (unfold k0; lia).
  pose proof (pow2_pos k0 Hk0) as Hp0.
  assert (HD0 : 0 < q * 2 ^ k0) by nia.
  assert (Hn0 : 0 <= P / (q * 2 ^ k0)) by (apply Z.div_pos; lia).
  (* the first quotient is below 2^54, and at least 2^52 unless k0 = 0 *)
  assert (Hup : P / (q * 2 ^ k0) < 2 ^ 54).
  { apply Z.div_lt_upper_bound; [lia |].
    destruct (Z.eq_dec P 0) as [-> | HP0]; [nia |].
    destruct (Z.log2_spec P ltac:(lia)) as [_ HPu].
    destruct (Z.log2_spec q Hq) as [Hql _].
    pose proof (Z.log2_nonneg P). pose proof (Z.log2_nonneg q).
    assert (2 ^ Z.succ (Z.log2 P) <= 2 ^ (54 + Z.log2 q + k0)).
    { apply Z.pow_le_mono_r; unfold k0; lia. }
    rewrite !Z.pow_add_r in H1 by lia.
    nia. }
  assert (Hlow : k0 = 0 \/ 2 ^ 52 <= P / (q * 2 ^ k0)).
  { destruct (Z.eq_dec k0 0) as [? | Hne]; [now left | right].
    assert (Hk0' : k0 = Z.log2 P - Z.log2 q - 53) by (unfold k0 in *; lia).
    assert (HPpos : 0 < P).
    { destruct (Z.eq_dec P 0) as [E | ?]; [| lia].
      subst P. change (Z.log2 0) with 0 in Hk0'. pose proof (Z.log2_nonneg q). lia. }
    destruct (Z.log2_spec P HPpos) as [HPl _].
    destruct (Z.log2_spec q Hq) as [_ Hqu].
    pose proof (Z.log2_nonneg q).
    apply Z.div_le_lower_bound; [lia |].
    assert (E : Z.log2 P = 52 + Z.succ (Z.log2 q) + k0) by lia.
    rewrite E in HPl. rewrite !Z.pow_add_r in HPl by lia.
    nia. }
  unfold k. destruct (Z.leb_spec (2 ^ 53) (P / (q * 2 ^ k0))) as [Hbig | Hsmall].
  - assert (E : P / (q * 2 ^ (k0 + 1)) = P / (q * 2 ^ k0) / 2).
    { rewrite Z.pow_add_r by lia. rewrite Z.mul_assoc.
      rewrite Z.div_div by lia. reflexivity. }
    rewrite E. split; [lia |]. split.
    + split; [apply Z.div_pos; lia |].
      apply Z.div_lt_upper_bound; [lia |]. change (2 * 2 ^ 53) with (2 ^ 54). lia.
    + right. apply Z.div_le_lower_bound; [lia |]. change (2 * 2 ^ 52) with (2 ^ 53). lia.
  - split; [lia |]. split; [lia |]. exact Hlow.
Qed.

Lemma round_mk_spec p q m k :
  0 <= p -> 0 < q -> round_mk p q = (m, k) ->
  0 <= k /\ 0 <= m < 2 ^ 53 /\ (k = 0 \/ 2 ^ 52 <= m) /\
  (forall V, representable V -> V * q <= p * 2 ^ 1074 -> V <= m * 2 ^ k) /\
  (forall V, representable V -> p * 2 ^ 1074 <= V * q -> m * 2 ^ k <= V) /\
  (forall V, representable V ->
     Z.abs (m * 2 ^ k * q - p * 2 ^ 1074) <= Z.abs (V * q - p * 2 ^ 1074)).
Proof.
  intros Hp Hq. unfold round_mk.
  set (P := p * 2 ^ 1074).
  assert (HP : 0 <= P) by (unfold P; pose proof (pow2_pos 1074); nia).
  destruct (exponent_spec P q HP Hq) as (Hk & Hn & Hnn).
  set (k1 := if 2 ^ 53 <=? P / (q * 2 ^ Z.max 0 (Z.log2 P - Z.log2 q - 53))
             then Z.max 0 (Z.log2 P - Z.log2 q - 53) + 1
             else Z.max 0 (Z.log2 P - Z.log2 q - 53)) in *.
  pose proof (pow2_pos k1 Hk) as Hpk.
  set (U := 2 ^ k1) in *.
  assert (HD : 0 < q * U) by nia.
  pose proof (Z.div_mod P (q * U) ltac:(lia)) as Hdm.
  pose proof (Z.mod_pos_bound P (q * U) HD) as Hr.
  set (n := P / (q * U)) in *. set (r := P mod (q * U)) in *.
  assert (Hgrid : forall V, representable V -> V <= n * U \/ (n + 1) * U <= V).
  { intros V HV. apply grid; auto. }
  set (c53 := 2 ^ 53) in *. set (c52 := 2 ^ 52) in *.
  assert (Hc : c53 = 2 * c52) by reflexivity.
  assert (Hval : forall m1, (m1 = n \/ m1 = n + 1) ->
     (if m1 =? c53 then (c52, k1 + 1) else (m1, k1)) = (m, k) ->
     m * 2 ^ k = m1 * U /\ 0 <= k /\ 0 <= m < c53 /\ (k = 0 \/ c52 <= m)).
  { intros m1 Hm1. destruct (Z.eqb_spec m1 c53) as [E | NE]; intros [= <- <-].
    - rewrite Z.pow_add_r by lia. fold U. change (2 ^ 1) with 2. lia.
    - fold U. lia. }
  destruct (rne_div_cases P (q * U) HD) as [[-> Hhalf] | [-> Hhalf]];
    fold n r in Hhalf |- *; intros Hmk.
  - destruct (Hval n (or_introl eq_refl) Hmk) as (Hv & ? & ? & ?).
    rewrite Hv. repeat split; try lia; try assumption.
    + intros V HV HVq. destruct (Hgrid V HV); nia.
    + intros V HV HVq. destruct (Hgrid V HV); nia.
    + intros V HV. destruct (Hgrid V HV); nia.
  - destruct (Hval (n + 1) (or_intror eq_refl) Hmk) as (Hv & ? & ? & ?).
    rewrite Hv. repeat split; try lia; try assumption.
    + intros V HV HVq. destruct (Hgrid V HV); nia.
    + intros V HV HVq. destruct (Hgrid V HV); nia.
    + intros V HV. destruct (Hgrid V HV); nia.
Qed.


Lemma digits2_log2 m : Zpos (digits2_pos m) = Z.log2 (Zpos m) + 1.
Proof.
  assert (E : digits2_pos m = Pos.size m).
  { induction m as [m IH | m IH |]; simpl; congruence. }
  rewrite E. destruct m; simpl; try reflexivity; lia.
Qed.

Lemma valid_finite s m e :
  valid (S754_finite s m e) <->
  -1074 <= e <= 971 /\ Zpos m < 2 ^ 53 /\ (e = -1074 \/ 2 ^ 52 <= Zpos m).
Proof.
  unfold valid, valid_binary, bounded, canonical_mantissa, fexp, SpecFloat.emin, prec, emax.
  rewrite digits2_log2.
  rewrite andb_true_iff, Z.eqb_eq, Z.leb_le.
  pose proof (Z.log2_lt_pow2 (Zpos m) 53 ltac:(lia)) as Hlt.
  pose proof (Z.log2_le_pow2 (Zpos m) 52 ltac:(lia)) as Hle.
  change (3 - 1024 - 53) with (-1074). change (1024 - 53) with 971.
  lia.
Qed.

Lemma representable_F2Z m e :
  valid (S754_finite false m e) -> representable (F2Z (S754_finite false m e)).
Proof.
  rewrite valid_finite. intros (He & Hm & Hn).
  exists (Zpos m), (e + 1074). simpl. split; [reflexivity |]. lia.
Qed.

Lemma round_ratio_valid s p q : 0 <= p -> 0 < q -> valid (round_ratio s p q).
Proof.
  intros Hp Hq. unfold round_ratio.
  destruct (round_mk p q) as [m k] eqn:E.
  destruct (round_mk_spec p q m k Hp Hq E) as (Hk & Hm & Hn & _).
  destruct m as [| m' | m']; try reflexivity.
  unfold emax, prec. change (1024 - 53) with 971.
  destruct (Z.leb_spec (k - 1074) 971); [| reflexivity].
  apply valid_finite. lia.
Qed.


Lemma mantissa_lt m1 e1 m2 e2 s1 s2 :
  valid (S754_finite s1 m1 e1) -> valid (S754_finite s2 m2 e2) -> e1 < e2 ->
  Zpos m1 * 2 ^ (e1 + 1074) < Zpos m2 * 2 ^ (e2 + 1074).
Proof.
  rewrite !valid_finite. intros (He1 & Hm1 & _) (He2 & _ & Hn2) Hlt.
  destruct Hn2 as [-> | Hn2]; [lia |].
  rewrite (pow2_split (e2 + 1074) (e1 + 1074)) by lia.
  pose proof (pow2_pos (e1 + 1074) ltac:(lia)).
  pose proof (pow2_ge_2 (e2 + 1074 - (e1 + 1074)) ltac:(lia)).
  set (c53 := 2 ^ 53) in *. set (c52 := 2 ^ 52) in *.
  assert (c53 = 2 * c52) by reflexivity.
  assert (Zpos m1 < Zpos m2 * 2 ^ (e2 + 1074 - (e1 + 1074))) by nia.
  nia.
Qed.

Lemma F2Z_pos (m : positive) e : -1074 <= e -> 0 < Zpos m * 2 ^ (e + 1074).
Proof. intros H. pose proof (pow2_pos (e + 1074) ltac:(lia)). nia. Qed.

(** On the floats of the format, the comparison of [SpecFloat] is the
    comparison of the exact values. *)
Lemma SFcompare_F2Z x y :
  valid x -> valid y -> is_finite x = true -> is_finite y = true ->
  SFcompare x y = Some (F2Z x ?= F2Z y).
Proof.
  intros Hx Hy Fx Fy.
  destruct x as [sx | sx | | sx mx ex]; try discriminate;
  destruct y as [sy | sy | | sy my ey]; try discriminate.
  - reflexivity.
  - apply valid_finite in Hy. pose proof (F2Z_pos my ey ltac:(lia)).
    destruct sy; cbv [SFcompare F2Z cond_Zopp]; f_equal; symmetry;
      [apply Z.compare_gt_iff | apply Z.compare_lt_iff]; lia.
  - apply valid_finite in Hx. pose proof (F2Z_pos mx ex ltac:(lia)).
    destruct sx; cbv [SFcompare F2Z cond_Zopp]; f_equal; symmetry;
      [apply Z.compare_lt_iff | apply Z.compare_gt_iff]; lia.
  - pose proof Hx as Hx'. pose proof Hy as Hy'.
    apply valid_finite in Hx'. apply valid_finite in Hy'.
    pose proof (F2Z_pos mx ex ltac:(lia)).
    pose proof (F2Z_pos my ey ltac:(lia)).
    destruct sx, sy; cbv [SFcompare F2Z cond_Zopp]; f_equal; symmetry.
    + destruct (Z.compare_spec ex ey) as [E | L | G].
      * subst ey. change (Pos.compare_cont Eq mx my) with (mx ?= my)%positive.
        pose proof (pow2_pos (ex + 1074) ltac:(lia)).
        destruct (Pos.compare_spec mx my); cbv [CompOpp];
          [apply Z.compare_eq_iff | apply Z.compare_gt_iff | apply Z.compare_lt_iff];
          subst; nia.
      * pose proof (mantissa_lt _ _ _ _ _ _ Hx Hy L). apply Z.compare_gt_iff. lia.
      * pose proof (mantissa_lt _ _ _ _ _ _ Hy Hx ltac:(lia)). apply Z.compare_lt_iff. lia.
    + apply Z.compare_lt_iff. lia.
    + apply Z.compare_gt_iff. lia.
    + destruct (Z.compare_spec ex ey) as [E | L | G].
      * subst ey. change (Pos.compare_cont Eq mx my) with (mx ?= my)%positive.
        pose proof (pow2_pos (ex + 1074) ltac:(lia)).
        destruct (Pos.compare_spec mx my);
          [apply Z.compare_eq_iff | apply Z.compare_lt_iff | apply Z.compare_gt_iff];
          subst; nia.
      * pose proof (mantissa_lt _ _ _ _ _ _ Hx Hy L). apply Z.compare_lt_iff. lia.
      * pose proof (mantissa_lt _ _ _ _ _ _ Hy Hx ltac:(lia)). apply Z.compare_gt_iff. lia.
Qed.

Lemma lt_F2Z x y :
  valid x -> valid y -> is_finite x = true -> is_finite y = true ->
  lt x y = (F2Z x <? F2Z y).
Proof.
  intros Hx Hy Fx Fy. unfold lt, SFltb, Z.ltb.
  rewrite (SFcompare_F2Z x y Hx Hy Fx Fy). reflexivity.
Qed.

(** The exact value is the number of units divided by [2^1074]. *)
Lemma F2Q_F2Z x :
  valid x -> (F2Q x == inject_Z (F2Z x) / inject_Z (2 ^ 1074))%Q.
Proof.
  intros Hx. destruct x as [s | s | | s m e]; simpl; try reflexivity.
  apply valid_finite in Hx. destruct Hx as (He & _).
  rewrite inject_Z_mult.
  rewrite (Zpower_Qpower 2 (e + 1074)) by lia.
  rewrite (Zpower_Qpower 2 1074) by lia.
  rewrite Qpower_plus by discriminate.
  assert (Hb : ~ (inject_Z 2 ^ 1074 == 0)%Q) by (apply Qpower_not_0; discriminate).
  change (2 ^ e)%Q with (inject_Z 2 ^ e)%Q.
  generalize dependent (inject_Z 2 ^ 1074)%Q. generalize (inject_Z 2 ^ e)%Q.
  intros a b Hb. field. exact Hb.
Qed.

Lemma cond_Zopp_mul s a b : cond_Zopp s a * b = cond_Zopp s (a * b).
Proof. destruct s; simpl; lia. Qed.

Lemma round_ratio_F2Z s p q :
  0 <= p -> 0 < q -> is_finite (round_ratio s p q) = true ->
  exists m k, round_mk p q = (m, k) /\ F2Z (round_ratio s p q) = cond_Zopp s (m * 2 ^ k).
Proof.
  intros Hp Hq. unfold round_ratio.
  destruct (round_mk p q) as [m k] eqn:E.
  destruct (round_mk_spec p q m k Hp Hq E) as (Hk & Hm & _).
  intros Hfin. exists m, k. split; [reflexivity |].
  destruct m as [| m' | m']; [destruct s; reflexivity | | lia].
  destruct (k - 1074 <=? emax - prec); [| discriminate].
  cbn [F2Z]. rewrite cond_Zopp_mul. replace (k - 1074 + 1074) with k by lia. reflexivity.
Qed.

(** A ratio that is at most some float of the format rounds to a float. *)
Lemma round_ratio_finite_le s p q mg eg :
  0 <= p -> 0 < q -> valid (S754_finite false mg eg) ->
  p * 2 ^ 1074 <= F2Z (S754_finite false mg eg) * q ->
  is_finite (round_ratio s p q) = true.
Proof.
  intros Hp Hq Hg Hle. unfold round_ratio.
  destruct (round_mk p q) as [m k] eqn:E.
  destruct (round_mk_spec p q m k Hp Hq E) as (Hk & Hm & Hn & _ & Hup & _).
  destruct m as [| m' | m']; try reflexivity.
  unfold emax, prec. change (1024 - 53) with 971.
  destruct (Z.leb_spec (k - 1074) 971) as [? | Hbig]; [reflexivity | exfalso].
  specialize (Hup _ (representable_F2Z _ _ Hg) Hle).
  apply valid_finite in Hg. destruct Hg as (He & Hmg & _).
  cbn [F2Z cond_Zopp] in Hup.
  assert (H1 : 2 ^ (eg + 1074) <= 2 ^ 2045) by (apply Z.pow_le_mono_r; lia).
  assert (H2 : 2 ^ 2046 <= 2 ^ k) by (apply Z.pow_le_mono_r; lia).
  change (2 ^ 2046) with (2 * 2 ^ 2045) in H2.
  pose proof (pow2_pos 2045 ltac:(lia)) as HA.
  pose proof (pow2_pos (eg + 1074) ltac:(lia)) as HB.
  set (A := 2 ^ 2045) in *. set (B := 2 ^ (eg + 1074)) in *. set (C := 2 ^ k) in *.
  set (c53 := 2 ^ 53) in *. set (c52 := 2 ^ 52) in *.
  assert (c53 = 2 * c52) by reflexivity.
  destruct Hn as [-> | Hn]; [lia |].
  nia.
Qed.

(** The float nearest to [p / q], when one is returned, is at least as
    close to [p / q] as any float of the format (distances counted in units,
    times [q]). *)
Lemma round_ratio_nearest_Z p q :
  0 <= p -> 0 < q -> is_finite (round_ratio false p q) = true ->
  forall g, valid g -> is_finite g = true ->
    Z.abs (F2Z (round_ratio false p q) * q - p * 2 ^ 1074)
    <= Z.abs (F2Z g * q - p * 2 ^ 1074).
Proof.
  intros Hp Hq Hfin g Hg Fg.
  destruct (round_ratio_F2Z false p q Hp Hq Hfin) as (m & k & E & ->).
  destruct (round_mk_spec p q m k Hp Hq E) as (Hk & Hm & Hn & _ & _ & Hnear).
  cbn [cond_Zopp].
  assert (H0 : representable 0).
  { exists 0, 0. split; [reflexivity |]. lia. }
  pose proof (pow2_pos 1074 ltac:(lia)) as HU.
  destruct g as [sg | sg | | sg mg eg]; try discriminate.
  - exact (Hnear 0 H0).
  - destruct sg.
    + pose proof (Hnear 0 H0) as H.
      apply valid_finite in Hg.
      pose proof (F2Z_pos mg eg ltac:(lia)).
      cbn [F2Z cond_Zopp]. nia.
    + exact (Hnear _ (representable_F2Z _ _ Hg)).
Qed.

Lemma Qabs_inject_Z z : Qabs (inject_Z z) = inject_Z (Z.abs z).
Proof. reflexivity. Qed.

Lemma F2Q_minus x (p : Z) (q : positive) :
  valid x ->
  (F2Q x - (p # q) ==
   inject_Z (F2Z x * Zpos q - p * 2 ^ 1074) / inject_Z (2 ^ 1074 * Zpos q))%Q.
Proof.
  intros Hx. rewrite (F2Q_F2Z x Hx).
  rewrite (Qmake_Qdiv p q).
  unfold Z.sub. rewrite inject_Z_plus, inject_Z_opp, !inject_Z_mult.
  assert (HU : ~ (inject_Z (2 ^ 1074) == 0)%Q).
  { rewrite (Zpower_Qpower 2 1074) by lia. apply Qpower_not_0. discriminate. }
  generalize dependent (inject_Z (2 ^ 1074)). intros U HU.
  field. split; [discriminate | exact HU].
Qed.

(** The same, on the exact values. *)
Lemma round_ratio_nearest p (q : positive) :
  0 <= p -> is_finite (round_ratio false p (Zpos q)) = true ->
  forall g, valid g -> is_finite g = true ->
    (Qabs (F2Q (round_ratio false p (Zpos q)) - (p # q))
     <= Qabs (F2Q g - (p # q)))%Q.
Proof.
  intros Hp Hfin g Hg Fg.
  pose proof (round_ratio_nearest_Z p (Zpos q) Hp ltac:(lia) Hfin g Hg Fg) as H.
  rewrite (F2Q_minus _ p q (round_ratio_valid false p (Zpos q) Hp ltac:(lia))).
  rewrite (F2Q_minus g p q Hg).
  pose proof (pow2_pos 1074 ltac:(lia)) as HU.
  assert (HD : (0 < inject_Z (2 ^ 1074 * Zpos q))%Q).
  { change 0%Q with (inject_Z 0). rewrite <- Zlt_Qlt. nia. }
  unfold Qdiv. rewrite !Qabs_Qmult, !Qabs_inject_Z.
  apply Qmult_le_compat_r.
  - rewrite <- Zle_Qle. exact H.
  - apply Qabs_nonneg.
Qed.

Lemma round_ratio_in_range s p q :
  0 <= p -> 0 < q -> p < (2 ^ 1024 - 2 ^ 970) * q ->
  is_finite (round_ratio s p q) = true.
Proof.
  intros Hp Hq Hlt.
  assert (Hmax : valid (S754_finite false (2 ^ 53 - 1) 971)) by reflexivity.
  destruct (Z_le_gt_dec (p * 2 ^ 1074) (F2Z (S754_finite false (2 ^ 53 - 1) 971) * q))
    as [Hle | Hgt].
  - exact (round_ratio_finite_le s p q _ _ Hp Hq Hmax Hle).
  - unfold round_ratio.
    destruct (round_mk p q) as [m k] eqn:E.
    destruct (round_mk_spec p q m k Hp Hq E) as (Hk & Hm & Hn & _ & _ & Hnear).
    destruct m as [| m' | m']; try reflexivity.
    unfold emax, prec. change (1024 - 53) with 971.
    destruct (Z.leb_spec (k - 1074) 971) as [? | Hbig]; [reflexivity | exfalso].
    specialize (Hnear _ (representable_F2Z _ _ Hmax)).
    cbn [F2Z cond_Zopp] in Hnear, Hgt.
    assert (H2 : 2 ^ 2046 <= 2 ^ k) by (apply Z.pow_le_mono_r; lia).
    pose proof (pow2_pos 2044 ltac:(lia)) as HA.
    change (2 ^ 2046) with (4 * 2 ^ 2044) in H2.
    change (2 ^ (971 + 1074)) with (2 * 2 ^ 2044) in Hnear, Hgt.
    assert (Hlt' : p * 2 ^ 1074 < (2 ^ 54 - 1) * 2 ^ 2044 * q).
    { change ((2 ^ 54 - 1) * 2 ^ 2044) with ((2 ^ 1024 - 2 ^ 970) * 2 ^ 1074).
      pose proof (pow2_pos 1074 ltac:(lia)). nia. }
    change (Z.pos (2 ^ 53 - 1)) with (2 ^ 53 - 1) in Hnear, Hgt.
    set (A := 2 ^ 2044) in *. set (C := 2 ^ k) in *.
    set (P := p * 2 ^ 1074) in *.
    set (c54 := 2 ^ 54) in *. set (c53 := 2 ^ 53) in *. set (c52 := 2 ^ 52) in *.
    assert (c53 = 2 * c52) by reflexivity. assert (c54 = 2 * c53) by reflexivity.
    assert (0 < c52) by reflexivity.
    destruct Hn as [-> | Hn]; [lia |].
    assert (c54 * A <= Z.pos m' * C) by nia.
    nia.
Qed.

Lemma round_ratio_not_nan s p q : round_ratio s p q <> S754_nan.
Proof.
  unfold round_ratio. destruct (round_mk p q) as [[| m | m] k]; try discriminate.
  destruct (k - 1074 <=? emax - prec); discriminate.
Qed.


Lemma rne_div_nonneg n d : 0 <= n -> 0 < d -> 0 <= rne_div n d.
Proof.
  intros Hn Hd. pose proof (Z.div_pos n d Hn Hd).
  destruct (rne_div_cases n d Hd) as [[-> _] | [-> _]]; lia.
Qed.

Lemma good_abs s m e : good (S754_finite s m e) -> valid (S754_finite false m e).
Proof. intros [H _]. exact H. Qed.

Lemma sub_good x y : good x -> good y -> nonneg x -> nonneg y -> good (sub x y).
Proof.
  intros [Vx Fx] [Vy Fy] Nx Ny.
  destruct x as [sx | sx | | sx mx ex]; try discriminate;
  destruct y as [sy | sy | | sy my ey]; try discriminate;
  simpl in Nx, Ny; subst.
  - split; reflexivity.
  - split; [exact Vy | reflexivity].
  - split; [exact Vx | reflexivity].
  - unfold sub. cbn [cond_Zopp].
    set (ez := Z.min ex ey).
    set (z := Z.pos mx * 2 ^ (ex - ez) - Z.pos my * 2 ^ (ey - ez)).
    pose proof Vx as Vx'. pose proof Vy as Vy'.
    apply valid_finite in Vx'. apply valid_finite in Vy'.
    pose proof (pow2_pos (Z.max ez 0) ltac:(lia)) as H1.
    pose proof (pow2_pos (Z.max (- ez) 0) ltac:(lia)) as H2.
    pose proof (pow2_pos 1074 ltac:(lia)) as H3.
    pose proof (pow2_pos (ex - ez) ltac:(lia)) as H4.
    pose proof (pow2_pos (ey - ez) ltac:(lia)) as H5.
    assert (Hp : 0 <= Z.abs z * 2 ^ Z.max ez 0) by nia.
    split; [apply round_ratio_valid; assumption |].
    assert (Ex : 2 ^ (ex - ez) * (2 ^ Z.max ez 0 * 2 ^ 1074)
                 = 2 ^ (ex + 1074) * 2 ^ Z.max (- ez) 0).
    { rewrite <- !Z.pow_add_r by lia. f_equal. lia. }
    assert (Ey : 2 ^ (ey - ez) * (2 ^ Z.max ez 0 * 2 ^ 1074)
                 = 2 ^ (ey + 1074) * 2 ^ Z.max (- ez) 0).
    { rewrite <- !Z.pow_add_r by lia. f_equal. lia. }
    set (K := 2 ^ Z.max ez 0 * 2 ^ 1074) in *.
    assert (HK : 0 < K) by (unfold K; nia).
    destruct (Z_le_gt_dec 0 z) as [Hz | Hz].
    + apply (round_ratio_finite_le _ _ _ mx ex); try assumption.
      cbn [F2Z cond_Zopp].
      replace (Z.abs z * 2 ^ Z.max ez 0 * 2 ^ 1074) with (Z.abs z * K) by (unfold K; ring).
      replace (Z.pos mx * 2 ^ (ex + 1074) * 2 ^ Z.max (- ez) 0)
        with (Z.pos mx * (2 ^ (ex - ez) * K)) by (rewrite Ex; ring).
      assert (Z.abs z <= Z.pos mx * 2 ^ (ex - ez)) by (unfold z in *; nia).
      nia.
    + apply (round_ratio_finite_le _ _ _ my ey); try assumption.
      cbn [F2Z cond_Zopp].
      replace (Z.abs z * 2 ^ Z.max ez 0 * 2 ^ 1074) with (Z.abs z * K) by (unfold K; ring).
      replace (Z.pos my * 2 ^ (ey + 1074) * 2 ^ Z.max (- ez) 0)
        with (Z.pos my * (2 ^ (ey - ez) * K)) by (rewrite Ey; ring).
      assert (Z.abs z <= Z.pos my * 2 ^ (ey - ez)) by (unfold z in *; nia).
      nia.
Qed.

Lemma div_good x y :
  good x -> good y -> 2 ^ 1074 <= Z.abs (F2Z y) -> good (div x y).
Proof.
  intros [Vx Fx] [Vy Fy] Hy.
  pose proof (pow2_pos 1074 ltac:(lia)) as H3.
  destruct y as [sy | sy | | sy my ey]; try discriminate;
    [cbn [F2Z] in Hy; lia |].
  destruct x as [sx | sx | | sx mx ex]; try discriminate.
  - split; reflexivity.
  - unfold div.
    pose proof Vx as Vx'. pose proof Vy as Vy'.
    apply valid_finite in Vx'. apply valid_finite in Vy'.
    set (a := Z.max (ex - ey) 0). set (b := Z.max (ey - ex) 0).
    pose proof (pow2_pos a ltac:(lia)) as H1.
    pose proof (pow2_pos b ltac:(lia)) as H2.
    pose proof (pow2_pos (ex + 1074) ltac:(lia)) as H4.
    pose proof (pow2_pos (ey + 1074) ltac:(lia)) as H5.
    assert (Hp : 0 <= Z.pos mx * 2 ^ a) by nia.
    assert (Hq : 0 < Z.pos my * 2 ^ b) by nia.
    split; [apply round_ratio_valid; assumption |].
    apply (round_ratio_finite_le _ _ _ mx ex); try assumption.
    cbn [F2Z cond_Zopp].
    assert (E : 2 ^ (ex + 1074) * 2 ^ b = 2 ^ (ey + 1074) * 2 ^ a).
    { rewrite <- !Z.pow_add_r by lia. f_equal. lia. }
    assert (Hy' : 2 ^ 1074 <= Z.pos my * 2 ^ (ey + 1074)).
    { cbn [F2Z] in Hy. destruct sy; cbn [cond_Zopp] in Hy; lia. }
    replace (Z.pos mx * 2 ^ (ex + 1074) * (Z.pos my * 2 ^ b))
      with (Z.pos mx * (Z.pos my * (2 ^ (ex + 1074) * 2 ^ b))) by ring.
    rewrite E. nia.
Qed.

Lemma checked_good x r :
  valid x -> x <> S754_nan -> checked x = Ok r -> r = x /\ good r.
Proof.
  intros Vx Hn. destruct x; cbn [checked]; intros [= <-]; try congruence;
    (split; [reflexivity | split; [exact Vx | reflexivity]]).
Qed.

Lemma of_int_good n f :
  of_int n = Ok f -> good f /\ (n <> 0 -> 2 ^ 1074 <= Z.abs (F2Z f)).
Proof.
  unfold of_int. intros H.
  assert (Hp : 0 <= Z.abs n) by lia.
  destruct (checked_good _ _ (round_ratio_valid (n <? 0) (Z.abs n) 1 Hp ltac:(lia))
              (round_ratio_not_nan _ _ _) H) as [-> Hg].
  split; [exact Hg |]. intros Hn.
  destruct (round_ratio_F2Z (n <? 0) (Z.abs n) 1 Hp ltac:(lia) (proj2 Hg))
    as (m & k & E & ->).
  destruct (round_mk_spec (Z.abs n) 1 m k Hp ltac:(lia) E) as (Hk & Hm & _ & Hlow & _).
  assert (Hone : representable (2 ^ 1074)).
  { exists (2 ^ 52), 1022. split; [reflexivity |]. split; [lia |]. split; [| right]; cbv; easy. }
  specialize (Hlow _ Hone).
  pose proof (pow2_pos 1074 ltac:(lia)).
  pose proof (pow2_pos k Hk).
  assert (2 ^ 1074 <= m * 2 ^ k) by (apply Hlow; nia).
  destruct (n <? 0); cbn [cond_Zopp]; lia.
Qed.

Lemma round_good x nd r : good x -> round x nd = Ok r -> good r.
Proof.
  intros [Vx Fx]. destruct x as [s | s | | s m e]; try discriminate.
  - intros [= <-]. split; assumption.
  - cbn [round].
    destruct (323 <? nd); [intros [= <-]; split; assumption |].
    destruct (nd <? -308); [intros [= <-]; split; reflexivity |].
    set (num := Z.pos m * 2 ^ Z.max e 0 * 10 ^ Z.max nd 0).
    set (den := 2 ^ Z.max (- e) 0 * 10 ^ Z.max (- nd) 0).
    assert (Hnum : 0 <= num).
    { unfold num. pose proof (pow2_pos (Z.max e 0) ltac:(lia)).
      assert (0 < 10 ^ Z.max nd 0) by (apply Z.pow_pos_nonneg; lia). nia. }
    assert (Hden : 0 < den).
    { unfold den. pose proof (pow2_pos (Z.max (- e) 0) ltac:(lia)).
      assert (0 < 10 ^ Z.max (- nd) 0) by (apply Z.pow_pos_nonneg; lia). nia. }
    pose proof (rne_div_nonneg num den Hnum Hden) as Hn.
    assert (Hp : 0 <= rne_div num den * 10 ^ Z.max (- nd) 0).
    { assert (0 < 10 ^ Z.max (- nd) 0) by (apply Z.pow_pos_nonneg; lia). nia. }
    assert (Hq : 0 < 10 ^ Z.max nd 0) by (apply Z.pow_pos_nonneg; lia).
    pose proof (round_ratio_valid s _ _ Hp Hq) as Vr.
    pose proof (round_ratio_not_nan s (rne_div num den * 10 ^ Z.max (- nd) 0)
                  (10 ^ Z.max nd 0)) as Nr.
    destruct (round_ratio s _ _); intros [= <-]; try congruence;
      (split; [exact Vr | reflexivity]).
Qed.

Lemma digit_is_digit d : 0 <= d < 10 -> Str.is_digit (digit d) = true.
Proof.
  intros H.
  assert (C : d = 0 \/ d = 1 \/ d = 2 \/ d = 3 \/ d = 4 \/ d = 5 \/ d = 6 \/
              d = 7 \/ d = 8 \/ d = 9) by lia.
  repeat (destruct C as [-> | C]; [reflexivity |]). subst. reflexivity.
Qed.

Lemma string_of_uint_digits d :
  Str.all Str.is_digit (NilEmpty.string_of_uint d) = true.
Proof. induction d; simpl; auto. Qed.

Lemma of_N_digits n : Str.of_N n <> ""%string /\ Str.all Str.is_digit (Str.of_N n) = true.
Proof.
  unfold Str.of_N, NilZero.string_of_uint.
  destruct (N.to_uint n) eqn:E; (split; [discriminate | ]);
    try reflexivity; rewrite <- E; apply string_of_uint_digits.
Qed.

Lemma format_2f_shape x : is_finite x = true -> two_decimals (format_f 2 x).
Proof.
  destruct x as [s | s | | s m e]; try discriminate; intros _.
  - exists (sign_text s), "0"%string, "0"%char, "0"%char.
    split; [reflexivity |]. split; [destruct s; auto |].
    repeat split; discriminate.
  - unfold format_f.
    set (n := rne_div _ _).
    destruct (of_N_digits (Z.to_N (n / 10 ^ Z.of_nat 2))) as [Hne Hd].
    exists (sign_text s), (Str.of_N (Z.to_N (n / 10 ^ Z.of_nat 2))),
      (digit (n mod 10 ^ Z.of_nat 2 / 10 mod 10)), (digit (n mod 10 ^ Z.of_nat 2 mod 10)).
    split; [reflexivity |]. split; [destruct s; auto |].
    split; [exact Hne |]. split; [exact Hd |].
    split; apply digit_is_digit; apply Z.mod_pos_bound; lia.
Qed.

Lemma checked_error x e : checked x = Raise e -> e = OverflowError.
Proof. destruct x; simpl; congruence. Qed.

Lemma of_int_zero : of_int 0 = Ok (S754_zero false).
Proof. reflexivity. Qed.

Lemma round_error x nd e : round x nd = Raise e -> e = OverflowError.
Proof.
  destruct x as [s | s | | s m e']; try discriminate. cbn [round].
  destruct (323 <? nd); [discriminate |].
  destruct (nd <? -308); [discriminate |].
  destruct (round_ratio _ _ _); congruence.
Qed.

Lemma truediv_int_zero x : truediv_int x 0 = Raise ZeroDivisionError.
Proof. reflexivity. Qed.

Lemma truediv_int_ok x n d :
  truediv_int x n = Ok d ->
  exists fx, of_int n = Ok fx /\ d = div x fx /\ n <> 0.
Proof.
  unfold truediv_int. intros H. apply bind_ok in H. destruct H as (fx & Hfx & H).
  destruct (is_zero fx) eqn:Hz; [discriminate |]. injection H as <-.
  exists fx. repeat split; auto.
  intros ->. rewrite of_int_zero in Hfx. injection Hfx as <-. discriminate.
Qed.

Lemma truediv_int_error x n e :
  truediv_int x n = Raise e ->
  (n = 0 /\ e = ZeroDivisionError) \/ (n <> 0 /\ e = OverflowError).
Proof.
  unfold truediv_int. destruct (of_int n) as [fx |] eqn:Hfx; cbn [bind].
  - destruct (is_zero fx) eqn:Hz; [| discriminate]. intros [= <-]. left.
    split; [| reflexivity].
    destruct (Z.eq_dec n 0) as [? | Hn]; [assumption | exfalso].
    destruct (of_int_good n fx Hfx) as [_ Hm]. specialize (Hm Hn).
    destruct fx; try discriminate. cbn [F2Z] in Hm.
    pose proof (pow2_pos 1074 ltac:(lia)). lia.
  - intros [= <-]. right. split; [| exact (checked_error _ _ Hfx)].
    intros ->. rewrite of_int_zero in Hfx. discriminate.
Qed.

Lemma of_int_in_range n :
  Z.abs n < 2 ^ 1024 - 2 ^ 970 -> exists f, of_int n = Ok f.
Proof.
  intros H. unfold of_int.
  pose proof (round_ratio_in_range (n <? 0) (Z.abs n) 1 ltac:(lia) ltac:(lia) ltac:(lia)) as Hfin.
  destruct (round_ratio (n <? 0) (Z.abs n) 1); try discriminate; cbn [checked]; eauto.
Qed.

Lemma rne_div_one n : rne_div n 1 = n.
Proof.
  unfold rne_div. rewrite Z.mod_1_r, Z.div_1_r. reflexivity.
Qed.

Lemma rne_div_le n d : 0 <= n -> 2 <= d -> rne_div n d <= Z.max n 1.
Proof.
  intros Hn Hd.
  assert (Hq : n / d <= n / 2) by (apply Z.div_le_compat_l; lia).
  pose proof (Z.div_pos n d Hn ltac:(lia)).
  assert (n / 2 + 1 <= Z.max n 1 \/ n <= 1).
  { pose proof (Z.div_mod n 2 ltac:(lia)). pose proof (Z.mod_pos_bound n 2 ltac:(lia)). lia. }
  assert (n <= 1 -> n / d = 0) by (intros; apply Z.div_small; lia).
  destruct (rne_div_cases n d ltac:(lia)) as [[-> _] | [-> _]]; lia.
Qed.

(** With a number of digits that is not negative, [round] of a finite
    float raises nothing. *)
Lemma round_ok x nd : good x -> 0 <= nd -> exists r, round x nd = Ok r.
Proof.
  intros [Vx Fx] Hnd. destruct x as [s | s | | s m e]; try discriminate.
  - eexists. reflexivity.
  - cbn [round].
    destruct (323 <? nd); [eauto |].
    destruct (nd <? -308); [eauto |].
    rewrite (Z.max_l nd 0), (Z.max_r (- nd) 0) by lia.
    change (10 ^ 0) with 1. rewrite !Z.mul_1_r.
    set (T := 10 ^ nd).
    assert (HT : 0 < T) by (apply Z.pow_pos_nonneg; lia).
    pose proof Vx as Vx'. apply valid_finite in Vx'. destruct Vx' as (He & Hm & _).
    pose proof (pow2_pos (Z.max e 0) ltac:(lia)) as H1.
    pose proof (pow2_pos (Z.max (- e) 0) ltac:(lia)) as H2.
    pose proof (pow2_pos 1074 ltac:(lia)) as H3.
    set (n := rne_div (Z.pos m * 2 ^ Z.max e 0 * T) (2 ^ Z.max (- e) 0)).
    assert (Hn : 0 <= n) by (apply rne_div_nonneg; nia).
    assert (Hfin : is_finite (round_ratio s n T) = true).
    { destruct (Z_le_gt_dec 0 e) as [Hpos | Hneg].
      - apply (round_ratio_finite_le s n T m e Hn HT Vx).
        unfold n. rewrite (Z.max_r (- e) 0) by lia. change (2 ^ 0) with 1.
        rewrite rne_div_one, (Z.max_l e 0) by lia.
        cbn [F2Z cond_Zopp]. rewrite Z.pow_add_r by lia. nia.
      - assert (V53 : valid (S754_finite false (2 ^ 52) 1)) by reflexivity.
        apply (round_ratio_finite_le s n T _ _ Hn HT V53).
        cbn [F2Z cond_Zopp]. change (2 ^ (1 + 1074)) with (2 * 2 ^ 1074).
        assert (Hd : 2 <= 2 ^ Z.max (- e) 0).
        { apply pow2_ge_2. lia. }
        pose proof (rne_div_le (Z.pos m * 2 ^ Z.max e 0 * T) _ ltac:(nia) Hd) as Hle.
        fold n in Hle. rewrite (Z.max_r e 0) in Hle by lia. change (2 ^ 0) with 1 in Hle.
        change (Z.pos (2 ^ 52)) with (2 ^ 52).
        set (c53 := 2 ^ 53) in *. set (c52 := 2 ^ 52) in *.
        assert (c53 = 2 * c52) by reflexivity.
        assert (n <= c53 * T) by nia.
        nia. }
    destruct (round_ratio s n T); try discriminate; eauto.
Qed.

End FloatFacts.

(** * Facts about the parser *)

Module ParserFacts.
Import Float FloatFacts.

Lemma is_digit_value c : Str.is_digit c = true -> 0 <= Z.of_N (N_of_ascii c) - 48 <= 9.
Proof. unfold Str.is_digit. rewrite andb_true_iff, !Z.leb_le. lia. Qed.

Lemma parse_digits_aux_nonneg s acc n :
  0 <= acc -> parse_digits_aux acc s = Some n -> 0 <= n.
Proof.
  revert acc. induction s as [| c s IH]; intros acc Hacc; simpl.
  - intros [= <-]. exact Hacc.
  - destruct (Str.is_digit c) eqn:Hc; [| discriminate].
    apply IH. apply is_digit_value in Hc. lia.
Qed.

(** What [parse_digits] accepts: a string that is not empty, of at most
    [int_max_str_digits] digits. *)
Lemma parse_digits_inv s n :
  parse_digits s = Some n ->
  s <> EmptyString /\ Z.of_nat (String.length s) <= int_max_str_digits /\
  parse_digits_aux 0 s = Some n.
Proof.
  unfold parse_digits. destruct s as [| c s]; [discriminate |].
  destruct (Z.ltb_spec int_max_str_digits (Z.of_nat (String.length (String c s))))
    as [L | L]; [discriminate |].
  intros H. repeat split; [discriminate | exact L | exact H].
Qed.

Lemma parse_digits_nonneg s n : parse_digits s = Some n -> 0 <= n.
Proof.
  intros H. apply parse_digits_inv in H. destruct H as (_ & _ & H).
  revert H. apply parse_digits_aux_nonneg. lia.
Qed.

(** More digits than [int] takes are a [ValueError]. *)
Lemma parse_digits_too_long s :
  int_max_str_digits < Z.of_nat (String.length s) -> parse_digits s = None.
Proof.
  intros H. unfold parse_digits. destruct s; [reflexivity |].
  destruct (Z.ltb_spec int_max_str_digits (Z.of_nat (String.length (String a s))))
    as [L | L]; [reflexivity | lia].
Qed.

Lemma Qred_nonneg q : 0 <= Qnum q -> 0 <= Qnum (Qred q).
Proof.
  intros H. pose proof (Qred_correct q) as E. unfold Qeq in E. nia.
Qed.

Lemma Fraction_nonneg s q : Fraction s = Ok q -> 0 <= Qnum q.
Proof.
  unfold Fraction. destruct (Str.split_first "/" s) as [[a b] |].
  - destruct (parse_digits a) as [n |] eqn:Ha; [| discriminate].
    destruct (parse_digits b) as [d |] eqn:Hb; [| discriminate].
    destruct (d =? 0); [discriminate |]. intros [= <-].
    apply Qred_nonneg. simpl. exact (parse_digits_nonneg _ _ Ha).
  - destruct (parse_digits s) as [n |] eqn:Hs; [| discriminate].
    intros [= <-]. simpl. exact (parse_digits_nonneg _ _ Hs).
Qed.

Lemma round_ratio_nonneg p q : nonneg (round_ratio false p q) \/ round_ratio false p q = S754_infinity false.
Proof.
  unfold round_ratio. destruct (round_mk p q) as [[| m | m] k]; simpl; auto.
  destruct (k - 1074 <=? emax - prec); simpl; auto.
Qed.

Lemma float_of_Fraction_good q f :
  0 <= Qnum q -> float_of_Fraction q = Ok f -> good f /\ nonneg f.
Proof.
  intros Hq. unfold float_of_Fraction.
  replace (Qnum q <? 0) with false by (symmetry; apply Z.ltb_ge; exact Hq).
  intros H.
  assert (Hp : 0 <= Z.abs (Qnum q)) by lia.
  destruct (checked_good _ _ (round_ratio_valid false _ (Zpos (Qden q)) Hp ltac:(lia))
              (round_ratio_not_nan _ _ _) H) as [-> Hg].
  split; [exact Hg |].
  destruct (round_ratio_nonneg (Z.abs (Qnum q)) (Zpos (Qden q))) as [Hn | E]; [exact Hn |].
  rewrite E in Hg. destruct Hg as [_ Hg]. discriminate.
Qed.

Lemma s2f_good s f : s2f s = Ok f -> good f /\ nonneg f.
Proof.
  unfold s2f. intros H. apply bind_ok in H. destruct H as (q & Hq & Hf).
  exact (float_of_Fraction_good q f (Fraction_nonneg s q Hq) Hf).
Qed.

Lemma line_record_good n line r : line_record n line = Ok (Some r) -> record_good r.
Proof.
  unfold line_record. destruct (search_record line) as [g |].
  - intros H.
    apply bind_ok in H. destruct H as (a & Ha & H).
    apply bind_ok in H. destruct H as (b & Hb & H).
    apply bind_ok in H. destruct H as (c & Hc & H).
    apply bind_ok in H. destruct H as (d & Hd & H).
    injection H as <-. unfold record_good. cbn [x0 x1 y0 y1].
    split; [| split; [| split]]; eapply s2f_good; eassumption.
  - destruct (String.eqb line ""); discriminate.
Qed.

Lemma digit_not_slash c : Str.is_digit c = true -> Ascii.eqb c "/" = false.
Proof.
  intros H. apply is_digit_value in H. apply Ascii.eqb_neq. intros ->.
  vm_compute in H. destruct H as [H _]. apply H. reflexivity.
Qed.

Lemma split_first_digits a b acc n :
  parse_digits_aux acc a = Some n ->
  Str.split_first "/" (a ++ "/" ++ b)%string = Some (a, b).
Proof.
  revert acc. induction a as [| c a IH]; intros acc; simpl.
  - reflexivity.
  - destruct (Str.is_digit c) eqn:Hc; [| discriminate].
    rewrite (digit_not_slash c Hc). intros H. rewrite (IH _ H). reflexivity.
Qed.

Lemma Fraction_of_digits sa sb a b :
  parse_digits sa = Some a -> parse_digits sb = Some b ->
  Fraction (sa ++ "/" ++ sb) =
  if b =? 0 then Raise ZeroDivisionError else Ok (Qred (a # Z.to_pos b)).
Proof.
  intros Ha Hb. unfold Fraction.
  assert (Hs : Str.split_first "/" (sa ++ "/" ++ sb)%string = Some (sa, sb)).
  { destruct (parse_digits_inv _ _ Ha) as (_ & _ & Ha'). exact (split_first_digits _ _ _ _ Ha'). }
  rewrite Hs, Ha, Hb. reflexivity.
Qed.

Lemma s2f_zero_denominator s : zero_denominator s -> s2f s = Raise ZeroDivisionError.
Proof.
  intros (a & b & n & -> & Ha & Hb). unfold s2f.
  rewrite (Fraction_of_digits a b n 0 Ha Hb). reflexivity.
Qed.

Lemma line_record_zero_denominator n line g :
  search_record line = Some g -> first_failure_is_zero_denominator g ->
  line_record n line = Raise ZeroDivisionError.
Proof.
  intros Hs H. unfold line_record. rewrite Hs.
  destruct H as [H | [[a ->] H]]; [rewrite (s2f_zero_denominator _ H); reflexivity |].
  destruct H as [H | [[b ->] H]]; [rewrite (s2f_zero_denominator _ H); reflexivity |].
  destruct H as [H | [[c ->] H]]; [rewrite (s2f_zero_denominator _ H); reflexivity |].
  rewrite (s2f_zero_denominator _ H). reflexivity.
Qed.

(** The skip of empty lines never applies to a line of a text file:
    [readlines] gives no empty line. *)
Lemma readlines_aux_nonempty s : forall cur line,
  In line (readlines_aux cur s) -> line <> ""%string.
Proof.
  induction s as [| c s IH]; intros cur line; simpl.
  - destruct cur; simpl; [tauto |]. intros [<- | []]. discriminate.
  - destruct (Ascii.eqb c "010").
    + intros [<- | H]; [| exact (IH _ _ H)]. destruct cur; discriminate.
    + apply IH.
Qed.

Lemma readlines_nonempty text line : In line (readlines text) -> line <> ""%string.
Proof. apply readlines_aux_nonempty. Qed.

Lemma Q_eta (q : Q) : (Qnum q # Qden q) = q.
Proof. destruct q; reflexivity. Qed.

End ParserFacts.

(** * Facts about titles and paths *)

Module TextFacts.

Lemma latex_safe_text_escapes s : latex_safe_text s = escape_underscores s.
Proof.
  unfold latex_safe_text, Text.replace.
  induction s as [| c s IH]; [reflexivity |].
  change (Text.replace_aux "_" "\_" 0 (String c s))
    with (match (if Ascii.eqb "_" c then Some s else None) with
          | Some _ => ("\_" ++ Text.replace_aux "_" "\_" 0 s)%string
          | None => String c (Text.replace_aux "_" "\_" 0 s)
          end).
  cbn [escape_underscores].
  rewrite (Ascii.eqb_sym "_" c). destruct (Ascii.eqb c "_"); rewrite IH; reflexivity.
Qed.

Lemma append_cons x (a b : string) : (String x a ++ b)%string = String x (a ++ b).
Proof. reflexivity. Qed.

Lemma append_empty_r (a : string) : (a ++ "")%string = a.
Proof.
  induction a as [| x a IH]; [reflexivity |]. rewrite append_cons, IH. reflexivity.
Qed.

Lemma append_assoc (a b c : string) : ((a ++ b) ++ c = a ++ (b ++ c))%string.
Proof.
  induction a as [| x a IH]; [reflexivity |]. rewrite !append_cons, IH. reflexivity.
Qed.

Lemma length_append (a b : string) :
  String.length (a ++ b) = (String.length a + String.length b)%nat.
Proof.
  induction a as [| x a IH]; [reflexivity |].
  rewrite append_cons. cbn [String.length]. rewrite IH. reflexivity.
Qed.

Lemma take_append (a b : string) : Str.take (String.length a) (a ++ b) = a.
Proof.
  induction a as [| x a IH]; [destruct b; reflexivity |].
  rewrite append_cons. cbn [String.length Str.take]. rewrite IH. reflexivity.
Qed.

Lemma split_aux_no_sep sep n : forall cur,
  none_of (fun c => Ascii.eqb c sep) n = true ->
  Text.split_aux sep cur n = [(cur ++ n)%string].
Proof.
  unfold none_of. induction n as [| c n IH]; intros cur; simpl.
  - intros _. rewrite append_empty_r. reflexivity.
  - rewrite andb_true_iff, negb_true_iff. intros [Hc Hn]. rewrite Hc.
    rewrite (IH _ Hn), append_assoc. reflexivity.
Qed.

Lemma split_aux_last sep d n : forall cur,
  none_of (fun c => Ascii.eqb c sep) n = true ->
  exists l, Text.split_aux sep cur (d ++ String sep n) = l ++ [n].
Proof.
  induction d as [| c d IH]; intros cur Hn; simpl.
  - rewrite Ascii.eqb_refl. rewrite (split_aux_no_sep sep n "" Hn). exists [cur]. reflexivity.
  - destruct (Ascii.eqb c sep).
    + destruct (IH ""%string Hn) as [l ->]. exists (cur :: l). reflexivity.
    + apply IH. exact Hn.
Qed.

Lemma rfind_none c s : none_of (fun x => Ascii.eqb x c) s = true -> Text.rfind c s = None.
Proof.
  unfold none_of. induction s as [| x s IH]; simpl; [reflexivity |].
  rewrite andb_true_iff, negb_true_iff. intros [Hx Hs]. rewrite (IH Hs), Hx. reflexivity.
Qed.

Lemma rfind_last c a b :
  none_of (fun x => Ascii.eqb x c) b = true ->
  Text.rfind c (a ++ String c b) = Some (String.length a).
Proof.
  intros Hb. induction a as [| x a IH]; simpl.
  - rewrite (rfind_none c b Hb), Ascii.eqb_refl. reflexivity.
  - rewrite IH. reflexivity.
Qed.

Lemma none_of_weaken (p q : ascii -> bool) s :
  (forall c, q c = true -> p c = true) -> none_of p s = true -> none_of q s = true.
Proof.
  intros Hpq. unfold none_of. induction s as [| c s IH]; simpl; [reflexivity |].
  rewrite !andb_true_iff, !negb_true_iff. intros [Hc Hs]. split; [| auto].
  destruct (q c) eqn:E; [| reflexivity]. rewrite (Hpq c E) in Hc. discriminate.
Qed.

Lemma none_of_append p a b :
  none_of p a = true -> none_of p b = true -> none_of p (a ++ b) = true.
Proof.
  unfold none_of. induction a as [| c a IH]; simpl; [auto |].
  rewrite !andb_true_iff. intros [Hc Ha] Hb. auto.
Qed.

(** The stem of [base.ext], alone or after a directory part, is [base]:
    the extension is what follows the last dot of the last component. *)
Lemma stem_name base ext :
  base <> ""%string -> ext <> ""%string ->
  none_of (fun c => Ascii.eqb c "/") base = true ->
  none_of (fun c => Ascii.eqb c "/" || Ascii.eqb c ".") ext = true ->
  forall p, Path.name p = (base ++ "." ++ ext)%string -> Path.stem p = base.
Proof.
  intros Hb He Nb Ne p Hp. unfold Path.stem. rewrite Hp.
  assert (Ne' : none_of (fun x => Ascii.eqb x ".") ext = true).
  { apply (none_of_weaken (fun c => Ascii.eqb c "/" || Ascii.eqb c ".") _ _); [| exact Ne].
    intros c H. rewrite H. apply orb_true_r. }
  change (base ++ "." ++ ext)%string with (base ++ String "." ext)%string.
  rewrite (rfind_last "." base ext Ne'), length_append. cbn [String.length].
  destruct base as [| c base]; [congruence |].
  destruct ext as [| e ext]; [congruence |].
  cbn [String.length].
  replace (0 <? S (String.length base))%nat with true by (symmetry; apply Nat.ltb_lt; lia).
  replace (S (String.length base) <?
           S (String.length base) + S (S (String.length ext)) - 1)%nat
    with true by (symmetry; apply Nat.ltb_lt; lia).
  cbn [andb]. exact (take_append (String c base) (String "." (String e ext))).
Qed.

Lemma name_of_path d n :
  n <> ""%string -> n <> "."%string ->
  none_of (fun c => Ascii.eqb c "/") n = true ->
  Path.name (d ++ String "/" n) = n /\ Path.name n = n.
Proof.
  intros H1 H2 Hn. unfold Path.name, Path.parts, Text.split.
  assert (P : negb (String.eqb n "" || String.eqb n ".") = true).
  { apply String.eqb_neq in H1, H2. rewrite H1, H2. reflexivity. }
  split.
  - destruct (split_aux_last "/" d n "" Hn) as [l ->].
    rewrite filter_app.
    assert (E : List.filter (fun c => negb (String.eqb c "" || String.eqb c ".")) [n] = [n]).
    { unfold List.filter. rewrite P. reflexivity. }
    rewrite E. apply last_last.
  - rewrite (split_aux_no_sep "/" n "" Hn).
    change ("" ++ n)%string with n. unfold List.filter. rewrite P. reflexivity.
Qed.

Lemma stem_strips_extension d base ext :
  base <> ""%string -> ext <> ""%string ->
  none_of (fun c => Ascii.eqb c "/") base = true ->
  none_of (fun c => Ascii.eqb c "/" || Ascii.eqb c ".") ext = true ->
  Path.stem (d ++ "/" ++ base ++ "." ++ ext) = base /\
  Path.stem (base ++ "." ++ ext) = base.
Proof.
  intros Hb He Nb Ne.
  assert (Nn : none_of (fun c => Ascii.eqb c "/") (base ++ "." ++ ext) = true).
  { apply none_of_append; [exact Nb |]. apply none_of_append; [reflexivity |].
    apply (none_of_weaken (fun c => Ascii.eqb c "/" || Ascii.eqb c ".") _ _); [| exact Ne].
    intros c H. rewrite H. reflexivity. }
  assert (H1 : (base ++ "." ++ ext)%string <> ""%string).
  { destruct base; [congruence | discriminate]. }
  assert (H2 : (base ++ "." ++ ext)%string <> "."%string).
  { destruct base as [| c [| c' base]]; [congruence | | discriminate].
    destruct ext; [congruence | discriminate]. }
  destruct (name_of_path d _ H1 H2 Nn) as [E1 E2].
  split; apply (stem_name base ext Hb He Nb Ne); assumption.
Qed.

End TextFacts.

(** * Facts about the loop and the generator *)

Module LoopFacts.
Import Float FloatFacts ParserFacts.

Lemma F2Q_le x y : valid x -> valid y -> F2Z x <= F2Z y -> (F2Q x <= F2Q y)%Q.
Proof.
  intros Hx Hy H. rewrite (F2Q_F2Z x Hx), (F2Q_F2Z y Hy).
  apply Qmult_le_compat_r; [rewrite <- Zle_Qle; exact H |].
  apply Qinv_le_0_compat. change 0%Q with (inject_Z 0). rewrite <- Zle_Qle.
  pose proof (pow2_pos 1074 ltac:(lia)). lia.
Qed.

Lemma lower_acc_min acc v l :
  (forall u, In u l -> good u) -> good v ->
  acc_min acc l -> acc_min (lower acc v) (l ++ [v]).
Proof.
  intros Hl [Vv Fv] Hacc. destruct acc as [a |]; simpl in *.
  - destruct Hacc as [Ha Hmin]. destruct (Hl a Ha) as [Va Fa].
    rewrite (lt_F2Z v a Vv Va Fv Fa).
    destruct (Z.ltb_spec (F2Z v) (F2Z a)) as [Hlt | Hge]; simpl; split.
    + apply in_or_app. right. left. reflexivity.
    + intros u Hu. apply in_app_or in Hu. destruct Hu as [Hu | [<- | []]].
      * apply Qle_trans with (F2Q a); [apply F2Q_le; auto; lia | auto].
      * apply Qle_refl.
    + apply in_or_app. left. exact Ha.
    + intros u Hu. apply in_app_or in Hu. destruct Hu as [Hu | [<- | []]].
      * auto.
      * apply F2Q_le; auto.
  - subst l. split; [left; reflexivity |].
    intros u [<- | []]. apply Qle_refl.
Qed.

Lemma raise_to_acc_max acc v l :
  (forall u, In u l -> good u) -> good v ->
  acc_max acc l -> acc_max (raise_to acc v) (l ++ [v]).
Proof.
  intros Hl [Vv Fv] Hacc. destruct acc as [a |]; simpl in *.
  - destruct Hacc as [Ha Hmax]. destruct (Hl a Ha) as [Va Fa].
    rewrite (lt_F2Z a v Va Vv Fa Fv).
    destruct (Z.ltb_spec (F2Z a) (F2Z v)) as [Hlt | Hge]; simpl; split.
    + apply in_or_app. right. left. reflexivity.
    + intros u Hu. apply in_app_or in Hu. destruct Hu as [Hu | [<- | []]].
      * apply Qle_trans with (F2Q a); [auto | apply F2Q_le; auto; lia].
      * apply Qle_refl.
    + apply in_or_app. left. exact Ha.
    + intros u Hu. apply in_app_or in Hu. destruct Hu as [Hu | [<- | []]].
      * auto.
      * apply F2Q_le; auto.
  - subst l. split; [left; reflexivity |].
    intros u [<- | []]. apply Qle_refl.
Qed.

Lemma in_map_good (f : record -> spec_float) l :
  (forall r, In r l -> good (f r)) -> forall u, In u (map f l) -> good u.
Proof.
  intros H u Hu. apply in_map_iff in Hu. destruct Hu as (r & <- & Hr). auto.
Qed.

Lemma acc_min_some acc l : l <> [] -> acc_min acc l -> exists a, acc = Some a /\ is_minimum a l.
Proof. destruct acc as [a |]; simpl; [eauto | congruence]. Qed.

Lemma acc_max_some acc l : l <> [] -> acc_max acc l -> exists a, acc = Some a /\ is_maximum a l.
Proof. destruct acc as [a |]; simpl; [eauto | congruence]. Qed.

Lemma map_not_nil {A B} (f : A -> B) l : l <> [] -> map f l <> [].
Proof. destruct l; simpl; congruence. Qed.

Lemma in_map_record_good (f : record -> spec_float) recs a :
  Forall record_good recs -> In a (map f recs) ->
  exists r, a = f r /\ record_good r.
Proof.
  intros Hg Ha. apply in_map_iff in Ha. destruct Ha as (r & <- & Hr).
  rewrite Forall_forall in Hg. eauto.
Qed.

Section WithConfig.

Variable args : Args.
Variable graph_styles : gmap string string.

Lemma add_record_bounds st r st' pre :
  add_record args graph_styles st r = Ok st' ->
  bounds_of st pre -> Forall record_good pre -> record_good r ->
  bounds_of st' (pre ++ [r]).
Proof.
  unfold add_record. destruct (graph_styles !! state r); [| discriminate].
  intros [= <-] (H1 & H2 & H3 & H4) Hpre Hr.
  rewrite Forall_forall in Hpre.
  destruct Hr as ((G1 & _) & (G2 & _) & (G3 & _) & (G4 & _)).
  unfold bounds_of. cbn [x_min x_max y_min y_max].
  rewrite !map_app. cbn [map].
  repeat split.
  - apply lower_acc_min; auto. apply in_map_good. intros r' Hr'. apply (Hpre r' Hr').
  - apply raise_to_acc_max; auto. apply in_map_good. intros r' Hr'. apply (Hpre r' Hr').
  - apply lower_acc_min; auto. apply in_map_good. intros r' Hr'. apply (Hpre r' Hr').
  - apply raise_to_acc_max; auto. apply in_map_good. intros r' Hr'. apply (Hpre r' Hr').
Qed.

(** The loop processes the records of the lines in order: when it ends
    without an error, the lines have records, and the accumulators hold
    the bounds of the records seen. *)
Lemma loop_records lines : forall n st st' pre,
  loop args graph_styles st n lines = Ok st' ->
  bounds_of st pre -> Forall record_good pre ->
  exists recs, parse_records n lines = Ok recs /\
               bounds_of st' (pre ++ recs) /\ Forall record_good (pre ++ recs).
Proof.
  induction lines as [| line rest IH]; intros n st st' pre; simpl.
  - intros [= <-] Hb Hg. exists []. rewrite app_nil_r. auto.
  - intros H Hb Hg.
    apply bind_ok in H. destruct H as (st1 & Hbody & Hloop).
    unfold loop_body in Hbody.
    apply bind_ok in Hbody. destruct Hbody as (r & Hr & Hadd).
    rewrite Hr. simpl.
    destruct r as [r |].
    + pose proof (line_record_good _ _ _ Hr) as Hrg.
      pose proof (add_record_bounds _ _ _ _ Hadd Hb Hg Hrg) as Hb1.
      assert (Hg1 : Forall record_good (pre ++ [r])).
      { apply Forall_app. split; [exact Hg | constructor; [exact Hrg | constructor]]. }
      destruct (IH _ _ _ _ Hloop Hb1 Hg1) as (recs & -> & Hb2 & Hg2).
      exists (r :: recs). simpl. rewrite <- app_assoc in Hb2, Hg2. auto.
    + injection Hadd as <-.
      destruct (IH _ _ _ _ Hloop Hb Hg) as (recs & -> & Hb2 & Hg2).
      exists recs. auto.
Qed.

End WithConfig.

Section WithConfig2.

Variable args : Args.
Variable graph_styles : gmap string string.

Lemma loop_app l1 : forall st n l2,
  loop args graph_styles st n (l1 ++ l2) =
  let* st1 := loop args graph_styles st n l1 in
  loop args graph_styles st1 (n + List.length l1)%nat l2.
Proof.
  induction l1 as [| line rest IH]; intros st n l2; simpl.
  - rewrite Nat.add_0_r. reflexivity.
  - destruct (loop_body args graph_styles st n line) as [st1 | e]; simpl; [| reflexivity].
    rewrite IH. replace (S n + List.length rest)%nat with (n + S (List.length rest))%nat by lia.
    reflexivity.
Qed.

(** The loop stops at the first line that raises. *)
Lemma loop_first_failure before line after st e :
  loop args graph_styles initial_state 0 before = Ok st ->
  loop_body args graph_styles st (List.length before) line = Raise e ->
  loop args graph_styles initial_state 0 (before ++ line :: after) = Raise e.
Proof.
  intros Hb Hl. rewrite loop_app, Hb. simpl. rewrite Hl. reflexivity.
Qed.

Lemma generate_loop_failure lines name e :
  loop args graph_styles initial_state 0 lines = Raise e ->
  generate_output_for_lines args graph_styles lines name = Raise e.
Proof. unfold generate_output_for_lines. intros ->. reflexivity. Qed.

(** A document is produced only when every line goes through both halves
    of its iteration. *)
Lemma loop_ok_lines lines : forall st n st',
  loop args graph_styles st n lines = Ok st' ->
  forall i line, nth_error lines i = Some line ->
    exists st1 st2, loop_body args graph_styles st1 (n + i) line = Ok st2.
Proof.
  induction lines as [| l rest IH]; intros st n st' H i line Hi.
  - destruct i; discriminate.
  - simpl in H. apply bind_ok in H. destruct H as (st1 & Hbody & Hloop).
    destruct i as [| i]; simpl in Hi.
    + injection Hi as <-. rewrite Nat.add_0_r. eauto.
    + destruct (IH _ _ _ Hloop i line Hi) as (s1 & s2 & Hs).
      replace (n + S i)%nat with (S n + i)%nat by lia. eauto.
Qed.

Lemma generate_ok_loop lines name doc :
  generate_output_for_lines args graph_styles lines name = Ok doc ->
  exists st, loop args graph_styles initial_state 0 lines = Ok st.
Proof.
  unfold generate_output_for_lines. intros H. apply bind_ok in H.
  destruct H as (st & Hst & _). eauto.
Qed.

Lemma parse_records_nil_loop lines : forall n st,
  parse_records n lines = Ok [] -> loop args graph_styles st n lines = Ok st.
Proof.
  induction lines as [| l rest IH]; intros n st; simpl; [reflexivity |].
  intros H. apply bind_ok in H. destruct H as (r & Hr & H).
  apply bind_ok in H. destruct H as (rs & Hrs & H).
  destruct r as [r |]; [discriminate |]. injection H as ->.
  unfold loop_body. rewrite Hr. simpl. apply IH. exact Hrs.
Qed.

End WithConfig2.

Section WithConfig3.

Variable args : Args.
Variable graph_styles : gmap string string.

Lemma tick_distance_error span split rounding e :
  tick_distance span split rounding = Raise e ->
  (split = 0 /\ e = ZeroDivisionError) \/ (split <> 0 /\ e = OverflowError).
Proof.
  unfold tick_distance. destruct (truediv_int span split) as [d |] eqn:Hd; cbn [bind].
  - intros H. right. split; [| exact (round_error _ _ _ H)].
    destruct (truediv_int_ok _ _ _ Hd) as (_ & _ & _ & Hn). exact Hn.
  - intros [= <-]. exact (truediv_int_error _ _ _ Hd).
Qed.

Lemma tick_distance_zero span rounding :
  tick_distance span 0 rounding = Raise ZeroDivisionError.
Proof. reflexivity. Qed.

(** After the loop the four accumulators are all unset, when no record was
    seen, or all set. *)
Lemma loop_accumulators lines st :
  loop args graph_styles initial_state 0 lines = Ok st ->
  exists recs, parse_records 0 lines = Ok recs /\ Forall record_good recs /\
    ((recs = [] /\ st = initial_state) \/
     (recs <> [] /\
      exists a b c d, x_min st = Some a /\ x_max st = Some b /\
                      y_min st = Some c /\ y_max st = Some d /\
                      In a (map x0 recs) /\ In b (map x1 recs) /\
                      In c (map y0 recs) /\ In d (map y1 recs))).
Proof.
  intros Hloop.
  assert (Hb0 : bounds_of initial_state []) by (repeat split).
  destruct (loop_records args graph_styles lines 0 initial_state st [] Hloop Hb0
              (Forall_nil _)) as (recs & Hrecs & (H1 & H2 & H3 & H4) & Hg).
  simpl in *. exists recs. split; [exact Hrecs |]. split; [exact Hg |].
  destruct recs as [| r recs]; [left | right].
  - split; [reflexivity |].
    rewrite (parse_records_nil_loop args graph_styles lines 0 initial_state Hrecs) in Hloop.
    congruence.
  - assert (Hne : r :: recs <> []) by discriminate.
    split; [exact Hne |].
    destruct (acc_min_some _ _ (map_not_nil x0 _ Hne) H1) as (a & Ha & Ma & _).
    destruct (acc_max_some _ _ (map_not_nil x1 _ Hne) H2) as (b & Hb & Mb & _).
    destruct (acc_min_some _ _ (map_not_nil y0 _ Hne) H3) as (c & Hc & Mc & _).
    destruct (acc_max_some _ _ (map_not_nil y1 _ Hne) H4) as (d & Hd & Md & _).
    exists a, b, c, d. repeat split; assumption.
Qed.

End WithConfig3.

(** The loop goes through the lines whenever they all have records and
    every state has a style. *)
Lemma loop_total
    (args : Args) (graph_styles : gmap string string) (lines : list string) :
  forall n st recs,
    parse_records n lines = Ok recs ->
    (forall r, In r recs -> graph_styles !! state r <> None) ->
    exists st', loop args graph_styles st n lines = Ok st'.
Proof.
  induction lines as [| line rest IH]; intros n st recs; simpl.
  - eauto.
  - intros H Hst.
    apply bind_ok in H. destruct H as (r & Hr & H).
    apply bind_ok in H. destruct H as (rs & Hrs & H). injection H as <-.
    unfold loop_body. rewrite Hr. cbn [bind].
    destruct r as [r |].
    + unfold add_record.
      destruct (graph_styles !! state r) eqn:E;
        [| exfalso; apply (Hst r); [left; reflexivity | exact E]].
      cbn [bind]. apply (IH _ _ rs Hrs). intros r' Hr'. apply Hst. right. exact Hr'.
    + apply (IH _ _ rs Hrs). exact Hst.
Qed.


Lemma loop_axes (args : Args) (graph_styles : gmap string string) lines :
  forall n st st' recs,
    loop args graph_styles st n lines = Ok st' ->
    parse_records n lines = Ok recs ->
    recs <> [] \/ axes st <> None -> axes st' <> None.
Proof.
  induction lines as [| line rest IH]; intros n st st' recs; simpl.
  - intros [= <-] [= <-] [H | H]; congruence.
  - intros H Hr Hne.
    apply bind_ok in H. destruct H as (st1 & Hbody & Hloop).
    apply bind_ok in Hr. destruct Hr as (r & Hr & H).
    apply bind_ok in H. destruct H as (rs & Hrs & H). injection H as <-.
    unfold loop_body in Hbody. rewrite Hr in Hbody. cbn [bind] in Hbody.
    destruct r as [r |].
    + apply (IH _ _ _ _ Hloop Hrs). right.
      unfold add_record in Hbody. destruct (graph_styles !! state r); [| discriminate].
      injection Hbody as <-. discriminate.
    + injection Hbody as <-. apply (IH _ _ _ _ Hloop Hrs). exact Hne.
Qed.

End LoopFacts.

(** * The model on examples *)

Module Examples.
Import Float.

(** The rounded exact difference and quotient agree with [SFsub] and
    [SFdiv] of the Standard Library, here on 0.1, 0.3 and 3. *)
Example sub_div_agree_with_SpecFloat :
  let a := round_ratio false 1 10 in
  let b := round_ratio false 3 10 in
  let c := round_ratio false 3 1 in
  sub b a = SFsub prec emax b a /\ sub a b = SFsub prec emax a b /\
  sub a a = SFsub prec emax a a /\
  div a c = SFdiv prec emax a c /\ div c b = SFdiv prec emax c b /\
  div (sub b a) c = SFdiv prec emax (SFsub prec emax b a) c.
Proof. vm_compute. repeat split. Qed.

(** [round] and the [.2f] format round the exact binary value: 0.125 is a
    tie and goes to the even digit, 2.675 is below the tie as a float. *)
Example round_examples :
  round (round_ratio false 125 1000) 2 = Ok (round_ratio false 12 100) /\
  round (round_ratio false 2675 1000) 2 = Ok (round_ratio false 267 100) /\
  round (round_ratio false 15 10) 0 = Ok (round_ratio false 2 1) /\
  round (round_ratio false 1234 1) (-2) = Ok (round_ratio false 1200 1) /\
  format_f 2 (round_ratio false 125 1000) = "0.12"%string /\
  format_f 2 (round_ratio false 2675 1000) = "2.67"%string /\
  format_f 2 (round_ratio true 1 3) = "-0.33"%string /\
  format_f 2 (round_ratio false 1999 1000) = "2.00"%string.
Proof. vm_compute. repeat split. Qed.

(** The search of the pattern: anywhere in the line, the state and the
    bounds as long as they can be. *)
Example search_examples :
  search_record "AllViolated: 1/10000<=prob1<=5001/20000,1/10000<=perr<=5001/20000;"
  = Some (mkGroups "AllViolated" "1/10000" "prob1" "5001/20000" "1/10000" "perr" "5001/20000") /\
  search_record "# see AllSat: 0<=p<=1,0<=q<=1; and more"
  = Some (mkGroups "AllSat" "0" "p" "1" "0" "q" "1") /\
  search_record ": <=<=,<=<=;" = Some (mkGroups "" "" "" "" "" "" "") /\
  search_record "AllSat: 0.5<=p<=1,0<=q<=1;" = None /\
  search_record "AllSat: 0<=p<=1,0<=q<=1" = None.
Proof. vm_compute. repeat split. Qed.

Example fraction_examples :
  Fraction "6/4" = Ok (3 # 2) /\ Fraction "7" = Ok (7 # 1) /\
  Fraction "1/0" = Raise ZeroDivisionError /\ Fraction "" = Raise ValueError /\
  Fraction "/" = Raise ValueError /\ Fraction "1/2/3" = Raise ValueError /\
  Fraction "1/" = Raise ValueError.
Proof. vm_compute. repeat split. Qed.

End Examples.

(** * Properties of the conversion *)

Import Float FloatFacts ParserFacts TextFacts LoopFacts.

(** ** Bounds *)

(** C1. For every non-empty sequence of parsed records the bounds are
    computed field by field: when the loop has gone through the lines,
    [x_min] is a least value among the [x0] fields of the records, [x_max]
    a greatest value among the [x1] fields, [y_min] a least value among the
    [y0] fields and [y_max] a greatest value among the [y1] fields, in the
    order of the exact values.  An upper-bound field never enters a minimum
    and a lower-bound field never enters a maximum. *)
Theorem bounds_are_field_extrema
    (args : Args) (graph_styles : gmap string string)
    (lines : list string) (recs : list record) :
  parse_records 0 lines = Ok recs ->
  recs <> [] ->
  (forall r, In r recs -> graph_styles !! state r <> None) ->
  exists st a b c d,
    loop args graph_styles initial_state 0 lines = Ok st /\
    x_min st = Some a /\ x_max st = Some b /\
    y_min st = Some c /\ y_max st = Some d /\
    is_minimum a (map x0 recs) /\ is_maximum b (map x1 recs) /\
    is_minimum c (map y0 recs) /\ is_maximum d (map y1 recs).
Proof.
  intros Hrecs Hne Hst.
  destruct (loop_total args graph_styles lines 0 initial_state recs Hrecs Hst)
    as [st Hloop].
  assert (Hb0 : bounds_of initial_state []) by (repeat split).
  destruct (loop_records args graph_styles lines 0 initial_state st [] Hloop Hb0
              (Forall_nil _)) as (recs' & Hrecs' & (H1 & H2 & H3 & H4) & _).
  rewrite Hrecs in Hrecs'. injection Hrecs' as <-. simpl in *.
  destruct (acc_min_some _ _ (map_not_nil x0 recs Hne) H1) as (a & Ha & Ma).
  destruct (acc_max_some _ _ (map_not_nil x1 recs Hne) H2) as (b & Hb & Mb).
  destruct (acc_min_some _ _ (map_not_nil y0 recs Hne) H3) as (c & Hc & Mc).
  destruct (acc_max_some _ _ (map_not_nil y1 recs Hne) H4) as (d & Hd & Md).
  exists st, a, b, c, d.
  repeat split; assumption || apply Ma || apply Mb || apply Mc || apply Md.
Qed.

Lemma bounds_are_field_extrema_witness :
  exists recs,
    (parse_records 0 (readlines two_regions) = Ok recs /\
     recs <> [] /\
     (forall r, In r recs -> default_styles !! state r <> None)) /\
    exists st a b c d,
      loop args_default default_styles initial_state 0 (readlines two_regions) = Ok st /\
      x_min st = Some a /\ x_max st = Some b /\
      y_min st = Some c /\ y_max st = Some d /\
      is_minimum a (map x0 recs) /\ is_maximum b (map x1 recs) /\
      is_minimum c (map y0 recs) /\ is_maximum d (map y1 recs).
Proof.
  assert (Hrecs : { recs | parse_records 0 (readlines two_regions) = Ok recs /\ recs <> [] /\
                           Forall (fun r => default_styles !! state r <> None) recs })
    by (eexists; split; [vm_compute; reflexivity |];
        split; [discriminate | repeat constructor; vm_compute; discriminate]).
  destruct Hrecs as [recs (Hrecs & Hne & Hst)]. exists recs.
  pose proof (proj1 (Forall_forall _ _) Hst) as Hst'.
  split; [exact (conj Hrecs (conj Hne Hst')) |].
  exact (bounds_are_field_extrema args_default default_styles _ recs Hrecs Hne Hst').
Defined.

(** The bounds are not the extrema of all four coordinates: a record whose
    x0 (here 2) is above its x1 (here 1) gives an [x_min] above [x_max]. *)
Example bounds_of_a_reversed_record :
  exists st,
    loop args_default default_styles initial_state 0
      (readlines ("AllSat: 2<=p<=1,0<=q<=1;" ++ nl)) = Ok st /\
    x_min st = Some (S754_finite false 4503599627370496 (-51)) /\
    x_max st = Some (S754_finite false 4503599627370496 (-52)).
Proof. eexists. split; [vm_compute; reflexivity | split; vm_compute; reflexivity]. Qed.

(** ** Tick distances *)

(** C2.  For every non-empty record sequence, every positive
    split count below [2^1024 - 2^970] and every positive rounding-digit
    count, a document is produced, the tick distance written in its header
    for each axis is [round((max - min) / split_count, rounding_digits)],
    computed for each axis on its own, and it is written with exactly two
    digits after the point, whatever the rounding digits: the chunks after
    "xtick distance=" and "ytick distance=" are the [.2f] texts of those two
    values, each a sign, digits, a point and two digits.  From
    [2^1024 - 2^970] on, the split count has no float and the division
    raises [OverflowError], see [huge_split_overflows]. *)
Theorem tick_distance_in_header
    (args : Args) (graph_styles : gmap string string)
    (lines : list string) (name : string) (recs : list record) :
  parse_records 0 lines = Ok recs ->
  recs <> [] ->
  (forall r, In r recs -> graph_styles !! state r <> None) ->
  0 < x_split args < 2 ^ 1024 - 2 ^ 970 ->
  0 < y_split args < 2 ^ 1024 - 2 ^ 970 ->
  0 < x_split_rounding args -> 0 < y_split_rounding args ->
  exists doc st xmin xmax ymin ymax fx fy xt yt,
    generate_output_for_lines args graph_styles lines name = Ok doc /\
    loop args graph_styles initial_state 0 lines = Ok st /\
    x_min st = Some xmin /\ x_max st = Some xmax /\
    y_min st = Some ymin /\ y_max st = Some ymax /\
    of_int (x_split args) = Ok fx /\ of_int (y_split args) = Ok fy /\
    round (div (sub xmax xmin) fx) (x_split_rounding args) = Ok xt /\
    round (div (sub ymax ymin) fy) (y_split_rounding args) = Ok yt /\
    nth_error doc 8 = Some (Text ("," ++ nl ++ "xtick distance=")) /\
    nth_error doc 9 = Some (Text (format_f 2 xt)) /\
    nth_error doc 10 = Some (Text ("," ++ nl ++ "ytick distance=")) /\
    nth_error doc 11 = Some (Text (format_f 2 yt)) /\
    two_decimals (format_f 2 xt) /\ two_decimals (format_f 2 yt).
Proof.
  intros Hrecs Hne Hst Hxs Hys Hxr Hyr.
  destruct (loop_total args graph_styles lines 0 initial_state recs Hrecs Hst)
    as [st Hloop].
  pose proof (loop_axes args graph_styles lines 0 initial_state st recs Hloop Hrecs
                (or_introl Hne)) as Hax.
  destruct (loop_accumulators args graph_styles lines st Hloop)
    as (recs' & Hrecs' & Hg & Hacc).
  rewrite Hrecs in Hrecs'. injection Hrecs' as <-.
  destruct Hacc as [[-> _] | [_ (a & b & c & d & Ha & Hb & Hc & Hd & Ia & Ib & Ic & Id)]];
    [congruence |].
  destruct (in_map_record_good x0 recs a Hg Ia) as (ra & -> & (Ga & _)).
  destruct (in_map_record_good x1 recs b Hg Ib) as (rb & -> & (_ & Gb & _)).
  destruct (in_map_record_good y0 recs c Hg Ic) as (rc & -> & (_ & _ & Gc & _)).
  destruct (in_map_record_good y1 recs d Hg Id) as (rd & -> & (_ & _ & _ & Gd)).
  destruct (of_int_in_range (x_split args) ltac:(lia)) as [fx Hfx].
  destruct (of_int_in_range (y_split args) ltac:(lia)) as [fy Hfy].
  destruct (of_int_good _ _ Hfx) as [Gfx Mfx].
  destruct (of_int_good _ _ Hfy) as [Gfy Mfy].
  specialize (Mfx ltac:(lia)). specialize (Mfy ltac:(lia)).
  pose proof (div_good _ _ (sub_good _ _ (proj1 Gb) (proj1 Ga) (proj2 Gb) (proj2 Ga))
                Gfx Mfx) as Gdx.
  pose proof (div_good _ _ (sub_good _ _ (proj1 Gd) (proj1 Gc) (proj2 Gd) (proj2 Gc))
                Gfy Mfy) as Gdy.
  destruct (round_ok _ (x_split_rounding args) Gdx ltac:(lia)) as [xt Hxt].
  destruct (round_ok _ (y_split_rounding args) Gdy ltac:(lia)) as [yt Hyt].
  pose proof (round_good _ _ _ Gdx Hxt) as Gxt.
  pose proof (round_good _ _ _ Gdy Hyt) as Gyt.
  assert (Zx : is_zero fx = false).
  { destruct fx; try reflexivity. cbn [F2Z] in Mfx.
    pose proof (pow2_pos 1074 ltac:(lia)). lia. }
  assert (Zy : is_zero fy = false).
  { destruct fy; try reflexivity. cbn [F2Z] in Mfy.
    pose proof (pow2_pos 1074 ltac:(lia)). lia. }
  destruct (axes st) as [[xa ya] |] eqn:Eax; [| congruence].
  eexists _, st, (x0 ra), (x1 rb), (y0 rc), (y1 rd), fx, fy, xt, yt.
  split.
  { unfold generate_output_for_lines. rewrite Hloop. cbn [bind].
    rewrite Ha, Hb, Hc, Hd, Eax. cbn [get_span bind].
    unfold tick_distance, truediv_int.
    rewrite Hfx, Hfy. cbn [bind]. rewrite Zx, Zy. cbn [bind].
    rewrite Hxt, Hyt. cbn [bind]. reflexivity. }
  repeat match goal with |- _ /\ _ => split end;
    try assumption; try reflexivity.
  - apply format_2f_shape. apply Gxt.
  - apply format_2f_shape. apply Gyt.
Qed.

Lemma tick_distance_in_header_witness :
  exists recs,
    (parse_records 0 (readlines two_regions) = Ok recs /\
     recs <> [] /\
     (forall r, In r recs -> default_styles !! state r <> None) /\
     0 < x_split args_default < 2 ^ 1024 - 2 ^ 970 /\
     0 < y_split args_default < 2 ^ 1024 - 2 ^ 970 /\
     0 < x_split_rounding args_default /\ 0 < y_split_rounding args_default) /\
    exists doc st xmin xmax ymin ymax fx fy xt yt,
      generate_output_for_lines args_default default_styles (readlines two_regions)
        "in/run_1.regionresult" = Ok doc /\
      loop args_default default_styles initial_state 0 (readlines two_regions) = Ok st /\
      x_min st = Some xmin /\ x_max st = Some xmax /\
      y_min st = Some ymin /\ y_max st = Some ymax /\
      of_int (x_split args_default) = Ok fx /\ of_int (y_split args_default) = Ok fy /\
      round (div (sub xmax xmin) fx) (x_split_rounding args_default) = Ok xt /\
      round (div (sub ymax ymin) fy) (y_split_rounding args_default) = Ok yt /\
      nth_error doc 8 = Some (Text ("," ++ nl ++ "xtick distance=")) /\
      nth_error doc 9 = Some (Text (format_f 2 xt)) /\
      nth_error doc 10 = Some (Text ("," ++ nl ++ "ytick distance=")) /\
      nth_error doc 11 = Some (Text (format_f 2 yt)) /\
      two_decimals (format_f 2 xt) /\ two_decimals (format_f 2 yt).
Proof.
  assert (Hrecs : { recs | parse_records 0 (readlines two_regions) = Ok recs /\ recs <> [] /\
                           Forall (fun r => default_styles !! state r <> None) recs })
    by (eexists; split; [vm_compute; reflexivity |];
        split; [discriminate | repeat constructor; vm_compute; discriminate]).
  destruct Hrecs as [recs (Hrecs & Hne & Hst)]. exists recs.
  pose proof (proj1 (Forall_forall _ _) Hst) as Hst'.
  assert (Px : 0 < x_split args_default < 2 ^ 1024 - 2 ^ 970) by (split; reflexivity).
  assert (Py : 0 < y_split args_default < 2 ^ 1024 - 2 ^ 970) by (split; reflexivity).
  assert (Rx : 0 < x_split_rounding args_default) by reflexivity.
  assert (Ry : 0 < y_split_rounding args_default) by reflexivity.
  split; [exact (conj Hrecs (conj Hne (conj Hst' (conj Px (conj Py (conj Rx Ry)))))) |].
  exact (tick_distance_in_header args_default default_styles _ "in/run_1.regionresult"
           recs Hrecs Hne Hst' Px Py Rx Ry).
Defined.

(** A split count of [2^1024] is positive and gives no document. *)
Lemma huge_split_overflows :
  0 < x_split (mkArgs (Int 0) (2 ^ 1024) 5 1 1 false) /\
  0 < y_split (mkArgs (Int 0) (2 ^ 1024) 5 1 1 false) /\
  0 < x_split_rounding (mkArgs (Int 0) (2 ^ 1024) 5 1 1 false) /\
  0 < y_split_rounding (mkArgs (Int 0) (2 ^ 1024) 5 1 1 false) /\
  (exists recs, parse_records 0 (readlines one_region) = Ok recs /\ recs <> []) /\
  generate_output_for_lines (mkArgs (Int 0) (2 ^ 1024) 5 1 1 false) default_styles
    (readlines one_region) "in.regionresult" = Raise OverflowError.
Proof.
  split; [reflexivity |]. split; [reflexivity |].
  split; [reflexivity |]. split; [reflexivity |]. split.
  - eexists. split; [vm_compute; reflexivity | discriminate].
  - vm_compute. reflexivity.
Qed.

(** The two examples of the specification: bounds 0 and 1 split in 5 and
    rounded to 1 digit give the tick "0.20"; one record with x from 0 to 2
    and y from 0 to 4, split 1 and 2 rounding digits, gives "2.00" and
    "4.00" and one draw command. *)
Example tick_of_unit_span :
  tick_distance (sub (round_ratio false 1 1) (round_ratio false 0 1)) 5 1
  = Ok (S754_finite false 7205759403792794 (-55)) /\
  format_f 2 (S754_finite false 7205759403792794 (-55)) = "0.20"%string.
Proof. split; vm_compute; reflexivity. Qed.

Example ticks_of_one_record :
  exists doc,
    generate_output_for_input_file (mkArgs (Int 0) 1 1 2 2 false) default_styles
      ("AllSat: 0<=p<=2,0<=q<=4;" ++ nl) "one.regionresult" = Ok doc /\
    nth_error doc 9 = Some (Text "2.00") /\
    nth_error doc 11 = Some (Text "4.00") /\
    List.length (List.filter (fun c => match c with
                                       | Text t => String.eqb t "\draw ["
                                       | Repr _ => false
                                       end) doc) = 1%nat.
Proof.
  eexists. split; [vm_compute; reflexivity |].
  split; [reflexivity |]. split; reflexivity.
Qed.

(** ** Lines that are not records *)

(** C3.  The first line on which the search of the pattern fails
    and which is neither empty nor a bare newline, every line before it
    having gone through the loop, makes the conversion raise the format
    error that reports the 0-based index of that line; no document is
    produced.  (The pattern is searched anywhere in the line, and a bound
    of the pattern is any run of digits and "/".)  The property does not
    extend to every line without a match: the conversion stops at the first
    line that raises, see [format_error_reports_first_line]. *)
Theorem format_error_at_first_unmatched_line
    (args : Args) (graph_styles : gmap string string)
    (before : list string) (line : string) (after : list string)
    (name : string) (st : loop_state) :
  loop args graph_styles initial_state 0 before = Ok st ->
  search_record line = None ->
  line <> ""%string -> line <> nl ->
  generate_output_for_lines args graph_styles (before ++ line :: after) name
  = Raise (format_error (List.length before)).
Proof.
  intros Hb Hs Hne _. apply generate_loop_failure.
  apply loop_first_failure with (st := st); [exact Hb |].
  unfold loop_body, line_record. rewrite Hs.
  destruct (String.eqb_spec line ""); [contradiction | reflexivity].
Qed.

Lemma format_error_at_first_unmatched_line_witness :
  exists st,
    loop args_default default_styles initial_state 0 [one_region] = Ok st /\
    search_record "garbage text" = None /\
    "garbage text"%string <> ""%string /\ "garbage text"%string <> nl /\
    generate_output_for_lines args_default default_styles
      ([one_region] ++ "garbage text"%string :: [one_region]) "in.regionresult"
    = Raise (UnexpectedFormatException "File line 1 is not in expected format").
Proof.
  assert (H : { st | loop args_default default_styles initial_state 0 [one_region] = Ok st })
    by (eexists; vm_compute; reflexivity).
  destruct H as [st H]. exists st.
  assert (Hs : search_record "garbage text" = None) by (vm_compute; reflexivity).
  assert (H1 : "garbage text"%string <> ""%string) by discriminate.
  assert (H2 : "garbage text"%string <> nl) by discriminate.
  split; [exact H |]. split; [exact Hs |]. split; [exact H1 |]. split; [exact H2 |].
  exact (format_error_at_first_unmatched_line args_default default_styles
           [one_region] "garbage text" [one_region] "in.regionresult" st H Hs H1 H2).
Defined.

(** The second line of this file is not empty and has no match, and the
    error does not report its index, 1: it reports the first line. *)
Lemma format_error_reports_first_line :
  nth_error (readlines ("garbage" ++ nl ++ "junk" ++ nl)) 1 = Some ("junk" ++ nl)%string /\
  search_record ("junk" ++ nl) = None /\
  ("junk" ++ nl)%string <> ""%string /\
  generate_output_for_input_file args_default default_styles
    ("garbage" ++ nl ++ "junk" ++ nl) "in.regionresult"
  = Raise (UnexpectedFormatException "File line 0 is not in expected format") /\
  generate_output_for_input_file args_default default_styles
    ("garbage" ++ nl ++ "junk" ++ nl) "in.regionresult"
  <> Raise (format_error 1).
Proof.
  split; [reflexivity |]. split; [vm_compute; reflexivity |].
  split; [discriminate |]. split; [vm_compute; reflexivity |].
  vm_compute. discriminate.
Qed.

(** Whatever the place of a line without a match, no document is
    produced. *)
Lemma unmatched_line_no_document
    (args : Args) (graph_styles : gmap string string)
    (lines : list string) (line : string) (name : string) (doc : list chunk) :
  In line lines -> search_record line = None -> line <> ""%string ->
  generate_output_for_lines args graph_styles lines name <> Ok doc.
Proof.
  intros Hin Hs Hne H.
  destruct (generate_ok_loop _ _ _ _ _ H) as [st Hloop].
  apply In_nth_error in Hin. destruct Hin as [i Hi].
  destruct (loop_ok_lines _ _ _ _ _ _ Hloop i line Hi) as (s1 & s2 & Hb).
  unfold loop_body, line_record in Hb. rewrite Hs in Hb.
  destruct (String.eqb_spec line ""); [contradiction | discriminate].
Qed.

(** A line whose pattern matches is not a format error even when a bound
    is no number: an empty bound is a [ValueError]. *)
Example empty_bound_is_value_error :
  generate_output_for_input_file args_default default_styles
    ("AllSat: <=p<=1,0<=q<=1;" ++ nl) "in.regionresult" = Raise ValueError.
Proof. vm_compute. reflexivity. Qed.

(** C4.  An empty line is not skipped: the code raises on it.
    A line of a text file keeps its newline, so the empty line of the file
    is the string of one newline, which has no match and is not the empty
    string: the second line of this file is a format error, and the same
    file without that line is converted. *)
Theorem blank_line_is_format_error :
  generate_output_for_input_file args_default default_styles
    (one_region ++ nl ++ one_region) "in.regionresult"
  = Raise (UnexpectedFormatException "File line 1 is not in expected format") /\
  exists doc,
    generate_output_for_input_file args_default default_styles
      (one_region ++ one_region) "in.regionresult" = Ok doc.
Proof.
  split; [vm_compute; reflexivity |]. eexists. vm_compute. reflexivity.
Qed.

(** No text with an empty line is converted. *)
Lemma blank_line_no_document
    (args : Args) (graph_styles : gmap string string)
    (text name : string) (doc : list chunk) :
  In nl (readlines text) ->
  generate_output_for_input_file args graph_styles text name <> Ok doc.
Proof.
  intros Hin. apply (unmatched_line_no_document _ _ _ nl); [exact Hin | reflexivity | discriminate].
Qed.

(** ** Split counts *)

(** C5.  A split count of zero always ends in an error and never
    in a document: the error is the [ZeroDivisionError] of the tick
    distance, unless an earlier step has raised (a line of the loop, the
    spans of an input without records, or an overflow in the tick distance
    of the x axis, which is computed first).  A negative split count is not
    rejected by the core: the positive-integer check is in the argument
    parser only, see [negative_split_produces_document]. *)
Theorem zero_split_raises
    (args : Args) (graph_styles : gmap string string)
    (lines : list string) (name : string) :
  x_split args = 0 \/ y_split args = 0 ->
  exists e,
    generate_output_for_lines args graph_styles lines name = Raise e /\
    (e = ZeroDivisionError \/
     loop args graph_styles initial_state 0 lines = Raise e \/
     (e = TypeError /\ parse_records 0 lines = Ok []) \/
     (e = OverflowError /\ x_split args <> 0)).
Proof.
  intros Hz. unfold generate_output_for_lines.
  destruct (loop args graph_styles initial_state 0 lines) as [st | e] eqn:Hloop;
    cbn [bind]; [| exists e; auto].
  destruct (loop_accumulators args graph_styles lines st Hloop)
    as (recs & Hrecs & _ & [[-> ->] | [_ (a & b & c & d & Ha & Hb & Hc & Hd & _)]]).
  - exists TypeError. split; [reflexivity |]. right; right; left. split; [reflexivity | exact Hrecs].
  - rewrite Ha, Hb, Hc, Hd. cbn [get_span bind].
    destruct (tick_distance (sub b a) (x_split args) (x_split_rounding args))
      as [xt | e] eqn:Hx; cbn [bind].
    + destruct Hz as [Hz | Hz].
      * rewrite Hz in Hx. rewrite tick_distance_zero in Hx. discriminate.
      * rewrite Hz, tick_distance_zero. cbn [bind]. exists ZeroDivisionError. auto.
    + exists e. split; [reflexivity |].
      destruct (tick_distance_error _ _ _ _ Hx) as [[_ ->] | [Hn ->]]; auto.
Qed.

Lemma zero_split_raises_witness :
  (x_split (mkArgs (Int 0) 0 5 1 1 false) = 0 \/ y_split (mkArgs (Int 0) 0 5 1 1 false) = 0) /\
  exists e,
    generate_output_for_lines (mkArgs (Int 0) 0 5 1 1 false) default_styles
      (readlines one_region) "in.regionresult" = Raise e /\
    (e = ZeroDivisionError \/
     loop (mkArgs (Int 0) 0 5 1 1 false) default_styles initial_state 0
       (readlines one_region) = Raise e \/
     (e = TypeError /\ parse_records 0 (readlines one_region) = Ok []) \/
     (e = OverflowError /\ x_split (mkArgs (Int 0) 0 5 1 1 false) <> 0)).
Proof.
  assert (Hz : x_split (mkArgs (Int 0) 0 5 1 1 false) = 0 \/
               y_split (mkArgs (Int 0) 0 5 1 1 false) = 0) by (left; reflexivity).
  split; [exact Hz |].
  exact (zero_split_raises (mkArgs (Int 0) 0 5 1 1 false) default_styles
           (readlines one_region) "in.regionresult" Hz).
Defined.

(** The example of a zero split count ends in [ZeroDivisionError]. *)
Example zero_split_example :
  generate_output_for_lines (mkArgs (Int 0) 0 5 1 1 false) default_styles
    (readlines one_region) "in.regionresult" = Raise ZeroDivisionError /\
  generate_output_for_lines (mkArgs (Int 0) 5 0 1 1 false) default_styles
    (readlines one_region) "in.regionresult" = Raise ZeroDivisionError.
Proof. split; vm_compute; reflexivity. Qed.

(** With a split count of -5 a document is produced, its x tick distance
    negative. *)
Lemma negative_split_produces_document :
  x_split (mkArgs (Int 0) (-5) 5 1 1 false) < 0 /\
  exists doc,
    generate_output_for_input_file (mkArgs (Int 0) (-5) 5 1 1 false) default_styles
      one_region "in.regionresult" = Ok doc /\
    nth_error doc 9 = Some (Text "-0.20").
Proof.
  split; [reflexivity |]. eexists. split; [vm_compute; reflexivity | reflexivity].
Qed.

(** ** Bounds as fractions *)

(** C6.  A bound written a/b, with a and b strings of digits that
    [int] converts (each of at most [int_max_str_digits] = 4300 digits,
    which is what [parse_digits] accepts) and b not zero, whose value is
    below [2^1024 - 2^970] (where rounding reaches past the largest float)
    parses to a float of the format that no other float of the format is
    closer to a/b than.  Above that value [s2f] raises [OverflowError] and
    there is no parsed value, see [fraction_overflow]; with more digits in
    a or in b it raises [ValueError], whatever the value. *)
Theorem s2f_fraction_nearest (sa sb : string) (a b : Z) :
  parse_digits sa = Some a -> parse_digits sb = Some b ->
  0 < b -> a < (2 ^ 1024 - 2 ^ 970) * b ->
  exists f, s2f (sa ++ "/" ++ sb) = Ok f /\ nearest_float f (a # Z.to_pos b).
Proof.
  intros Ha Hb Hpos Hrange.
  pose proof (parse_digits_nonneg _ _ Ha) as Ha0.
  unfold s2f. rewrite (Fraction_of_digits sa sb a b Ha Hb).
  destruct (Z.eqb_spec b 0) as [? | _]; [lia |]. cbn [bind].
  pose proof (Qred_correct (a # Z.to_pos b)) as Eq.
  set (q' := Qred (a # Z.to_pos b)) in *.
  assert (Hn : 0 <= Qnum q') by (apply Qred_nonneg; exact Ha0).
  assert (Hr : Qnum q' < (2 ^ 1024 - 2 ^ 970) * Zpos (Qden q')).
  { unfold Qeq in Eq. cbn [Qnum Qden] in Eq. rewrite Z2Pos.id in Eq by exact Hpos.
    set (T := 2 ^ 1024 - 2 ^ 970) in *. nia. }
  unfold float_of_Fraction.
  replace (Qnum q' <? 0) with false by (symmetry; apply Z.ltb_ge; exact Hn).
  rewrite (Z.abs_eq _ Hn).
  pose proof (round_ratio_in_range false _ _ Hn (Pos2Z.is_pos (Qden q')) Hr) as Hfin.
  pose proof (round_ratio_valid false _ _ Hn (Pos2Z.is_pos (Qden q'))) as Hval.
  exists (round_ratio false (Qnum q') (Zpos (Qden q'))). split.
  - destruct (round_ratio false (Qnum q') (Zpos (Qden q'))); try discriminate; reflexivity.
  - split; [split; assumption |].
    intros g [Vg Fg].
    pose proof (round_ratio_nearest (Qnum q') (Qden q') Hn Hfin g Vg Fg) as H.
    rewrite (Q_eta q') in H.
    set (r := round_ratio false (Qnum q') (Zpos (Qden q'))) in *.
    clearbody r. rewrite Eq in H. exact H.
Qed.

Lemma s2f_fraction_nearest_witness :
  (parse_digits "5001" = Some 5001 /\ parse_digits "20000" = Some 20000 /\
   0 < 20000 /\ 5001 < (2 ^ 1024 - 2 ^ 970) * 20000) /\
  exists f, s2f "5001/20000" = Ok f /\ nearest_float f (5001 # 20000).
Proof.
  assert (H1 : parse_digits "5001" = Some 5001) by reflexivity.
  assert (H2 : parse_digits "20000" = Some 20000) by reflexivity.
  assert (H3 : 0 < 20000) by reflexivity.
  assert (H4 : 5001 < (2 ^ 1024 - 2 ^ 970) * 20000) by (vm_compute; reflexivity).
  split; [exact (conj H1 (conj H2 (conj H3 H4))) |].
  exact (s2f_fraction_nearest "5001" "20000" 5001 20000 H1 H2 H3 H4).
Defined.

(** The float of "5001/20000", bit for bit; it is also the float of the
    decimal literal 0.25005, the two rationals being equal. *)
Example s2f_5001_20000 :
  s2f "5001/20000" = Ok (S754_finite false 4504500347295970 (-54)) /\
  round_ratio false 25005 100000 = S754_finite false 4504500347295970 (-54).
Proof. split; vm_compute; reflexivity. Qed.

(** The bound [2^1024]/1 has a positive denominator and no parsed
    value. *)
Lemma fraction_overflow :
  parse_digits digits_of_2_pow_1024 = Some (2 ^ 1024) /\
  parse_digits "1" = Some 1 /\
  s2f (digits_of_2_pow_1024 ++ "/" ++ "1") = Raise OverflowError /\
  ~ exists f, s2f (digits_of_2_pow_1024 ++ "/" ++ "1") = Ok f /\
              nearest_float f (2 ^ 1024 # 1).
Proof.
  assert (E : s2f (digits_of_2_pow_1024 ++ "/" ++ "1") = Raise OverflowError)
    by (vm_compute; reflexivity).
  split; [vm_compute; reflexivity |]. split; [reflexivity |]. split; [exact E |].
  intros (f & Hf & _). rewrite E in Hf. discriminate.
Qed.

(** ** States without a style *)

(** C7.  A line on which the pattern matches, whose four bounds
    convert and whose state label is no key of the style map raises the
    unknown-state error that names the label, when every line before it has
    gone through the loop; no document is produced.  The property does not
    extend to every matching line: the bounds are converted before the
    style is looked up, see [unknown_state_after_bad_bound]. *)
Theorem unknown_state_raises
    (args : Args) (graph_styles : gmap string string)
    (before : list string) (line : string) (after : list string)
    (name : string) (st : loop_state) (g : groups) (a b c d : spec_float) :
  loop args graph_styles initial_state 0 before = Ok st ->
  search_record line = Some g ->
  s2f (g_x0 g) = Ok a -> s2f (g_x1 g) = Ok b ->
  s2f (g_y0 g) = Ok c -> s2f (g_y1 g) = Ok d ->
  graph_styles !! g_state g = None ->
  generate_output_for_lines args graph_styles (before ++ line :: after) name
  = Raise (UnknownStateException ("Unknown state: " ++ g_state g)).
Proof.
  intros Hb Hs Ha Hb' Hc Hd Hst. apply generate_loop_failure.
  apply loop_first_failure with (st := st); [exact Hb |].
  unfold loop_body, line_record. rewrite Hs, Ha, Hb', Hc, Hd. cbn [bind].
  unfold add_record. cbn [state]. rewrite Hst. reflexivity.
Qed.

Lemma unknown_state_raises_witness :
  exists a b c d,
    loop args_default default_styles initial_state 0 [] = Ok initial_state /\
    search_record "Foo: 0<=p<=1,0<=q<=1;" = Some (mkGroups "Foo" "0" "p" "1" "0" "q" "1") /\
    s2f "0" = Ok a /\ s2f "1" = Ok b /\ s2f "0" = Ok c /\ s2f "1" = Ok d /\
    default_styles !! "Foo"%string = None /\
    generate_output_for_lines args_default default_styles
      ([] ++ "Foo: 0<=p<=1,0<=q<=1;"%string :: []) "in.regionresult"
    = Raise (UnknownStateException "Unknown state: Foo").
Proof.
  assert (H0 : { a | s2f "0" = Ok a }) by (eexists; vm_compute; reflexivity).
  assert (H1 : { b | s2f "1" = Ok b }) by (eexists; vm_compute; reflexivity).
  destruct H0 as [a H0]. destruct H1 as [b H1].
  assert (Hl : loop args_default default_styles initial_state 0 [] = Ok initial_state)
    by reflexivity.
  assert (Hs : search_record "Foo: 0<=p<=1,0<=q<=1;"
               = Some (mkGroups "Foo" "0" "p" "1" "0" "q" "1")) by (vm_compute; reflexivity).
  assert (Hk : default_styles !! "Foo"%string = None) by (vm_compute; reflexivity).
  exists a, b, a, b.
  split; [exact Hl |]. split; [exact Hs |].
  split; [exact H0 |]. split; [exact H1 |]. split; [exact H0 |]. split; [exact H1 |].
  split; [exact Hk |].
  exact (unknown_state_raises args_default default_styles [] "Foo: 0<=p<=1,0<=q<=1;" []
           "in.regionresult" initial_state (mkGroups "Foo" "0" "p" "1" "0" "q" "1")
           a b a b Hl Hs H0 H1 H0 H1 Hk).
Defined.

(** The pattern matches this line and its state label has no style, and
    the error is not the unknown-state error: the bound 1/0 raises first. *)
Lemma unknown_state_after_bad_bound :
  search_record ("Foo: 0<=p<=1/0,0<=q<=1;" ++ nl)
  = Some (mkGroups "Foo" "0" "p" "1/0" "0" "q" "1") /\
  default_styles !! "Foo"%string = None /\
  generate_output_for_input_file args_default default_styles
    ("Foo: 0<=p<=1/0,0<=q<=1;" ++ nl) "in.regionresult" = Raise ZeroDivisionError /\
  generate_output_for_input_file args_default default_styles
    ("Foo: 0<=p<=1/0,0<=q<=1;" ++ nl) "in.regionresult"
  <> Raise (UnknownStateException "Unknown state: Foo").
Proof.
  split; [vm_compute; reflexivity |]. split; [vm_compute; reflexivity |].
  split; [vm_compute; reflexivity |]. vm_compute. discriminate.
Qed.

(** Whatever the place of a line with a state that has no style, and
    whatever its bounds, no document is produced. *)
Lemma unknown_state_no_document
    (args : Args) (graph_styles : gmap string string)
    (lines : list string) (line : string) (g : groups) (name : string)
    (doc : list chunk) :
  In line lines -> search_record line = Some g ->
  graph_styles !! g_state g = None ->
  generate_output_for_lines args graph_styles lines name <> Ok doc.
Proof.
  intros Hin Hs Hst H.
  destruct (generate_ok_loop _ _ _ _ _ H) as [st Hloop].
  apply In_nth_error in Hin. destruct Hin as [i Hi].
  destruct (loop_ok_lines _ _ _ _ _ _ Hloop i line Hi) as (s1 & s2 & Hb).
  unfold loop_body, line_record in Hb. rewrite Hs in Hb.
  destruct (s2f (g_x0 g)); [| discriminate].
  destruct (s2f (g_x1 g)); [| discriminate].
  destruct (s2f (g_y0 g)); [| discriminate].
  destruct (s2f (g_y1 g)); [| discriminate].
  cbn [bind] in Hb. unfold add_record in Hb. cbn [state] in Hb.
  rewrite Hst in Hb. discriminate.
Qed.

(** ** Titles *)

(** C8.  In a document that is produced, the title between "title={" and
    "}" is empty when titles are suppressed, and otherwise the stem of the
    input file name (the base name without its extension, see
    [stem_strips_extension]) with every underscore prefixed with a
    backslash. *)
Theorem rendered_title
    (args : Args) (graph_styles : gmap string string)
    (lines : list string) (name : string) (doc : list chunk) :
  generate_output_for_lines args graph_styles lines name = Ok doc ->
  nth_error doc 16 = Some (Text ("," ++ nl ++ "title={")) /\
  nth_error doc 17 =
    Some (Text (if no_title args then "" else escape_underscores (Path.stem name))) /\
  nth_error doc 18 = Some (Text ("}" ++ nl ++ "]" ++ nl)).
Proof.
  unfold generate_output_for_lines. intros H.
  apply bind_ok in H. destruct H as (st & _ & H).
  apply bind_ok in H. destruct H as (xs & _ & H).
  apply bind_ok in H. destruct H as (ys & _ & H).
  apply bind_ok in H. destruct H as (xt & _ & H).
  apply bind_ok in H. destruct H as (yt & _ & H).
  destruct (x_min st), (x_max st), (y_min st), (y_max st); try discriminate.
  destruct (axes st) as [[xa ya] |]; [| discriminate]. injection H as <-.
  unfold title_for. rewrite latex_safe_text_escapes.
  repeat split.
Qed.

(** The file "run_1" of the specification, titles enabled. *)
Lemma rendered_title_witness :
  exists doc,
    generate_output_for_lines args_default default_styles (readlines one_region)
      "in/run_1.regionresult" = Ok doc /\
    nth_error doc 16 = Some (Text ("," ++ nl ++ "title={")) /\
    nth_error doc 17 = Some (Text "run\_1") /\
    nth_error doc 18 = Some (Text ("}" ++ nl ++ "]" ++ nl)).
Proof.
  assert (H : { doc | generate_output_for_lines args_default default_styles
                        (readlines one_region) "in/run_1.regionresult" = Ok doc })
    by (eexists; vm_compute; reflexivity).
  destruct H as [doc H]. exists doc. split; [exact H |].
  exact (rendered_title _ _ _ _ _ H).
Defined.

(** Titles suppressed, and the title as a function of the name alone. *)
Example title_examples :
  title_for (mkArgs (Int 0) 5 5 1 1 true) "in/run_1.regionresult" = ""%string /\
  title_for args_default "run_1" = "run\_1"%string /\
  title_for args_default "in/run_1.regionresult" = "run\_1"%string /\
  title_for args_default "a_b/c__d.tar.gz" = "c\_\_d.tar"%string.
Proof. repeat split. Qed.

(** ** Inputs without records *)

(** C9.  When no record is parsed from the lines (as for an empty file),
    the accumulators of the bounds are still [None] after the loop, the
    computation of the spans raises [TypeError] and no document is
    returned. *)
Theorem no_records_type_error
    (args : Args) (graph_styles : gmap string string)
    (lines : list string) (name : string) :
  parse_records 0 lines = Ok [] ->
  generate_output_for_lines args graph_styles lines name = Raise TypeError.
Proof.
  intros H. unfold generate_output_for_lines.
  rewrite (parse_records_nil_loop args graph_styles lines 0 initial_state H).
  reflexivity.
Qed.

Lemma no_records_type_error_witness :
  parse_records 0 (readlines "") = Ok [] /\
  generate_output_for_lines args_default default_styles (readlines "") "empty.regionresult"
  = Raise TypeError.
Proof.
  assert (H : parse_records 0 (readlines "") = Ok []) by reflexivity.
  split; [exact H |].
  exact (no_records_type_error args_default default_styles (readlines "")
           "empty.regionresult" H).
Defined.

(** The empty file is the only text without records and without error. *)
Lemma no_records_empty_file (text : string) :
  parse_records 0 (readlines text) = Ok [] -> text = ""%string.
Proof.
  intros H.
  assert (Hl : readlines text = []).
  { destruct (readlines text) as [| line rest] eqn:E; [reflexivity | exfalso].
    pose proof (readlines_nonempty text line ltac:(rewrite E; left; reflexivity)) as Hne.
    cbn [parse_records] in H. unfold line_record at 1 in H.
    destruct (search_record line) as [g |].
    - destruct (s2f (g_x0 g)); [| discriminate].
      destruct (s2f (g_x1 g)); [| discriminate].
      destruct (s2f (g_y0 g)); [| discriminate].
      destruct (s2f (g_y1 g)); [| discriminate].
      cbn [bind] in H. destruct (parse_records 1 rest); discriminate.
    - destruct (String.eqb_spec line ""); [contradiction | discriminate]. }
  unfold readlines in Hl. destruct text as [| c text]; [reflexivity | exfalso].
  cbn [readlines_aux] in Hl. destruct (Ascii.eqb c "010"); [discriminate |].
  assert (G : forall s cur, cur <> ""%string -> readlines_aux cur s <> []).
  { induction s as [| x s IH]; intros cur Hc; cbn [readlines_aux].
    - destruct cur; [congruence | discriminate].
    - destruct (Ascii.eqb x "010"); [discriminate |]. apply IH. destruct cur; discriminate. }
  apply (G text ("" ++ String c "")%string); [discriminate | exact Hl].
Qed.

(** ** Zero denominators *)

(** C10.  There are lines on which the pattern matches and whose
    conversion fails: when, in the order of conversion, the first bound of
    a matching line that does not convert has a zero denominator, the
    conversion raises [ZeroDivisionError], not the format error, and no
    document is produced (every line before having gone through the loop).
    Numerator and denominator of that bound are strings that [int]
    converts, of at most [int_max_str_digits] = 4300 digits each: a
    denominator of more zeros is a [ValueError] before it is compared with
    zero.  The property does not extend to every line with such a bound: a
    bound that is converted earlier may raise first, see
    [zero_denominator_after_bad_bound]. *)
Theorem zero_denominator_raises
    (args : Args) (graph_styles : gmap string string)
    (before : list string) (line : string) (after : list string)
    (name : string) (st : loop_state) (g : groups) :
  loop args graph_styles initial_state 0 before = Ok st ->
  search_record line = Some g ->
  first_failure_is_zero_denominator g ->
  generate_output_for_lines args graph_styles (before ++ line :: after) name
  = Raise ZeroDivisionError.
Proof.
  intros Hb Hs Hz. apply generate_loop_failure.
  apply loop_first_failure with (st := st); [exact Hb |].
  unfold loop_body. rewrite (line_record_zero_denominator _ _ _ Hs Hz). reflexivity.
Qed.

Lemma zero_denominator_raises_witness :
  loop args_default default_styles initial_state 0 [] = Ok initial_state /\
  search_record "AllSat: 0<=p<=1/0,0<=q<=1;"
  = Some (mkGroups "AllSat" "0" "p" "1/0" "0" "q" "1") /\
  first_failure_is_zero_denominator (mkGroups "AllSat" "0" "p" "1/0" "0" "q" "1") /\
  generate_output_for_lines args_default default_styles
    ([] ++ "AllSat: 0<=p<=1/0,0<=q<=1;"%string :: []) "in.regionresult"
  = Raise ZeroDivisionError.
Proof.
  assert (Hl : loop args_default default_styles initial_state 0 [] = Ok initial_state)
    by reflexivity.
  assert (Hs : search_record "AllSat: 0<=p<=1/0,0<=q<=1;"
               = Some (mkGroups "AllSat" "0" "p" "1/0" "0" "q" "1"))
    by (vm_compute; reflexivity).
  assert (Hz : first_failure_is_zero_denominator
                 (mkGroups "AllSat" "0" "p" "1/0" "0" "q" "1")).
  { right. split; [eexists; vm_compute; reflexivity |]. left.
    exists "1"%string, "0"%string, 1. repeat split. }
  split; [exact Hl |]. split; [exact Hs |]. split; [exact Hz |].
  exact (zero_denominator_raises args_default default_styles [] _ [] "in.regionresult"
           initial_state _ Hl Hs Hz).
Defined.

(** The pattern matches this line, its bound x1 has a zero denominator,
    and the error is not a division error: the bound x0, a lone "/", is
    converted first and is a [ValueError]. *)
Lemma zero_denominator_after_bad_bound :
  search_record ("AllSat: /<=p<=1/0,0<=q<=1;" ++ nl)
  = Some (mkGroups "AllSat" "/" "p" "1/0" "0" "q" "1") /\
  zero_denominator "1/0" /\
  generate_output_for_input_file args_default default_styles
    ("AllSat: /<=p<=1/0,0<=q<=1;" ++ nl) "in.regionresult" = Raise ValueError.
Proof.
  split; [vm_compute; reflexivity |]. split.
  - exists "1"%string, "0"%string, 1. repeat split.
  - vm_compute. reflexivity.
Qed.

(** A zero denominator in any bound of a matching line leaves no
    document, and the error of the line is never the format error. *)
Lemma zero_denominator_no_document
    (args : Args) (graph_styles : gmap string string)
    (lines : list string) (line : string) (g : groups) (name : string)
    (doc : list chunk) :
  In line lines -> search_record line = Some g ->
  zero_denominator (g_x0 g) \/ zero_denominator (g_x1 g) \/
  zero_denominator (g_y0 g) \/ zero_denominator (g_y1 g) ->
  generate_output_for_lines args graph_styles lines name <> Ok doc.
Proof.
  intros Hin Hs Hz H.
  destruct (generate_ok_loop _ _ _ _ _ H) as [st Hloop].
  apply In_nth_error in Hin. destruct Hin as [i Hi].
  destruct (loop_ok_lines _ _ _ _ _ _ Hloop i line Hi) as (s1 & s2 & Hb).
  unfold loop_body, line_record in Hb. rewrite Hs in Hb.
  destruct Hz as [Hz | [Hz | [Hz | Hz]]];
    rewrite (s2f_zero_denominator _ Hz) in Hb;
    repeat match type of Hb with
           | context [s2f ?s] => destruct (s2f s); cbn [bind] in Hb; try discriminate
           end.
Qed.

(** * Facts about the document and the errors of the generator *)

Module DocumentFacts.

Lemma last_cons {A} (l : list A) : forall a d, List.last (a :: l) d = List.last l a.
Proof.
  induction l as [| b l IH]; intros a d; [reflexivity |].
  change (List.last (a :: b :: l) d) with (List.last (b :: l) d).
  rewrite !IH. reflexivity.
Qed.

(** The loop appends the draw command of each record, every record finds
    its style, and the axis names are those of the last record. *)
Lemma loop_output (args : Args) (graph_styles : gmap string string) lines :
  forall n st st' recs,
    loop args graph_styles st n lines = Ok st' ->
    parse_records n lines = Ok recs ->
    rectangles_output_part st'
    = rectangles_output_part st ++ draw_commands args graph_styles recs /\
    (forall r, In r recs -> graph_styles !! state r <> None) /\
    axes st' = List.last (map (fun r => Some (x_axis r, y_axis r)) recs) (axes st).
Proof.
  induction lines as [| line rest IH]; intros n st st' recs; simpl.
  - intros [= <-] [= <-]. simpl. rewrite app_nil_r. repeat split. intros r [].
  - intros H Hr.
    apply bind_ok in H. destruct H as (st1 & Hbody & Hloop).
    apply bind_ok in Hr. destruct Hr as (r & Hr & H).
    apply bind_ok in H. destruct H as (rs & Hrs & H). injection H as <-.
    unfold loop_body in Hbody. rewrite Hr in Hbody. cbn [bind] in Hbody.
    destruct r as [r |].
    + unfold add_record in Hbody.
      destruct (graph_styles !! state r) as [style |] eqn:Es; [| discriminate].
      injection Hbody as <-.
      destruct (IH _ _ _ _ Hloop Hrs) as (E1 & E2 & E3).
      cbn [rectangles_output_part axes] in E1, E3.
      split; [| split].
      * rewrite E1. unfold draw_commands. cbn [flat_map]. rewrite Es. cbn [default].
        rewrite <- !app_assoc. reflexivity.
      * intros r' [<- | Hr']; [congruence | exact (E2 r' Hr')].
      * rewrite E3. cbn [map]. rewrite last_cons. reflexivity.
    + injection Hbody as <-. exact (IH _ _ _ _ Hloop Hrs).
Qed.

Lemma s2f_error s e :
  s2f s = Raise e -> e = ValueError \/ e = ZeroDivisionError \/ e = OverflowError.
Proof.
  unfold s2f. destruct (Fraction s) as [q | e'] eqn:Hq; cbn [bind].
  - intros H. right; right. exact (checked_error _ _ H).
  - intros [= <-]. unfold Fraction in Hq.
    destruct (Str.split_first "/" s) as [[a b] |].
    + destruct (parse_digits a); [| injection Hq as <-; auto].
      destruct (parse_digits b); [| injection Hq as <-; auto].
      destruct (_ =? 0); [injection Hq as <-; auto | discriminate].
    + destruct (parse_digits s); [discriminate | injection Hq as <-; auto].
Qed.

(** The errors of the first half of an iteration. *)
Lemma line_record_error n line e :
  line_record n line = Raise e ->
  (search_record line = None /\ e = format_error n) \/
  (search_record line <> None /\
   (e = ValueError \/ e = ZeroDivisionError \/ e = OverflowError)).
Proof.
  unfold line_record. destruct (search_record line) as [g |].
  - intros H. right. split; [discriminate |].
    destruct (s2f (g_x0 g)) eqn:E0; cbn [bind] in H;
      [| injection H as <-; exact (s2f_error _ _ E0)].
    destruct (s2f (g_x1 g)) eqn:E1; cbn [bind] in H;
      [| injection H as <-; exact (s2f_error _ _ E1)].
    destruct (s2f (g_y0 g)) eqn:E2; cbn [bind] in H;
      [| injection H as <-; exact (s2f_error _ _ E2)].
    destruct (s2f (g_y1 g)) eqn:E3; cbn [bind] in H;
      [discriminate | injection H as <-; exact (s2f_error _ _ E3)].
  - destruct (String.eqb line ""); [discriminate |]. intros [= <-]. left. auto.
Qed.

Lemma line_record_state n line r :
  line_record n line = Ok (Some r) ->
  exists g, search_record line = Some g /\ state r = g_state g.
Proof.
  unfold line_record. destruct (search_record line) as [g |].
  - intros H.
    apply bind_ok in H. destruct H as (a & _ & H).
    apply bind_ok in H. destruct H as (b & _ & H).
    apply bind_ok in H. destruct H as (c & _ & H).
    apply bind_ok in H. destruct H as (d & _ & H).
    injection H as <-. exists g. auto.
  - destruct (String.eqb line ""); discriminate.
Qed.

(** An error of the loop is the error of one of its lines. *)
Lemma loop_error (args : Args) (graph_styles : gmap string string) lines :
  forall n st e,
    loop args graph_styles st n lines = Raise e ->
    (exists i line, nth_error lines i = Some line /\ search_record line = None /\
                    e = format_error (n + i)) \/
    (exists i line g, nth_error lines i = Some line /\ search_record line = Some g /\
                      graph_styles !! g_state g = None /\
                      e = UnknownStateException ("Unknown state: " ++ g_state g)) \/
    e = ValueError \/ e = ZeroDivisionError \/ e = OverflowError.
Proof.
  induction lines as [| line rest IH]; intros n st e; simpl; [discriminate |].
  destruct (loop_body args graph_styles st n line) as [st1 | e1] eqn:Hbody; cbn [bind].
  - intros H. destruct (IH _ _ _ H) as [(i & l & Hi & Hs & ->) | [(i & l & g & Hi & Hs & Hg & ->) | H']].
    + left. exists (S i), l. split; [exact Hi |]. split; [exact Hs |]. f_equal. lia.
    + right; left. exists (S i), l, g. auto.
    + auto.
  - intros [= <-]. unfold loop_body in Hbody.
    destruct (line_record n line) as [r |] eqn:Hr; cbn [bind] in Hbody.
    + destruct r as [r |]; [| discriminate].
      destruct (line_record_state _ _ _ Hr) as (g & Hs & Eg).
      unfold add_record in Hbody. destruct (graph_styles !! state r) eqn:Es; [discriminate |].
      injection Hbody as <-. right; left. exists O, line, g. rewrite <- Eg. auto.
    + injection Hbody as <-.
      destruct (line_record_error _ _ _ Hr) as [[Hs ->] | [_ H]]; [| auto].
      left. exists O, line. rewrite Nat.add_0_r. auto.
Qed.

End DocumentFacts.

Import DocumentFacts.

(** X1.  A document that is produced is the header, then the draw command
    of every record of the lines, in the order of the lines and each with
    the style of its state followed by the line width, then the footer;
    there is at least one record and every state has a style. *)
Theorem document_of_records
    (args : Args) (graph_styles : gmap string string)
    (lines : list string) (name : string) (doc : list chunk) :
  generate_output_for_lines args graph_styles lines name = Ok doc ->
  exists recs xmin xmax ymin ymax xt yt xa ya,
    parse_records 0 lines = Ok recs /\ recs <> [] /\
    (forall r, In r recs -> graph_styles !! state r <> None) /\
    doc = get_output_header_for_vars xmin xmax ymin ymax xt yt xa ya (title_for args name)
          ++ draw_commands args graph_styles recs ++ get_output_footer.
Proof.
  unfold generate_output_for_lines. intros H.
  apply bind_ok in H. destruct H as (st & Hloop & H).
  apply bind_ok in H. destruct H as (xs & Hxs & H).
  apply bind_ok in H. destruct H as (ys & _ & H).
  apply bind_ok in H. destruct H as (xt & _ & H).
  apply bind_ok in H. destruct H as (yt & _ & H).
  destruct (loop_accumulators args graph_styles lines st Hloop)
    as (recs & Hrecs & _ & [[_ ->] | [Hne _]]); [discriminate |].
  destruct (loop_output args graph_styles lines 0 initial_state st recs Hloop Hrecs)
    as (E1 & E2 & _).
  destruct (x_min st) as [a |], (x_max st) as [b |], (y_min st) as [c |],
    (y_max st) as [d |]; try discriminate.
  destruct (axes st) as [[xa ya] |]; [| discriminate]. injection H as <-.
  exists recs, a, b, c, d, xt, yt, xa, ya.
  split; [exact Hrecs |]. split; [exact Hne |]. split; [exact E2 |].
  rewrite E1. reflexivity.
Qed.

Lemma document_of_records_witness :
  exists doc,
    generate_output_for_lines args_default default_styles (readlines two_regions)
      "in.regionresult" = Ok doc /\
    exists recs xmin xmax ymin ymax xt yt xa ya,
      parse_records 0 (readlines two_regions) = Ok recs /\ recs <> [] /\
      (forall r, In r recs -> default_styles !! state r <> None) /\
      doc = get_output_header_for_vars xmin xmax ymin ymax xt yt xa ya
              (title_for args_default "in.regionresult")
            ++ draw_commands args_default default_styles recs ++ get_output_footer.
Proof.
  assert (H : { doc | generate_output_for_lines args_default default_styles
                        (readlines two_regions) "in.regionresult" = Ok doc })
    by (eexists; vm_compute; reflexivity).
  destruct H as [doc H]. exists doc. split; [exact H |].
  exact (document_of_records _ _ _ _ _ H).
Defined.

(** X2.  The axis labels of the header are the axis names of the last
    record of the file, whatever the names of the records before it. *)
Theorem axis_labels_of_last_record
    (args : Args) (graph_styles : gmap string string)
    (lines : list string) (name : string) (doc : list chunk)
    (recs : list record) (r : record) :
  generate_output_for_lines args graph_styles lines name = Ok doc ->
  parse_records 0 lines = Ok (recs ++ [r]) ->
  nth_error doc 12 = Some (Text ("," ++ nl ++ "xlabel=")) /\
  nth_error doc 13 = Some (Text (x_axis r)) /\
  nth_error doc 14 = Some (Text ("," ++ nl ++ "ylabel=")) /\
  nth_error doc 15 = Some (Text (y_axis r)).
Proof.
  unfold generate_output_for_lines. intros H Hrecs.
  apply bind_ok in H. destruct H as (st & Hloop & H).
  apply bind_ok in H. destruct H as (xs & Hxs & H).
  apply bind_ok in H. destruct H as (ys & _ & H).
  apply bind_ok in H. destruct H as (xt & _ & H).
  apply bind_ok in H. destruct H as (yt & _ & H).
  destruct (loop_output args graph_styles lines 0 initial_state st _ Hloop Hrecs)
    as (_ & _ & E3).
  rewrite map_app in E3. cbn [map] in E3. rewrite last_last in E3.
  destruct (x_min st) as [a |], (x_max st) as [b |], (y_min st) as [c |],
    (y_max st) as [d |]; try discriminate.
  rewrite E3 in H. injection H as <-. repeat split.
Qed.

Lemma axis_labels_of_last_record_witness :
  exists doc recs r,
    generate_output_for_lines args_default default_styles
      (readlines ("AllSat: 0<=p<=1,0<=q<=1;" ++ nl ++ "Unknown: 1<=a<=2,1<=b<=2;" ++ nl))
      "in.regionresult" = Ok doc /\
    parse_records 0
      (readlines ("AllSat: 0<=p<=1,0<=q<=1;" ++ nl ++ "Unknown: 1<=a<=2,1<=b<=2;" ++ nl))
    = Ok (recs ++ [r]) /\
    x_axis r = "a"%string /\ y_axis r = "b"%string /\
    nth_error doc 12 = Some (Text ("," ++ nl ++ "xlabel=")) /\
    nth_error doc 13 = Some (Text (x_axis r)) /\
    nth_error doc 14 = Some (Text ("," ++ nl ++ "ylabel=")) /\
    nth_error doc 15 = Some (Text (y_axis r)).
Proof.
  assert (H : { doc | generate_output_for_lines args_default default_styles
                        (readlines ("AllSat: 0<=p<=1,0<=q<=1;" ++ nl
                                    ++ "Unknown: 1<=a<=2,1<=b<=2;" ++ nl))
                        "in.regionresult" = Ok doc })
    by (eexists; vm_compute; reflexivity).
  destruct H as [doc H].
  assert (R : { rr : list record * record |
                parse_records 0
                  (readlines ("AllSat: 0<=p<=1,0<=q<=1;" ++ nl
                              ++ "Unknown: 1<=a<=2,1<=b<=2;" ++ nl))
                = Ok (fst rr ++ [snd rr]) /\
                x_axis (snd rr) = "a"%string /\ y_axis (snd rr) = "b"%string }).
  { eexists (cons _ nil, _). cbn [fst snd]. split; [vm_compute; reflexivity |].
    split; reflexivity. }
  destruct R as [[recs r] (R & Ra & Rb)]. cbn [fst snd] in R, Ra, Rb.
  exists doc, recs, r.
  split; [exact H |]. split; [exact R |]. split; [exact Ra |]. split; [exact Rb |].
  exact (axis_labels_of_last_record _ _ _ _ _ _ _ H R).
Defined.

(** X3.  When the generator raises, the exception is the format error of
    a line without a match with the index of that line, the unknown-state
    error of a matching line whose state has no style, a [ValueError], a
    [ZeroDivisionError], an [OverflowError], or the [TypeError] of an
    input without records.  The axis names are never read unbound. *)
Theorem generator_errors
    (args : Args) (graph_styles : gmap string string)
    (lines : list string) (name : string) (e : exn) :
  generate_output_for_lines args graph_styles lines name = Raise e ->
  generator_error graph_styles lines e.
Proof.
  unfold generate_output_for_lines, generator_error. intros H.
  destruct (loop args graph_styles initial_state 0 lines) as [st | e'] eqn:Hloop;
    cbn [bind] in H.
  - destruct (loop_accumulators args graph_styles lines st Hloop)
      as (recs & Hrecs & _ & [[-> ->] | [Hne (a & b & c & d & Ha & Hb & Hc & Hd & _)]]).
    + cbn in H. injection H as <-. do 5 right. auto.
    + pose proof (loop_axes args graph_styles lines 0 initial_state st recs Hloop Hrecs
                    (or_introl Hne)) as Hax.
      rewrite Ha, Hb, Hc, Hd in H. cbn [get_span bind] in H.
      destruct (tick_distance _ (x_split args) _) as [xt | ex] eqn:Hx; cbn [bind] in H.
      * destruct (tick_distance _ (y_split args) _) as [yt | ey] eqn:Hy; cbn [bind] in H.
        -- destruct (axes st) as [[xa ya] |]; [discriminate | congruence].
        -- injection H as <-.
           destruct (tick_distance_error _ _ _ _ Hy) as [[_ ->] | [_ ->]]; auto 10.
      * injection H as <-.
        destruct (tick_distance_error _ _ _ _ Hx) as [[_ ->] | [_ ->]]; auto 10.
  - injection H as <-.
    destruct (loop_error args graph_styles lines 0 initial_state e' Hloop)
      as [(i & l & Hi & Hs & ->) | [(i & l & g & Hi & Hs & Hg & ->) | H']].
    + left. exists i, l. auto.
    + right; left. exists i, l, g. auto.
    + tauto.
Qed.

Lemma generator_errors_witness :
  generate_output_for_lines args_default default_styles
    (readlines (one_region ++ "Foo: 0<=p<=1,0<=q<=1;" ++ nl)) "in.regionresult"
  = Raise (UnknownStateException "Unknown state: Foo") /\
  generator_error default_styles
    (readlines (one_region ++ "Foo: 0<=p<=1,0<=q<=1;" ++ nl))
    (UnknownStateException "Unknown state: Foo").
Proof.
  assert (H : generate_output_for_lines args_default default_styles
                (readlines (one_region ++ "Foo: 0<=p<=1,0<=q<=1;" ++ nl)) "in.regionresult"
              = Raise (UnknownStateException "Unknown state: Foo"))
    by (vm_compute; reflexivity).
  split; [exact H |].
  exact (generator_errors _ _ _ _ _ H).
Defined.

(** * Facts about the search of the pattern *)

Module SearchFacts.

Lemma take_drop k : forall s, (Str.take k s ++ Str.drop k s)%string = s.
Proof.
  induction k as [| k IH]; intros s; [reflexivity |].
  destruct s as [| c s]; [reflexivity |]. cbn [Str.take Str.drop].
  rewrite append_cons, IH. reflexivity.
Qed.

Lemma drop_append (a b : string) : Str.drop (String.length a) (a ++ b) = b.
Proof. induction a as [| c a IH]; [reflexivity | exact IH]. Qed.

Lemma all_take cls : forall k s,
  (k <= Str.span_length cls s)%nat -> Str.all cls (Str.take k s) = true.
Proof.
  induction k as [| k IH]; intros s Hk; [reflexivity |].
  destruct s as [| c s]; [reflexivity |]. cbn [Str.span_length] in Hk.
  cbn [Str.take Str.all]. destruct (cls c); [| lia].
  rewrite IH by lia. reflexivity.
Qed.

Lemma span_length_append cls a b :
  Str.all cls a = true -> Str.span_length cls b = O ->
  Str.span_length cls (a ++ b) = String.length a.
Proof.
  intros Ha Hb. induction a as [| c a IH]; [exact Hb |].
  cbn [Str.all] in Ha. apply andb_true_iff in Ha. destruct Ha as [Hc Ha].
  rewrite append_cons. cbn [Str.span_length String.length]. rewrite Hc, (IH Ha). reflexivity.
Qed.

Lemma strip_prefix_append l t : Str.strip_prefix l (l ++ t) = Some t.
Proof.
  induction l as [| c l IH]; [destruct t; reflexivity |].
  rewrite append_cons. cbn [Str.strip_prefix]. rewrite Ascii.eqb_refl. exact IH.
Qed.

Lemma strip_prefix_sound l : forall s t, Str.strip_prefix l s = Some t -> s = (l ++ t)%string.
Proof.
  induction l as [| c l IH]; intros s t.
  - destruct s; intros [= <-]; reflexivity.
  - destruct s as [| d s]; [discriminate |]. cbn [Str.strip_prefix].
    destruct (Ascii.eqb_spec c d) as [<- |]; [| discriminate].
    intros H. rewrite (IH _ _ H). reflexivity.
Qed.

(** A literal in front of the text is passed over. *)
Lemma match_here_lit l p t :
  Regex.match_here (Regex.Lit l :: p) (l ++ t) = Regex.match_here p t.
Proof. cbn [Regex.match_here]. rewrite strip_prefix_append. reflexivity. Qed.

(** A group takes the whole run of its class when the rest matches after
    it. *)
Lemma match_here_group cls p g t gs :
  Str.all cls g = true -> Str.span_length cls t = O ->
  Regex.match_here p t = Some gs ->
  Regex.match_here (Regex.Group cls :: p) (g ++ t) = Some (g :: gs).
Proof.
  intros Hg Ht Hm. cbn [Regex.match_here].
  rewrite (span_length_append cls g t Hg Ht).
  pose proof (drop_append g t) as Ed. pose proof (take_append g t) as Et.
  destruct (String.length g); cbv beta iota; rewrite Ed, Et, Hm; reflexivity.
Qed.

Lemma give_back_sound p s : forall K gs0,
  (fix give_back (k : nat) : option (list string) :=
     match Regex.match_here p (Str.drop k s) with
     | Some gs => Some (Str.take k s :: gs)
     | None => match k with
               | O => None
               | S k' => give_back k'
               end
     end) K = Some gs0 ->
  exists k gs, (k <= K)%nat /\ Regex.match_here p (Str.drop k s) = Some gs /\
               gs0 = Str.take k s :: gs.
Proof.
  induction K as [| K IH]; intros gs0.
  - destruct (Regex.match_here p (Str.drop 0 s)) as [gs |] eqn:E; [| discriminate].
    intros [= <-]. exists O, gs. auto.
  - destruct (Regex.match_here p (Str.drop (S K) s)) as [gs |] eqn:E.
    + intros [= <-]. exists (S K), gs. auto.
    + intros H. destruct (IH _ H) as (k & gs & Hk & Hm & ->). exists k, gs. auto.
Qed.

(** What a match at the start of a text covers. *)
Lemma match_here_sound p : forall s gs,
  Regex.match_here p s = Some gs ->
  exists t post, s = (t ++ post)%string /\ matched_text p gs t.
Proof.
  induction p as [| [cls | l] p IH]; intros s gs.
  - intros [= <-]. exists EmptyString, s. split; reflexivity.
  - cbn [Regex.match_here]. intros H.
    destruct (give_back_sound p s _ _ H) as (k & gs' & Hk & Hm & ->).
    destruct (IH _ _ Hm) as (t & post & Es & Ht).
    exists (Str.take k s ++ t)%string, post. split.
    + rewrite append_assoc, <- Es. symmetry. apply take_drop.
    + cbn [matched_text]. split; [exact (all_take cls k s Hk) |]. exists t. auto.
  - cbn [Regex.match_here].
    destruct (Str.strip_prefix l s) as [s' |] eqn:E; [| discriminate].
    intros H. destruct (IH _ _ H) as (t & post & Es & Ht).
    exists (l ++ t)%string, post. split.
    + rewrite append_assoc, <- Es. exact (strip_prefix_sound _ _ _ E).
    + cbn [matched_text]. exists t. auto.
Qed.

Lemma search_here p s gs :
  Regex.match_here p s = Some gs -> Regex.search p s = Some gs.
Proof. intros H. destruct s; cbn [Regex.search]; rewrite H; reflexivity. Qed.

Lemma search_sound p : forall s gs,
  Regex.search p s = Some gs ->
  exists pre s', s = (pre ++ s')%string /\ Regex.match_here p s' = Some gs.
Proof.
  induction s as [| c s IH]; intros gs; cbn [Regex.search].
  - destruct (Regex.match_here p "") eqn:E; [| discriminate].
    intros [= <-]. exists EmptyString, EmptyString. auto.
  - destruct (Regex.match_here p (String c s)) eqn:E.
    + intros [= <-]. exists EmptyString, (String c s). auto.
    + intros H. destruct (IH _ H) as (pre & s' & -> & Hm).
      exists (String c pre), s'. auto.
Qed.

End SearchFacts.

Import SearchFacts.

(** X4.  The text of a record in the format of the input files is read
    back as it was written: when the state and the axis names are words
    and the bounds runs of digits and "/", the search of the pattern in
    that text, whatever follows it, gives these seven groups. *)
Theorem search_of_record_text (g : groups) (rest : string) :
  groups_in_classes g ->
  search_record (record_text g ++ rest) = Some g.
Proof.
  intros (H1 & H2 & H3 & H4 & H5 & H6 & H7).
  destruct g as [st a xa b c ya d]. cbn [g_state g_x0 g_x_axis g_x1 g_y0 g_y_axis g_y1] in *.
  unfold search_record, record_text.
  cbn [g_state g_x0 g_x_axis g_x1 g_y0 g_y_axis g_y1].
  rewrite !append_assoc.
  rewrite (search_here Regex.record_pattern _ [st; a; xa; b; c; ya; d]); [reflexivity |].
  unfold Regex.record_pattern.
  apply match_here_group; [exact H1 | reflexivity |]. rewrite match_here_lit.
  apply match_here_group; [exact H2 | reflexivity |]. rewrite match_here_lit.
  apply match_here_group; [exact H3 | reflexivity |]. rewrite match_here_lit.
  apply match_here_group; [exact H4 | reflexivity |]. rewrite match_here_lit.
  apply match_here_group; [exact H5 | reflexivity |]. rewrite match_here_lit.
  apply match_here_group; [exact H6 | reflexivity |]. rewrite match_here_lit.
  apply match_here_group; [exact H7 | reflexivity |]. rewrite match_here_lit.
  reflexivity.
Qed.

Lemma search_of_record_text_witness :
  groups_in_classes (mkGroups "AllViolated" "1/10000" "prob1" "5001/20000"
                       "1/10000" "perr" "5001/20000") /\
  search_record
    (record_text (mkGroups "AllViolated" "1/10000" "prob1" "5001/20000"
                    "1/10000" "perr" "5001/20000") ++ nl)
  = Some (mkGroups "AllViolated" "1/10000" "prob1" "5001/20000"
            "1/10000" "perr" "5001/20000").
Proof.
  assert (H : groups_in_classes (mkGroups "AllViolated" "1/10000" "prob1" "5001/20000"
                                   "1/10000" "perr" "5001/20000"))
    by (repeat split).
  split; [exact H |].
  exact (search_of_record_text _ nl H).
Defined.

(** X5.  A line on which the pattern is found holds a record in the
    format of the input files: the line is some text, the text of the
    groups of the match, and some text; the state and the axis names of
    the match are words (possibly empty) and its bounds runs (possibly
    empty) of digits and "/". *)
Theorem search_record_sound (line : string) (g : groups) :
  search_record line = Some g ->
  groups_in_classes g /\
  exists pre post, line = (pre ++ record_text g ++ post)%string.
Proof.
  unfold search_record. intros H.
  destruct (Regex.search Regex.record_pattern line) as [gs |] eqn:E; [| discriminate].
  destruct gs as [| st [| a [| xa [| b [| c [| ya [| d [| ? ?]]]]]]]]; try discriminate.
  injection H as <-.
  destruct (search_sound _ _ _ E) as (pre & s' & -> & Hm).
  destruct (match_here_sound _ _ _ Hm) as (t & post & -> & Ht).
  unfold Regex.record_pattern in Ht. cbn [matched_text] in Ht.
  destruct Ht as (H1 & t1 & -> & t2 & -> & H2 & t3 & -> & t4 & -> & H3 & t5 & -> & t6 & ->
                  & H4 & t7 & -> & t8 & -> & H5 & t9 & -> & t10 & -> & H6 & t11 & ->
                  & t12 & -> & H7 & t13 & -> & t14 & -> & ->).
  split; [repeat split; assumption |].
  exists pre, post. unfold record_text.
  cbn [g_state g_x0 g_x_axis g_x1 g_y0 g_y_axis g_y1].
  rewrite append_empty_r. reflexivity.
Qed.

Lemma search_record_sound_witness :
  search_record "# see AllSat: 0<=p<=1,0<=q<=1; and more"
  = Some (mkGroups "AllSat" "0" "p" "1" "0" "q" "1") /\
  groups_in_classes (mkGroups "AllSat" "0" "p" "1" "0" "q" "1") /\
  exists pre post,
    "# see AllSat: 0<=p<=1,0<=q<=1; and more"%string
    = (pre ++ record_text (mkGroups "AllSat" "0" "p" "1" "0" "q" "1") ++ post)%string.
Proof.
  assert (H : search_record "# see AllSat: 0<=p<=1,0<=q<=1; and more"
              = Some (mkGroups "AllSat" "0" "p" "1" "0" "q" "1"))
    by (vm_compute; reflexivity).
  split; [exact H |].
  exact (search_record_sound _ _ H).
Defined.

(** * Facts about integer bounds *)

Module BoundFacts.

Lemma split_first_no_slash s : forall acc n,
  parse_digits_aux acc s = Some n -> Str.split_first "/" s = None.
Proof.
  induction s as [| c s IH]; intros acc n; simpl; [reflexivity |].
  destruct (Str.is_digit c) eqn:Hc; [| discriminate].
  rewrite (digit_not_slash c Hc). intros H. rewrite (IH _ _ H). reflexivity.
Qed.

Lemma Fraction_of_integer s n : parse_digits s = Some n -> Fraction s = Ok (n # 1).
Proof.
  intros H. unfold Fraction.
  assert (Hs : Str.split_first "/" s = None).
  { destruct (parse_digits_inv _ _ H) as (_ & _ & H'). exact (split_first_no_slash _ _ _ H'). }
  rewrite Hs, H. reflexivity.
Qed.

Lemma split_first_none_all_digits s :
  all_digits s -> Str.split_first "/" s = None.
Proof.
  unfold all_digits. induction s as [| c s IH]; cbn [Str.all Str.split_first]; [reflexivity |].
  rewrite andb_true_iff. intros [Hc Hs].
  rewrite (digit_not_slash c Hc), (IH Hs). reflexivity.
Qed.

Lemma split_first_all_digits a b :
  all_digits a -> Str.split_first "/" (a ++ "/" ++ b)%string = Some (a, b).
Proof.
  unfold all_digits. induction a as [| c a IH]; cbn [Str.all]; [reflexivity |].
  rewrite andb_true_iff. intros [Hc Ha].
  change (String c a ++ "/" ++ b)%string with (String c (a ++ "/" ++ b))%string.
  cbn [Str.split_first]. rewrite (digit_not_slash c Hc), (IH Ha). reflexivity.
Qed.

(** An integer below [2^53] is the value of a float. *)
Lemma small_integer_representable n :
  0 <= n < 2 ^ 53 -> representable (n * 2 ^ 1074).
Proof.
  intros [H0 H1]. destruct (Z.eq_dec n 0) as [-> | Hn].
  - exists 0, 0. repeat split; lia.
  - assert (Hp : 0 < n) by lia.
    pose proof (Z.log2_spec n Hp) as [L1 L2].
    pose proof (Z.log2_nonneg n) as L0.
    assert (L3 : Z.log2 n < 53).
    { apply Z.log2_lt_pow2; lia. }
    set (j := 52 - Z.log2 n).
    exists (n * 2 ^ j), (1074 - j).
    assert (E52 : 2 ^ 52 = 2 ^ Z.log2 n * 2 ^ j).
    { rewrite <- Z.pow_add_r by (unfold j; lia). f_equal. unfold j. lia. }
    assert (E53 : 2 ^ 53 = 2 ^ (Z.succ (Z.log2 n)) * 2 ^ j).
    { rewrite <- Z.pow_add_r by (unfold j; lia). f_equal. unfold j. lia. }
    pose proof (pow2_pos j ltac:(unfold j; lia)) as Pj.
    repeat split.
    + rewrite <- Z.mul_assoc, <- Z.pow_add_r by (unfold j; lia). do 2 f_equal. lia.
    + unfold j. lia.
    + nia.
    + rewrite E53. nia.
    + right. rewrite E52. nia.
Qed.

Lemma round_ratio_small_integer n :
  0 <= n < 2 ^ 53 -> F2Z (round_ratio false n 1) = n * 2 ^ 1074.
Proof.
  intros Hn.
  assert (Hfin : is_finite (round_ratio false n 1) = true).
  { apply round_ratio_in_range; lia. }
  destruct (round_ratio_F2Z false n 1 ltac:(lia) ltac:(lia) Hfin) as (m & k & Hmk & ->).
  destruct (round_mk_spec n 1 m k ltac:(lia) ltac:(lia) Hmk) as (_ & _ & _ & _ & _ & Hnear).
  specialize (Hnear _ (small_integer_representable n Hn)).
  cbn [cond_Zopp]. lia.
Qed.

End BoundFacts.

Import BoundFacts.

(** X6.  An integer bound below [2^53], written with digits that [int]
    converts (at most [int_max_str_digits] = 4300 of them, leading zeros
    counted, which is what [parse_digits] accepts), is parsed without
    rounding: the float of its digits has exactly the value of the
    integer. *)
Theorem s2f_integer_exact (s : string) (n : Z) :
  parse_digits s = Some n -> n < 2 ^ 53 ->
  exists f, s2f s = Ok f /\ good f /\ (F2Q f == inject_Z n)%Q.
Proof.
  intros Hs Hn. pose proof (parse_digits_nonneg _ _ Hs) as H0.
  unfold s2f. rewrite (Fraction_of_integer s n Hs). cbn [bind].
  unfold float_of_Fraction. cbn [Qnum Qden].
  replace (n <? 0) with false by (symmetry; apply Z.ltb_ge; exact H0).
  rewrite (Z.abs_eq n H0).
  pose proof (round_ratio_small_integer n (conj H0 Hn)) as EZ.
  pose proof (round_ratio_valid false n 1 H0 ltac:(lia)) as Hv.
  assert (Hfin : is_finite (round_ratio false n 1) = true).
  { apply round_ratio_in_range; lia. }
  exists (round_ratio false n 1). split; [| split].
  - destruct (round_ratio false n 1); try discriminate; reflexivity.
  - split; assumption.
  - rewrite (F2Q_F2Z _ Hv), EZ, inject_Z_mult.
    assert (P : ~ (inject_Z (2 ^ 1074) == 0)%Q).
    { intros E. apply (Qeq_bool_neq (inject_Z (2 ^ 1074)) 0); [vm_compute; reflexivity | exact E]. }
    set (q := inject_Z (2 ^ 1074)) in *. clearbody q. field. exact P.
Qed.

Lemma s2f_integer_exact_witness :
  parse_digits "9007199254740991" = Some 9007199254740991 /\
  9007199254740991 < 2 ^ 53 /\
  exists f, s2f "9007199254740991" = Ok f /\ good f /\
            (F2Q f == inject_Z 9007199254740991)%Q.
Proof.
  assert (H1 : parse_digits "9007199254740991" = Some 9007199254740991) by reflexivity.
  assert (H2 : 9007199254740991 < 2 ^ 53) by reflexivity.
  split; [exact H1 |]. split; [exact H2 |].
  exact (s2f_integer_exact _ _ H1 H2).
Defined.

(** X7.  Every bound of every record read from the lines is a finite
    float of the format that is not negative: no coordinate of a draw
    command is negative, infinite or not a number. *)
Theorem parsed_bounds_finite_nonnegative (lines : list string) :
  forall (line_no : nat) (recs : list record),
    parse_records line_no lines = Ok recs ->
    forall r, In r recs -> record_good r.
Proof.
  induction lines as [| line rest IH]; intros n recs; simpl.
  - intros [= <-] r [].
  - intros H. apply bind_ok in H. destruct H as (r0 & Hr0 & H).
    apply bind_ok in H. destruct H as (rs & Hrs & H). injection H as <-.
    intros r Hr. destruct r0 as [r0 |]; [| exact (IH _ _ Hrs r Hr)].
    destruct Hr as [<- | Hr]; [exact (line_record_good _ _ _ Hr0) | exact (IH _ _ Hrs r Hr)].
Qed.

Lemma parsed_bounds_finite_nonnegative_witness :
  exists recs r,
    parse_records 0 (readlines two_regions) = Ok recs /\ In r recs /\ record_good r.
Proof.
  assert (H : { rr : record * list record |
                parse_records 0 (readlines two_regions) = Ok (fst rr :: snd rr) })
    by (eexists (_, _); cbn [fst snd]; vm_compute; reflexivity).
  destruct H as [[r rs] H]. cbn [fst snd] in H.
  exists (r :: rs), r.
  assert (Hin : In r (r :: rs)) by (left; reflexivity).
  split; [exact H |]. split; [exact Hin |].
  exact (parsed_bounds_finite_nonnegative _ _ _ H r Hin).
Defined.

(** * Facts about the sign of the tick distances *)

Module SignFacts.

Lemma F2Z_le_of_F2Q x y : valid x -> valid y -> (F2Q x <= F2Q y)%Q -> F2Z x <= F2Z y.
Proof.
  intros Vx Vy H. rewrite (F2Q_F2Z x Vx), (F2Q_F2Z y Vy) in H.
  unfold Qdiv in H.
  assert (P : (0 < / inject_Z (2 ^ 1074))%Q).
  { apply Qinv_lt_0_compat. rewrite <- (Zlt_Qlt 0). apply pow2_pos. lia. }
  apply (proj1 (Qmult_le_r _ _ _ P)) in H. rewrite Zle_Qle. exact H.
Qed.

Lemma sub_nonneg x y :
  good x -> good y -> nonneg x -> nonneg y -> F2Z y <= F2Z x -> nonneg (sub x y).
Proof.
  intros Gx Gy Nx Ny Hle. pose proof (sub_good x y Gx Gy Nx Ny) as [_ Fs].
  destruct Gx as [Vx Fx], Gy as [Vy Fy].
  destruct x as [sx | sx | | sx mx ex]; try discriminate;
  destruct y as [sy | sy | | sy my ey]; try discriminate;
  simpl in Nx, Ny; subst.
  - reflexivity.
  - exfalso. apply valid_finite in Vy. cbn [F2Z cond_Zopp] in Hle.
    pose proof (F2Z_pos my ey ltac:(lia)). lia.
  - reflexivity.
  - unfold sub in *. cbn [cond_Zopp] in *.
    set (ez := Z.min ex ey) in *.
    set (z := Z.pos mx * 2 ^ (ex - ez) - Z.pos my * 2 ^ (ey - ez)) in *.
    apply valid_finite in Vx. apply valid_finite in Vy.
    assert (Hz : 0 <= z).
    { cbn [F2Z cond_Zopp] in Hle.
      assert (Ex : 2 ^ (ex + 1074) = 2 ^ (ex - ez) * 2 ^ (ez + 1074)).
      { rewrite <- Z.pow_add_r by lia. f_equal. lia. }
      assert (Ey : 2 ^ (ey + 1074) = 2 ^ (ey - ez) * 2 ^ (ez + 1074)).
      { rewrite <- Z.pow_add_r by lia. f_equal. lia. }
      pose proof (pow2_pos (ez + 1074) ltac:(lia)) as HK.
      rewrite Ex, Ey in Hle. unfold z. nia. }
    replace (z <? 0) with false in * by (symmetry; apply Z.ltb_ge; exact Hz).
    destruct (round_ratio_nonneg (Z.abs z * 2 ^ Z.max ez 0) (2 ^ Z.max (- ez) 0))
      as [H | H]; [exact H |].
    rewrite H in Fs. discriminate.
Qed.

(** The float of a positive int is finite and positive. *)
Lemma of_int_positive n f :
  0 < n -> of_int n = Ok f -> exists m e, f = S754_finite false m e.
Proof.
  intros Hn H. destruct (of_int_good n f H) as [[_ Ff] Hz].
  specialize (Hz ltac:(lia)). pose proof (pow2_pos 1074 ltac:(lia)) as P.
  unfold of_int in H.
  replace (n <? 0) with false in H by (symmetry; apply Z.ltb_ge; lia).
  destruct (round_ratio_nonneg (Z.abs n) 1) as [N | E].
  - destruct (round_ratio false (Z.abs n) 1) as [s | s | | s m e]; cbn [checked] in H;
      try discriminate; injection H as <-; simpl in N; [| contradiction |]; subst s.
    + exfalso. cbn [F2Z] in Hz. change (Z.abs 0) with 0 in Hz. lia.
    + exists m, e. reflexivity.
  - rewrite E in H. discriminate.
Qed.

Lemma div_nonneg x m e :
  good x -> nonneg x -> good (div x (S754_finite false m e)) ->
  nonneg (div x (S754_finite false m e)).
Proof.
  intros [Vx Fx] Nx [_ Fd].
  destruct x as [sx | sx | | sx mx ex]; try discriminate; simpl in Nx; subst.
  - reflexivity.
  - unfold div in *. cbn [xorb] in *.
    destruct (round_ratio_nonneg (Z.pos mx * 2 ^ Z.max (ex - e) 0)
                (Z.pos m * 2 ^ Z.max (e - ex) 0)) as [H | H]; [exact H |].
    rewrite H in Fd. discriminate.
Qed.

Lemma round_nonneg x nd r : nonneg x -> round x nd = Ok r -> nonneg r.
Proof.
  destruct x as [s | s | | s m e]; simpl; try tauto.
  - intros -> [= <-]. reflexivity.
  - intros ->.
    destruct (323 <? nd); [intros [= <-]; reflexivity |].
    destruct (nd <? -308); [intros [= <-]; reflexivity |].
    match goal with
    | |- context [round_ratio false ?p ?q] =>
        destruct (round_ratio_nonneg p q) as [H | H];
        [destruct (round_ratio false p q); try discriminate; intros [= <-]; exact H
        | rewrite H; discriminate]
    end.
Qed.

Lemma tick_distance_nonneg span split rounding t :
  good span -> nonneg span -> 0 < split ->
  tick_distance span split rounding = Ok t -> nonneg t.
Proof.
  intros Gs Ns Hsplit H. unfold tick_distance in H.
  apply bind_ok in H. destruct H as (d & Hd & Hr).
  destruct (truediv_int_ok _ _ _ Hd) as (fx & Hfx & -> & _).
  destruct (of_int_positive _ _ Hsplit Hfx) as (m & e & ->).
  destruct (of_int_good _ _ Hfx) as [Gf Hz]. specialize (Hz ltac:(lia)).
  apply (round_nonneg _ _ _ (div_nonneg _ _ _ Gs Ns (div_good _ _ Gs Gf Hz)) Hr).
Qed.

Lemma format_f_nonneg x :
  nonneg x -> exists d rest, format_f 2 x = String d rest /\ Str.is_digit d = true.
Proof.
  assert (D : forall n, exists d rest, Str.of_N n = String d rest /\ Str.is_digit d = true).
  { intros n. pose proof (of_N_digits n) as [Hne Hall].
    destruct (Str.of_N n) as [| d rest]; [congruence |].
    cbn [Str.all] in Hall. apply andb_true_iff in Hall. exists d, rest. tauto. }
  destruct x as [s | s | | s m e]; simpl; try tauto; intros ->.
  - exists "0"%char. eexists. split; reflexivity.
  - unfold format_f. cbn [sign_text].
    match goal with |- context [Str.of_N ?n] => destruct (D n) as (d & rest & -> & Hd) end.
    exists d. eexists. split; [reflexivity | exact Hd].
Qed.

End SignFacts.

Import SignFacts.

(** X8.  When no record has a lower bound above its upper bound and the
    split counts are positive, the tick distances of a document are not
    negative and their text in the header starts with a digit, not with a
    minus sign. *)
Theorem ordered_records_ticks_nonnegative
    (args : Args) (graph_styles : gmap string string)
    (lines : list string) (name : string) (doc : list chunk) (recs : list record) :
  generate_output_for_lines args graph_styles lines name = Ok doc ->
  parse_records 0 lines = Ok recs ->
  (forall r, In r recs ->
     (F2Q (x0 r) <= F2Q (x1 r))%Q /\ (F2Q (y0 r) <= F2Q (y1 r))%Q) ->
  0 < x_split args -> 0 < y_split args ->
  exists xt yt,
    nth_error doc 9 = Some (Text (format_f 2 xt)) /\
    nth_error doc 11 = Some (Text (format_f 2 yt)) /\
    nonneg xt /\ nonneg yt /\
    (exists d rest, format_f 2 xt = String d rest /\ Str.is_digit d = true) /\
    (exists d rest, format_f 2 yt = String d rest /\ Str.is_digit d = true).
Proof.
  unfold generate_output_for_lines. intros H Hrecs Hord Hxs Hys.
  apply bind_ok in H. destruct H as (st & Hloop & H).
  apply bind_ok in H. destruct H as (xs & Hxspan & H).
  apply bind_ok in H. destruct H as (ys & Hyspan & H).
  apply bind_ok in H. destruct H as (xt & Hxt & H).
  apply bind_ok in H. destruct H as (yt & Hyt & H).
  assert (Hb0 : bounds_of initial_state []) by (repeat split).
  destruct (loop_records args graph_styles lines 0 initial_state st [] Hloop Hb0
              (Forall_nil _)) as (recs' & Hrecs' & (B1 & B2 & B3 & B4) & Hg).
  rewrite Hrecs in Hrecs'. injection Hrecs' as <-. cbn [app] in *.
  destruct (x_min st) as [a |], (x_max st) as [b |], (y_min st) as [c |],
    (y_max st) as [d |]; try discriminate.
  destruct (axes st) as [[xa ya] |]; [| discriminate]. injection H as <-.
  cbn [get_span] in Hxspan, Hyspan. injection Hxspan as <-. injection Hyspan as <-.
  cbn [acc_min acc_max] in B1, B2, B3, B4.
  destruct B1 as [Ia Ma], B2 as [Ib Mb], B3 as [Ic Mc], B4 as [Id Md].
  destruct (in_map_record_good x0 recs a Hg Ia) as (ra & Ea & (Ga & _)).
  destruct (in_map_record_good x1 recs b Hg Ib) as (rb & Eb & (_ & Gb & _)).
  destruct (in_map_record_good y0 recs c Hg Ic) as (rc & Ec & (_ & _ & Gc & _)).
  destruct (in_map_record_good y1 recs d Hg Id) as (rd & Ed & (_ & _ & _ & Gd)).
  rewrite <- Ea in Ga. rewrite <- Eb in Gb. rewrite <- Ec in Gc. rewrite <- Ed in Gd.
  assert (Hab : (F2Q a <= F2Q b)%Q).
  { apply in_map_iff in Ia. destruct Ia as (r & _ & Hr).
    apply Qle_trans with (F2Q (x0 r)); [apply Ma, in_map, Hr |].
    apply Qle_trans with (F2Q (x1 r)); [apply (Hord r Hr) | apply Mb, in_map, Hr]. }
  assert (Hcd : (F2Q c <= F2Q d)%Q).
  { apply in_map_iff in Ic. destruct Ic as (r & _ & Hr).
    apply Qle_trans with (F2Q (y0 r)); [apply Mc, in_map, Hr |].
    apply Qle_trans with (F2Q (y1 r)); [apply (Hord r Hr) | apply Md, in_map, Hr]. }
  pose proof (sub_nonneg b a (proj1 Gb) (proj1 Ga) (proj2 Gb) (proj2 Ga)
                (F2Z_le_of_F2Q a b (proj1 (proj1 Ga)) (proj1 (proj1 Gb)) Hab)) as Nx.
  pose proof (sub_nonneg d c (proj1 Gd) (proj1 Gc) (proj2 Gd) (proj2 Gc)
                (F2Z_le_of_F2Q c d (proj1 (proj1 Gc)) (proj1 (proj1 Gd)) Hcd)) as Ny.
  pose proof (tick_distance_nonneg _ _ _ _
                (sub_good b a (proj1 Gb) (proj1 Ga) (proj2 Gb) (proj2 Ga)) Nx Hxs Hxt) as Tx.
  pose proof (tick_distance_nonneg _ _ _ _
                (sub_good d c (proj1 Gd) (proj1 Gc) (proj2 Gd) (proj2 Gc)) Ny Hys Hyt) as Ty.
  exists xt, yt.
  split; [reflexivity |]. split; [reflexivity |].
  split; [exact Tx |]. split; [exact Ty |].
  split; apply format_f_nonneg; assumption.
Qed.

Lemma ordered_records_ticks_nonnegative_witness :
  exists doc recs,
    generate_output_for_lines args_default default_styles (readlines two_regions)
      "in.regionresult" = Ok doc /\
    parse_records 0 (readlines two_regions) = Ok recs /\
    (forall r, In r recs ->
       (F2Q (x0 r) <= F2Q (x1 r))%Q /\ (F2Q (y0 r) <= F2Q (y1 r))%Q) /\
    0 < x_split args_default /\ 0 < y_split args_default /\
    exists xt yt,
      nth_error doc 9 = Some (Text (format_f 2 xt)) /\
      nth_error doc 11 = Some (Text (format_f 2 yt)) /\
      nonneg xt /\ nonneg yt /\
      (exists d rest, format_f 2 xt = String d rest /\ Str.is_digit d = true) /\
      (exists d rest, format_f 2 yt = String d rest /\ Str.is_digit d = true).
Proof.
  assert (H : { doc | generate_output_for_lines args_default default_styles
                        (readlines two_regions) "in.regionresult" = Ok doc })
    by (eexists; vm_compute; reflexivity).
  destruct H as [doc H].
  assert (R : { recs | parse_records 0 (readlines two_regions) = Ok recs /\
                       Forall (fun r => (F2Q (x0 r) <= F2Q (x1 r))%Q /\
                                        (F2Q (y0 r) <= F2Q (y1 r))%Q) recs }).
  { eexists. split; [vm_compute; reflexivity |].
    repeat constructor; vm_compute; discriminate. }
  destruct R as [recs [R Ho]].
  pose proof (proj1 (Forall_forall _ _) Ho) as Ho'.
  assert (Px : 0 < x_split args_default) by reflexivity.
  assert (Py : 0 < y_split args_default) by reflexivity.
  exists doc, recs.
  split; [exact H |]. split; [exact R |]. split; [exact Ho' |].
  split; [exact Px |]. split; [exact Py |].
  exact (ordered_records_ticks_nonnegative _ _ _ _ _ _ H R Ho' Px Py).
Defined.

(** * Facts about the arguments and the output paths *)

Module PathFacts.

Lemma digit_not_space c : Str.is_digit c = true -> Py.is_space c = false.
Proof.
  intros H. apply is_digit_value in H. unfold Py.is_space.
  destruct (Z.leb_spec 9 (Z.of_N (N_of_ascii c)));
    destruct (Z.leb_spec (Z.of_N (N_of_ascii c)) 13);
    destruct (Z.eqb_spec (Z.of_N (N_of_ascii c)) 32); try reflexivity; lia.
Qed.

Lemma rstrip_no_space s :
  Str.all (fun c => negb (Py.is_space c)) s = true -> Py.rstrip s = s.
Proof.
  induction s as [| c s IH]; [reflexivity |].
  cbn [Str.all Py.rstrip]. rewrite andb_true_iff, negb_true_iff. intros [Hc Hs].
  rewrite (IH Hs), Hc. destruct s; reflexivity.
Qed.

Lemma digits_no_space s : forall acc n,
  parse_digits_aux acc s = Some n -> Str.all (fun c => negb (Py.is_space c)) s = true.
Proof.
  induction s as [| c s IH]; intros acc n; simpl; [reflexivity |].
  destruct (Str.is_digit c) eqn:Hc; [| discriminate].
  intros H. rewrite (digit_not_space c Hc), (IH _ _ H). reflexivity.
Qed.

Lemma strip_digits s n : parse_digits s = Some n -> Py.strip s = s.
Proof.
  intros H. apply parse_digits_inv in H. destruct H as (Hne & _ & H).
  destruct s as [| c s]; [congruence |].
  pose proof (digits_no_space _ _ _ H) as Hall.
  unfold Py.strip. cbn [Py.lstrip].
  cbn [Str.all] in Hall. apply andb_true_iff in Hall. destruct Hall as [Hc Hs].
  apply negb_true_iff in Hc. rewrite Hc.
  apply rstrip_no_space. cbn [Str.all]. rewrite Hc, Hs. reflexivity.
Qed.

Lemma int_digits_of_digits s : forall acc b n,
  parse_digits_aux acc s = Some n -> s <> ""%string \/ b = true ->
  Py.int_digits acc b s = Some n.
Proof.
  induction s as [| c s IH]; intros acc b n; simpl.
  - intros [= <-] [H | ->]; [congruence | reflexivity].
  - destruct (Str.is_digit c) eqn:Hc; [| discriminate].
    intros H _. apply IH; [exact H | right; reflexivity].
Qed.

Lemma count_digits_of_digits s : forall acc n,
  parse_digits_aux acc s = Some n -> Py.count_digits s = String.length s.
Proof.
  induction s as [| c s IH]; intros acc n; simpl; [reflexivity |].
  destruct (Str.is_digit c) eqn:Hc; [| discriminate].
  intros H. rewrite (IH _ _ H). reflexivity.
Qed.

(** [int] of a string of digits that is not too long is the number they
    write. *)
Lemma int_of_digits s n : parse_digits s = Some n -> Py.int s = Some n.
Proof.
  intros H. unfold Py.int. rewrite (strip_digits s n H). cbv zeta.
  apply parse_digits_inv in H. destruct H as (Hne & Hlen & H).
  rewrite (count_digits_of_digits _ _ _ H).
  replace (int_max_str_digits <? Z.of_nat (String.length s)) with false
    by (symmetry; apply Z.ltb_ge; exact Hlen).
  destruct s as [| c s]; [congruence |].
  assert (Hc : Str.is_digit c = true).
  { cbn in H. destruct (Str.is_digit c); [reflexivity | discriminate]. }
  assert (E : Py.int_digits 0 false (String c s) = Some n).
  { apply int_digits_of_digits; [exact H | left; discriminate]. }
  destruct c as [[] [] [] [] [] [] [] []]; try discriminate Hc; exact E.
Qed.

Lemma drop_all (s : string) : Str.drop (String.length s) s = EmptyString.
Proof. induction s as [| c s IH]; [reflexivity | exact IH]. Qed.

Lemma drop_within : forall k (a b : string),
  (k <= String.length a)%nat -> Str.drop k (a ++ b) = (Str.drop k a ++ b)%string.
Proof.
  induction k as [| k IH]; intros a b Hk; [reflexivity |].
  destruct a as [| c a]; [simpl in Hk; lia |]. cbn [String.length] in Hk.
  rewrite append_cons. cbn [Str.drop]. apply IH. lia.
Qed.

Lemma length_drop : forall k (a : string),
  String.length (Str.drop k a) = (String.length a - k)%nat.
Proof.
  induction k as [| k IH]; intros a; [cbn; lia |].
  destruct a as [| c a]; [reflexivity |]. cbn [Str.drop String.length]. rewrite IH. lia.
Qed.

(** The last character of a path decides how [join] glues. *)
Lemma join_relative a b :
  a <> ""%string -> (forall r, b <> String "/" r) ->
  OsPath.join a b =
  match Str.drop (String.length a - 1) a with
  | String "/" EmptyString => (a ++ b)%string
  | _ => (a ++ "/" ++ b)%string
  end.
Proof.
  intros Ha Hb. unfold OsPath.join.
  destruct a as [| y a]; [congruence |].
  destruct b as [| x b]; [reflexivity |].
  assert (Hx : x <> "/"%char) by (intros ->; apply (Hb b); reflexivity).
  destruct x as [[] [] [] [] [] [] [] []]; try reflexivity. congruence.
Qed.

Lemma drop_to_last d c :
  Str.drop (String.length (d ++ String c "") - 1) (d ++ String c "") = String c "".
Proof.
  rewrite length_append. cbn [String.length].
  replace (String.length d + 1 - 1)%nat with (String.length d) by lia.
  apply drop_append.
Qed.

Lemma join_after_slash d b :
  (forall r, b <> String "/" r) ->
  OsPath.join (d ++ "/") b = (d ++ "/" ++ b)%string.
Proof.
  intros Hb. rewrite join_relative; [| destruct d; discriminate | exact Hb].
  rewrite (drop_to_last d "/"). rewrite append_assoc. reflexivity.
Qed.

Lemma join_after_other d c b :
  c <> "/"%char -> (forall r, b <> String "/" r) ->
  OsPath.join (d ++ String c "") b = (d ++ String c "" ++ "/" ++ b)%string.
Proof.
  intros Hc Hb. rewrite join_relative; [| destruct d; discriminate | exact Hb].
  rewrite (drop_to_last d c).
  destruct c as [[] [] [] [] [] [] [] []]; try (rewrite append_assoc; reflexivity).
  congruence.
Qed.

Lemma rfind_append_none c a b :
  none_of (fun x => Ascii.eqb x c) b = true ->
  Text.rfind c (a ++ b) = Text.rfind c a.
Proof.
  intros Hb. induction a as [| x a IH].
  - change ("" ++ b)%string with b. rewrite (rfind_none c b Hb). reflexivity.
  - rewrite append_cons. cbn [Text.rfind]. rewrite IH. reflexivity.
Qed.

Lemma rfind_bound c : forall s i, Text.rfind c s = Some i -> (i < String.length s)%nat.
Proof.
  induction s as [| x s IH]; intros i; cbn [Text.rfind String.length]; [discriminate |].
  destruct (Text.rfind c s) as [j |].
  - intros [= <-]. specialize (IH j eq_refl). lia.
  - destruct (Ascii.eqb x c); [intros [= <-]; lia | discriminate].
Qed.

Lemma has_non_dot_append a b :
  OsPath.has_non_dot b = true -> OsPath.has_non_dot (a ++ b) = true.
Proof.
  intros Hb. induction a as [| c a IH]; [exact Hb |].
  rewrite append_cons. cbn [OsPath.has_non_dot]. rewrite IH. apply orb_true_r.
Qed.

(** The extension of a path that ends with a file name [base.ext]. *)
Lemma splitext_of_name d base ext :
  none_of (fun c => Ascii.eqb c "/") base = true ->
  OsPath.has_non_dot base = true ->
  none_of (fun c => Ascii.eqb c "/" || Ascii.eqb c ".") ext = true ->
  OsPath.splitext (d ++ base ++ "." ++ ext)
  = ((d ++ base)%string, ("." ++ ext)%string).
Proof.
  intros Nb Hb Ne.
  assert (Ne1 : none_of (fun x => Ascii.eqb x ".") ext = true).
  { apply (none_of_weaken (fun c => Ascii.eqb c "/" || Ascii.eqb c ".") _ _); [| exact Ne].
    intros c H. rewrite H. apply orb_true_r. }
  assert (Ne2 : none_of (fun x => Ascii.eqb x "/") ext = true).
  { apply (none_of_weaken (fun c => Ascii.eqb c "/" || Ascii.eqb c ".") _ _); [| exact Ne].
    intros c H. rewrite H. reflexivity. }
  unfold OsPath.splitext.
  assert (Edot : Text.rfind "." (d ++ base ++ "." ++ ext) = Some (String.length (d ++ base))).
  { rewrite <- append_assoc. exact (rfind_last "." (d ++ base) ext Ne1). }
  rewrite Edot.
  assert (Esep : Text.rfind "/" (d ++ base ++ "." ++ ext) = Text.rfind "/" d).
  { apply rfind_append_none. apply none_of_append; [exact Nb |].
    apply none_of_append; [reflexivity | exact Ne2]. }
  rewrite Esep.
  set (fi := match Text.rfind "/" d with
             | Some sepIndex => S sepIndex
             | None => O
             end).
  assert (Hfi : (fi <= String.length d)%nat).
  { unfold fi. destruct (Text.rfind "/" d) as [i |] eqn:E; [| lia].
    pose proof (rfind_bound _ _ _ E). lia. }
  rewrite length_append.
  replace (fi <=? String.length d + String.length base)%nat with true
    by (symmetry; apply Nat.leb_le; lia).
  rewrite (drop_within fi d _ Hfi).
  assert (Et : Str.take (String.length d + String.length base - fi)
                 (Str.drop fi d ++ base ++ "." ++ ext)
               = (Str.drop fi d ++ base)%string).
  { rewrite <- append_assoc.
    replace (String.length d + String.length base - fi)%nat
      with (String.length (Str.drop fi d ++ base))
      by (rewrite length_append, length_drop; lia).
    apply take_append. }
  rewrite Et, (has_non_dot_append _ _ Hb). cbn [andb].
  rewrite <- length_append, <- append_assoc.
  rewrite take_append, drop_append. reflexivity.
Qed.

Lemma suffix_by_drop (s mask : string) :
  Str.drop (String.length s - String.length mask) s = mask <->
  exists base, s = (base ++ mask)%string.
Proof.
  split.
  - intros H. set (k := (String.length s - String.length mask)%nat) in *.
    exists (Str.take k s). rewrite <- H. symmetry. apply take_drop.
  - intros [base ->]. rewrite length_append.
    replace (String.length base + String.length mask - String.length mask)%nat
      with (String.length base) by lia.
    apply drop_append.
Qed.

End PathFacts.

Import PathFacts.

(** X9.  For a string of digits that [int] converts (at most
    [int_max_str_digits] = 4300 digits, which is what [parse_digits]
    accepts) [positive_int] gives the number they write, leading zeros
    allowed, unless that number is zero: then the argument is refused with
    the message "... is not a positive integer". *)
Theorem positive_int_of_digits (value : string) (n : Z) :
  parse_digits value = Some n ->
  positive_int value =
  if n =? 0
  then ArgumentTypeError [Text (value ++ " is not a positive integer")%string]
  else Accepted n.
Proof.
  intros H. unfold positive_int. rewrite (int_of_digits value n H).
  pose proof (parse_digits_nonneg _ _ H) as Hn.
  destruct (Z.eqb_spec n 0) as [-> | Hz]; [reflexivity |].
  replace (n <=? 0) with false by (symmetry; apply Z.leb_gt; lia). reflexivity.
Qed.

Lemma positive_int_of_digits_witness :
  parse_digits "007" = Some 7 /\ positive_int "007" = Accepted 7.
Proof.
  assert (H : parse_digits "007" = Some 7) by reflexivity.
  split; [exact H |]. exact (positive_int_of_digits "007" 7 H).
Defined.

(** X10.  With split counts that [positive_int] accepted, the tick
    distances never divide by zero: once the loop has gone through the
    lines, the generator does not end with [ZeroDivisionError]. *)
Theorem accepted_splits_never_divide_by_zero
    (args : Args) (graph_styles : gmap string string)
    (lines : list string) (name : string) (sx sy : string) (st : loop_state) :
  positive_int sx = Accepted (x_split args) ->
  positive_int sy = Accepted (y_split args) ->
  loop args graph_styles initial_state 0 lines = Ok st ->
  generate_output_for_lines args graph_styles lines name <> Raise ZeroDivisionError.
Proof.
  unfold positive_int. intros Hx Hy Hloop.
  destruct (Py.int sx) as [ix |]; [| discriminate].
  destruct (Z.leb_spec ix 0); [discriminate |]. injection Hx as Hx.
  destruct (Py.int sy) as [iy |]; [| discriminate].
  destruct (Z.leb_spec iy 0); [discriminate |]. injection Hy as Hy.
  unfold generate_output_for_lines. rewrite Hloop. cbn [bind].
  destruct (get_span (x_min st) (x_max st)) as [xs |] eqn:Exs; cbn [bind];
    [| unfold get_span in Exs; destruct (x_max st), (x_min st); congruence].
  destruct (get_span (y_min st) (y_max st)) as [ys |] eqn:Eys; cbn [bind];
    [| unfold get_span in Eys; destruct (y_max st), (y_min st); congruence].
  destruct (tick_distance xs _ _) as [xt | e] eqn:Ex; cbn [bind].
  - destruct (tick_distance ys _ _) as [yt | e] eqn:Ey; cbn [bind].
    + destruct (x_min st), (x_max st), (y_min st), (y_max st), (axes st) as [[? ?] |];
        discriminate.
    + destruct (tick_distance_error _ _ _ _ Ey) as [[? _] | [_ ->]]; [lia | discriminate].
  - destruct (tick_distance_error _ _ _ _ Ex) as [[? _] | [_ ->]]; [lia | discriminate].
Qed.

Lemma accepted_splits_never_divide_by_zero_witness :
  exists st,
    positive_int "5" = Accepted (x_split args_default) /\
    positive_int "5" = Accepted (y_split args_default) /\
    loop args_default default_styles initial_state 0 (readlines one_region) = Ok st /\
    generate_output_for_lines args_default default_styles (readlines one_region)
      "in.regionresult" <> Raise ZeroDivisionError.
Proof.
  assert (H : { st | loop args_default default_styles initial_state 0
                       (readlines one_region) = Ok st })
    by (eexists; vm_compute; reflexivity).
  destruct H as [st H]. exists st.
  assert (P : positive_int "5" = Accepted (x_split args_default)) by reflexivity.
  assert (Q : positive_int "5" = Accepted (y_split args_default)) by reflexivity.
  split; [exact P |]. split; [exact Q |]. split; [exact H |].
  exact (accepted_splits_never_divide_by_zero args_default default_styles _
           "in.regionresult" "5" "5" st P Q H).
Defined.

(** X11.  When the input directory and the output directory are written
    with a closing "/", the output directory of a directory below the
    input directory (and of the input directory itself, [rel] empty) is
    the output directory followed by the same relative path. *)
Theorem output_dir_mirrors_input_dir (cli : Cli) (i o rel : string) :
  input_dir cli = (i ++ "/")%string -> output_dir cli = (o ++ "/")%string ->
  (forall r, rel <> String "/" r) ->
  get_output_dir_for_input_subdir cli (input_dir cli ++ rel)
  = (output_dir cli ++ rel)%string.
Proof.
  intros Hi Ho Hrel. unfold get_output_dir_for_input_subdir.
  rewrite drop_append, Ho, (join_after_slash o rel Hrel), append_assoc. reflexivity.
Qed.

Lemma output_dir_mirrors_input_dir_witness :
  input_dir (mkCli None "./input/" "./output/" "tex" false) = ("./input" ++ "/")%string /\
  output_dir (mkCli None "./input/" "./output/" "tex" false) = ("./output" ++ "/")%string /\
  get_output_dir_for_input_subdir (mkCli None "./input/" "./output/" "tex" false)
    ("./input/" ++ "run/a")
  = "./output/run/a"%string.
Proof.
  assert (Hi : input_dir (mkCli None "./input/" "./output/" "tex" false)
               = ("./input" ++ "/")%string) by reflexivity.
  assert (Ho : output_dir (mkCli None "./input/" "./output/" "tex" false)
               = ("./output" ++ "/")%string) by reflexivity.
  assert (Hr : forall r, "run/a"%string <> String "/" r) by (intros r; discriminate).
  split; [exact Hi |]. split; [exact Ho |].
  exact (output_dir_mirrors_input_dir _ "./input" "./output" "run/a" Hi Ho Hr).
Defined.

(** X12.  When the input directory is written without a closing "/", the
    output directory of a directory below it is not under the output
    directory: it is the absolute path "/" followed by the relative path,
    whatever the output directory. *)
Theorem output_dir_without_closing_slash (cli : Cli) (i : string) (c : ascii) (rel : string) :
  input_dir cli = (i ++ String c "")%string -> c <> "/"%char ->
  (forall r, rel <> String "/" r) ->
  get_output_dir_for_input_subdir cli (OsPath.join (input_dir cli) rel)
  = ("/" ++ rel)%string.
Proof.
  intros Hi Hc Hrel. unfold get_output_dir_for_input_subdir.
  assert (J : OsPath.join (input_dir cli) rel = (input_dir cli ++ "/" ++ rel)%string).
  { rewrite Hi, (join_after_other i c rel Hc Hrel), append_assoc. reflexivity. }
  rewrite J, drop_append. reflexivity.
Qed.

Lemma output_dir_without_closing_slash_witness :
  input_dir (mkCli None "input" "./output/" "tex" false) = ("inpu" ++ String "t" "")%string /\
  OsPath.join "input" "run" = "input/run"%string /\
  get_output_dir_for_input_subdir (mkCli None "input" "./output/" "tex" false)
    (OsPath.join "input" "run")
  = "/run"%string.
Proof.
  assert (Hi : input_dir (mkCli None "input" "./output/" "tex" false)
               = ("inpu" ++ String "t" "")%string) by reflexivity.
  assert (Hc : "t"%char <> "/"%char) by discriminate.
  assert (Hr : forall r, "run"%string <> String "/" r) by (intros r; discriminate).
  split; [exact Hi |]. split; [reflexivity |].
  exact (output_dir_without_closing_slash _ "inpu" "t" "run" Hi Hc Hr).
Defined.

(** X13.  The output file of an input file mirrors its place: for a file
    [base.regionresult] at the relative place [sub] after the prefix that
    is cut off (the input directory as it is written or, in a recursive
    scan, as [Path] writes it), the output file is the output directory,
    [sub], [base], a dot and the output extension in lower case.  The
    output directory is glued by plain concatenation. *)
Theorem output_file_mirrors_input_file (cli : Cli) (sub base : string) :
  none_of (fun c => Ascii.eqb c "/") base = true ->
  OsPath.has_non_dot base = true ->
  get_output_file_for_input_file cli
    ((if recursive cli && negb (truthy (file cli))
      then OsPath.str_of_Path (input_dir cli) else input_dir cli)
     ++ sub ++ base ++ input_file_mask)
  = (output_dir cli ++ sub ++ base ++ "." ++ Py.str_lower (output_extension cli))%string.
Proof.
  intros Nb Hb. unfold get_output_file_for_input_file.
  assert (E : forall prefix,
             OsPath.splitext (output_dir cli
                              ++ Str.drop (String.length prefix)
                                   (prefix ++ sub ++ base ++ input_file_mask))
             = ((output_dir cli ++ sub ++ base)%string, input_file_mask)).
  { intros prefix. rewrite drop_append.
    pose proof (splitext_of_name (output_dir cli ++ sub) base "regionresult" Nb Hb eq_refl)
      as S.
    rewrite !append_assoc in S. exact S. }
  destruct (recursive cli && negb (truthy (file cli))); rewrite E; cbn [fst];
    rewrite !append_assoc; reflexivity.
Qed.

Lemma output_file_mirrors_input_file_witness :
  none_of (fun c => Ascii.eqb c "/") "run_1" = true /\
  OsPath.has_non_dot "run_1" = true /\
  get_output_file_for_input_file (mkCli None "./input/" "./output/" "TeX" true)
    ("input" ++ "/a/" ++ "run_1" ++ ".regionresult")
  = "./output//a/run_1.tex"%string.
Proof.
  assert (H1 : none_of (fun c => Ascii.eqb c "/") "run_1" = true) by reflexivity.
  assert (H2 : OsPath.has_non_dot "run_1" = true) by reflexivity.
  split; [exact H1 |]. split; [exact H2 |].
  exact (output_file_mirrors_input_file (mkCli None "./input/" "./output/" "TeX" true)
           "/a/" "run_1" H1 H2).
Defined.

(** In a recursive scan of the current directory the paths found do not
    start with the "." that [Path] writes for it, and the first character
    of the file name is cut off. *)
Example output_file_in_current_directory :
  OsPath.str_of_Path "./" = "."%string /\
  get_output_file_for_input_file (mkCli None "./" "./output/" "tex" true)
    "abc.regionresult" = "./output/bc.tex"%string.
Proof. split; reflexivity. Qed.

(** X14.  In a scan that is not recursive a name of the input directory is
    taken exactly when its path is a regular file and the name ends with
    ".regionresult"; the name ".regionresult" itself is taken. *)
Theorem non_recursive_file_condition_spec
    (isfile : string -> bool) (input_dir file_name : string) :
  non_recursive_file_condition isfile input_dir file_name = true <->
  isfile (OsPath.join input_dir file_name) = true /\
  exists base, file_name = (base ++ ".regionresult")%string.
Proof.
  unfold non_recursive_file_condition.
  rewrite andb_true_iff, String.eqb_eq.
  rewrite (suffix_by_drop file_name input_file_mask). reflexivity.
Qed.

(** X15.  When a style file is named and cannot be read, the built-in
    styles are not loaded: the variable of the styles stays [None], and
    the conversion of every input raises, whatever its text. *)
Theorem unreadable_style_file_blocks_conversion
    (styles : string) (args : Args) (text name : string) :
  styles <> ""%string ->
  load_graph_styles styles StylesUnreadable = None /\
  exists e,
    generate_output args (load_graph_styles styles StylesUnreadable) text name = Raise e.
Proof.
  intros Hs.
  assert (E : load_graph_styles styles StylesUnreadable = None).
  { unfold load_graph_styles. destruct styles; [congruence | reflexivity]. }
  split; [exact E |]. rewrite E. unfold generate_output.
  destruct (loop_without_styles 0 (readlines text)) as [u | e]; cbn [bind get_span]; eauto.
Qed.

Lemma unreadable_style_file_blocks_conversion_witness :
  "./styles/default.json"%string <> ""%string /\
  load_graph_styles "./styles/default.json" StylesUnreadable = None /\
  exists e,
    generate_output args_default
      (load_graph_styles "./styles/default.json" StylesUnreadable)
      one_region "in.regionresult" = Raise e.
Proof.
  assert (H : "./styles/default.json"%string <> ""%string) by discriminate.
  split; [exact H |].
  exact (unreadable_style_file_blocks_conversion "./styles/default.json" args_default
           one_region "in.regionresult" H).
Defined.

(** With the default style argument and a style file that cannot be read,
    a well-formed region raises [TypeError]; with an empty style argument
    the built-in styles convert it. *)
Example styles_examples :
  generate_output args_default (load_graph_styles "./styles/default.json" StylesUnreadable)
    one_region "in.regionresult" = Raise TypeError /\
  load_graph_styles "" StylesUnreadable = Some default_styles /\
  exists doc,
    generate_output args_default (load_graph_styles "" StylesUnreadable)
      one_region "in.regionresult" = Ok doc.
Proof.
  split; [vm_compute; reflexivity |]. split; [reflexivity |].
  eexists. vm_compute. reflexivity.
Qed.

(** * Facts about the scan and the conversions *)

Module ScriptFacts.

Section ScanFacts.

Variable cli : Cli.
Variable sel : Selection.
Variable files : gmap string string.
Variable isfile : string -> bool.
Variable getmtime : string -> spec_float.

Lemma skip_reason_none p out :
  skip_reason sel isfile getmtime p out = None ->
  all sel = false -> isfile out = true ->
  no_overwrite sel = false /\ Float.lt (getmtime p) (getmtime out) = false.
Proof.
  unfold skip_reason. intros H Ha Hf. rewrite Ha, Hf in H. cbn [negb] in H.
  destruct (no_overwrite sel); [discriminate |].
  destruct (Float.lt (getmtime p) (getmtime out)); [discriminate | auto].
Qed.

(** The scan keeps the files in the order it is given them, and what
    [kept_by_scan] says holds of each. *)
Lemma filter_paths_kept paths : forall s s' r,
  filter_paths cli sel files isfile getmtime paths s = (s', r) ->
  (forall p, In p (filtered_paths s) -> kept_by_scan cli sel files isfile getmtime s p) ->
  (forall p, In p (filtered_paths s') -> kept_by_scan cli sel files isfile getmtime s' p) /\
  exists l, filtered_paths s' = filtered_paths s ++ l /\ sublist l paths.
Proof.
  induction paths as [| p rest IH]; intros s s' r; cbn [filter_paths].
  - intros [= <- <-] Hs. split; [exact Hs |]. exists []. rewrite app_nil_r.
    split; [reflexivity | constructor].
  - intros H Hs.
    destruct (files !! p) as [text |] eqn:Ef.
    + destruct (skip_reason sel isfile getmtime p (get_output_file_for_input_file cli p))
        as [e |] eqn:Es.
      * destruct (IH _ _ _ H) as (K & l & El & Sl); [exact Hs |].
        split; [exact K |]. exists l. split; [exact El | apply sublist_cons; exact Sl].
      * destruct (line_limit sel <? Z.of_nat (List.length (readlines text))) eqn:El.
        -- destruct (IH _ _ _ H) as (K & l & El' & Sl); [exact Hs |].
           split; [exact K |]. exists l. split; [exact El' | apply sublist_cons; exact Sl].
        -- destruct (IH _ _ _ H) as (K & l & El' & Sl).
           { cbn [filtered_paths]. intros q Hq. apply in_app_or in Hq.
             unfold kept_by_scan. cbn [output_file_paths].
             destruct (String.eqb_spec q p) as [-> | Hne].
             - split; [apply lookup_insert_eq |].
               exists text. split; [exact Ef |]. split; [| exact (skip_reason_none _ _ Es)].
               apply Z.ltb_ge in El. exact El.
             - destruct Hq as [Hq | [Hq | []]]; [| congruence].
               destruct (Hs q Hq) as (Q2 & Q3).
               split; [| exact Q3].
               rewrite lookup_insert_ne by congruence. exact Q2. }
           split; [exact K |]. cbn [filtered_paths] in El'.
           exists (p :: l). split; [rewrite El', <- app_assoc; reflexivity |].
           apply sublist_skip. exact Sl.
    + injection H as <- <-. split; [exact Hs |]. exists []. rewrite app_nil_r.
      split; [reflexivity | apply sublist_nil_l].
Qed.

Lemma skip_reason_with_all p out :
  all sel = true -> skip_reason sel isfile getmtime p out = None.
Proof. intros H. unfold skip_reason. rewrite H. reflexivity. Qed.

Lemma filter_paths_with_all paths : forall s,
  all sel = true ->
  (forall p, In p paths -> files !! p <> None) ->
  exists s',
    filter_paths cli sel files isfile getmtime paths s = (s', None) /\
    filtered_paths s' =
    filtered_paths s ++
    List.filter (fun p => match files !! p with
                          | Some text =>
                              Z.of_nat (List.length (readlines text)) <=? line_limit sel
                          | None => false
                          end) paths.
Proof.
  induction paths as [| p rest IH]; intros s Hall Hr; cbn [filter_paths List.filter].
  - exists s. rewrite app_nil_r. auto.
  - assert (Hrest : forall q, In q rest -> files !! q <> None)
      by (intros q Hq; apply Hr; right; exact Hq).
    destruct (files !! p) as [text |] eqn:Ef;
      [| exfalso; apply (Hr p); [left; reflexivity | exact Ef]].
    rewrite (skip_reason_with_all p _ Hall).
    rewrite Z.leb_antisym.
    destruct (line_limit sel <? Z.of_nat (List.length (readlines text))); cbn [negb].
    + destruct (IH (mkScan (filtered_paths s) (output_file_paths s) true
                      (show_if true (SkippedTooLarge p (List.length (readlines text)))
                         (scan_shown s))) Hall Hrest) as (s' & E & F).
      exists s'. auto.
    + destruct (IH (mkScan (filtered_paths s ++ [p])
                      (<[ p := Some (get_output_file_for_input_file cli p) ]>
                         (output_file_paths s))
                      (skipped_too_large_file s) (scan_shown s)) Hall Hrest) as (s' & E & F).
      exists s'. split; [exact E |]. rewrite F. cbn [filtered_paths].
      rewrite <- app_assoc. reflexivity.
Qed.

End ScanFacts.

Section ConversionFacts.

Variable args : Args.
Variable graph_styles : option (gmap string string).
Variable output_to_std : bool.
Variable paths_out : gmap string (option string).
Variable repr : spec_float -> string.
Variable try_write : world -> string -> string -> write_outcome.

(** What one iteration does to the files. *)
Lemma convert_file_files w p w' r :
  convert_file args graph_styles output_to_std paths_out repr try_write w p = (w', r) ->
  world_files w' = world_files w \/
  (output_to_std = false /\ r = None /\
   exists text doc out content,
     world_files w !! p = Some text /\
     generate_output args graph_styles text p = Ok doc /\
     paths_out !! p = Some (Some out) /\
     world_files w' = <[ out := content ]> (world_files w) /\
     holds_written try_write (Some content) out (render repr doc)).
Proof.
  unfold convert_file.
  destruct output_to_std eqn:Estd; cbn [negb andb].
  - destruct (world_files w !! p) as [text |].
    + destruct (generate_output args graph_styles text p);
        intros [= <- <-]; left; reflexivity.
    + destruct (spinner w); intros [= <- <-]; left; reflexivity.
  - destruct (spinner w); cbn [negb]; [| intros [= <- <-]; left; reflexivity].
    cbn [world_files spinner].
    destruct (world_files w !! p) as [text |] eqn:Ef;
      [| intros [= <- <-]; left; reflexivity].
    destruct (generate_output args graph_styles text p) as [doc | e] eqn:Eg;
      [| intros [= <- <-]; left; reflexivity].
    destruct (paths_out !! p) as [[out |] |] eqn:Eo;
      try (intros [= <- <-]; left; reflexivity).
    destruct (try_write _ out (render repr doc)) as [| | n] eqn:Ew; intros [= <- <-];
      [| left; reflexivity |].
    + right. split; [reflexivity |]. split; [reflexivity |].
      exists text, doc, out, (render repr doc).
      split; [auto |]. split; [auto |]. split; [auto |].
      split; [reflexivity |]. left. reflexivity.
    + right. split; [reflexivity |]. split; [reflexivity |].
      exists text, doc, out, (Str.take n (render repr doc)).
      split; [auto |]. split; [auto |]. split; [auto |].
      split; [reflexivity |]. right. eexists n, _. split; [exact Ew | reflexivity].
Qed.

Lemma convert_files_app l1 : forall w l2,
  convert_files args graph_styles output_to_std paths_out repr try_write w (l1 ++ l2) =
  match convert_files args graph_styles output_to_std paths_out repr try_write w l1 with
  | (w1, None) => convert_files args graph_styles output_to_std paths_out repr try_write w1 l2
  | (w1, Some e) => (w1, Some e)
  end.
Proof.
  induction l1 as [| p l1 IH]; intros w l2; cbn [app convert_files]; [reflexivity |].
  destruct (convert_file args graph_styles output_to_std paths_out repr try_write w p) as [w1 [e |]]; [reflexivity | apply IH].
Qed.

(** The exceptions of one iteration. *)
Lemma convert_file_exception w p w' e :
  convert_file args graph_styles output_to_std paths_out repr try_write w p = (w', Some e) ->
  (exists text ce, world_files w !! p = Some text /\
                   generate_output args graph_styles text p = Raise ce /\
                   e = ConversionError ce) \/
  (e = NameError /\ spinner w = false) \/
  (e = KeyError /\ output_to_std = false /\ paths_out !! p = None) \/
  (e = PathTypeError /\ output_to_std = false /\ paths_out !! p = Some None).
Proof.
  unfold convert_file.
  destruct output_to_std eqn:Estd; cbn [negb andb].
  - destruct (world_files w !! p) as [text |] eqn:Ef.
    + destruct (generate_output args graph_styles text p) as [doc | ce] eqn:Eg;
        intros [= <- <-]. left. exists text, ce. auto.
    + destruct (spinner w) eqn:Es; intros [= <- <-]. auto.
  - destruct (spinner w) eqn:Es; cbn [negb]; [| intros [= <- <-]; auto].
    cbn [world_files spinner].
    destruct (world_files w !! p) as [text |] eqn:Ef; [| intros [= <- <-]].
    destruct (generate_output args graph_styles text p) as [doc | ce] eqn:Eg;
      [| intros [= <- <-]; left; exists text, ce; auto].
    destruct (paths_out !! p) as [[out |] |] eqn:Eo;
      [| intros [= <- <-]; auto 6 | intros [= <- <-]; auto 6].
    destruct (try_write _ out (render repr doc)); intros [= <- <-].
Qed.

Lemma convert_file_spinner w p w' :
  convert_file args graph_styles output_to_std paths_out repr try_write w p = (w', None) -> output_to_std = false -> spinner w' = true.
Proof.
  unfold convert_file. intros H ->. cbn [negb andb] in H.
  destruct (spinner w); cbn [negb] in H; [| discriminate].
  cbn [world_files spinner] in H.
  destruct (world_files w !! p) as [text |]; [| injection H as <-; reflexivity].
  destruct (generate_output args graph_styles text p); [| discriminate].
  destruct (paths_out !! p) as [[out |] |]; try discriminate.
  destruct (try_write _ out _); injection H as <-; reflexivity.
Qed.

Lemma convert_files_exception paths : forall w w' e,
  convert_files args graph_styles output_to_std paths_out repr try_write w paths = (w', Some e) ->
  (exists ce, e = ConversionError ce) \/
  (e = NameError /\ (output_to_std = true \/ spinner w = false)) \/
  (output_to_std = false /\
   exists p, In p paths /\
             ((e = KeyError /\ paths_out !! p = None) \/
              (e = PathTypeError /\ paths_out !! p = Some None))).
Proof.
  induction paths as [| p rest IH]; intros w w' e; cbn [convert_files]; [discriminate |].
  destruct (convert_file args graph_styles output_to_std paths_out repr try_write w p) as [w1 [e1 |]] eqn:E1.
  - intros [= <- <-].
    destruct (convert_file_exception _ _ _ _ E1)
      as [(text & ce & _ & _ & ->) | [[-> Hs] | [(-> & Hstd & Hk) | (-> & Hstd & Hk)]]].
    + left. eauto.
    + right; left. auto.
    + right; right. split; [exact Hstd |]. exists p. split; [left; reflexivity | auto].
    + right; right. split; [exact Hstd |]. exists p. split; [left; reflexivity | auto].
  - intros H. destruct (IH _ _ _ H) as [Hc | [[-> Hn] | (Hstd & q & Hq & Hk)]].
    + left. exact Hc.
    + right; left. split; [reflexivity |].
      destruct Hn as [Hn | Hn]; [left; exact Hn |].
      destruct (Bool.bool_dec output_to_std true) as [Ht | Hf]; [left; exact Ht |].
      apply Bool.not_true_is_false in Hf.
      rewrite (convert_file_spinner _ _ _ E1 Hf) in Hn. discriminate.
    + right; right. split; [exact Hstd |]. exists q. split; [right; exact Hq | exact Hk].
Qed.

(** A file changes only by a write of the document of an input file
    whose output path it is; when no output is one of the inputs, that
    document is the one of the text the input held before the loop. *)
Lemma convert_files_files paths : forall w w' r,
  outputs_apart paths_out paths ->
  convert_files args graph_styles output_to_std paths_out repr try_write w paths = (w', r) ->
  forall q,
    world_files w' !! q = world_files w !! q \/
    (output_to_std = false /\
     exists p text doc,
       In p paths /\ paths_out !! p = Some (Some q) /\
       world_files w !! p = Some text /\
       generate_output args graph_styles text p = Ok doc /\
       holds_written try_write (world_files w' !! q) q (render repr doc)).
Proof.
  induction paths as [| p rest IH]; intros w w' r Hapart; cbn [convert_files].
  - intros [= <- <-] q. left. reflexivity.
  - assert (Hrest : outputs_apart paths_out rest).
    { intros p0 q0 Hp0 Ho Hq0. apply (Hapart p0 q0); [right; exact Hp0 | exact Ho |].
      right. exact Hq0. }
    destruct (convert_file args graph_styles output_to_std paths_out repr try_write w p)
      as [w1 [e1 |]] eqn:E1.
    + intros [= <- <-] q.
      destruct (convert_file_files _ _ _ _ E1) as [-> | (_ & ? & _)];
        [left; reflexivity | discriminate].
    + intros H q.
      destruct (convert_file_files _ _ _ _ E1)
        as [E | (Hstd & _ & text & doc & out & content & Hf & Hg & Ho & E & Hw)].
      * destruct (IH _ _ _ Hrest H q)
          as [Hq | (Hstd & p' & text & doc & Hp & Ho & Hf & Hg & Hw)].
        -- left. rewrite Hq, E. reflexivity.
        -- right. split; [exact Hstd |]. exists p', text, doc.
           split; [right; exact Hp |]. split; [exact Ho |].
           split; [rewrite <- E; exact Hf |]. split; [exact Hg | exact Hw].
      * assert (Hout : ~ In out (p :: rest))
          by (apply (Hapart p out); [left; reflexivity | exact Ho]).
        destruct (IH _ _ _ Hrest H q)
          as [Hq | (_ & p' & text' & doc' & Hp & Ho' & Hf' & Hg' & Hw')].
        -- destruct (String.eqb_spec out q) as [<- | Hne].
           ++ right. split; [exact Hstd |]. exists p, text, doc.
              split; [left; reflexivity |]. split; [exact Ho |].
              split; [exact Hf |]. split; [exact Hg |].
              rewrite Hq, E, lookup_insert_eq. exact Hw.
           ++ left. rewrite Hq, E. apply lookup_insert_ne. exact Hne.
        -- right. split; [exact Hstd |]. exists p', text', doc'.
           split; [right; exact Hp |]. split; [exact Ho' |].
           split; [| split; [exact Hg' | exact Hw']].
           rewrite E, lookup_insert_ne in Hf'; [exact Hf' |].
           intros ->. apply Hout. right. exact Hp.
Qed.

End ConversionFacts.

End ScriptFacts.

Import ScriptFacts.

(** X16.  The scan of the input directory keeps files in the order it
    finds them, and of every file it keeps: the output path is recorded
    under the path of the file, the file can be read, it has no more lines
    than the line limit and, unless all files are asked for, an output
    that exists is neither protected from overwriting nor newer than the
    file. *)
Theorem scan_keeps_checked_files
    (cli : Cli) (sel : Selection) (files : gmap string string)
    (isfile : string -> bool) (getmtime : string -> spec_float)
    (paths : list string) (s : scan) (r : option script_exn) :
  filter_paths cli sel files isfile getmtime paths empty_scan = (s, r) ->
  sublist (filtered_paths s) paths /\
  forall p, In p (filtered_paths s) -> kept_by_scan cli sel files isfile getmtime s p.
Proof.
  intros H.
  destruct (filter_paths_kept cli sel files isfile getmtime paths empty_scan s r H)
    as (K & l & El & Sl); [intros p [] |].
  cbn [filtered_paths empty_scan app] in El. rewrite El. split; [exact Sl |].
  intros p Hp. apply K. rewrite El. exact Hp.
Qed.

Lemma scan_keeps_checked_files_witness :
  exists s r,
    filter_paths cli_default selection_default two_files (fun _ => false)
      (fun _ => S754_zero false)
      ["./input/a.regionresult"; "./input/b.regionresult"]%string empty_scan = (s, r) /\
    filtered_paths s = ["./input/a.regionresult"; "./input/b.regionresult"]%string /\
    sublist (filtered_paths s) ["./input/a.regionresult"; "./input/b.regionresult"]%string /\
    forall p, In p (filtered_paths s) ->
      kept_by_scan cli_default selection_default two_files (fun _ => false)
        (fun _ => S754_zero false) s p.
Proof.
  assert (H : { sr : scan * option script_exn |
                filter_paths cli_default selection_default two_files (fun _ => false)
                  (fun _ => S754_zero false)
                  ["./input/a.regionresult"; "./input/b.regionresult"]%string empty_scan
                = sr /\
                filtered_paths (fst sr)
                = ["./input/a.regionresult"; "./input/b.regionresult"]%string })
    by (eexists; split; [reflexivity | vm_compute; reflexivity]).
  destruct H as [[s r] [H F]]. cbn [fst] in F. exists s, r.
  split; [exact H |]. split; [exact F |].
  exact (scan_keeps_checked_files _ _ _ _ _ _ _ _ H).
Defined.

(** X17.  When all files are asked for and every file found can be read,
    the scan ends without an error and keeps exactly the files with no
    more lines than the line limit, whether they have an output or not. *)
Theorem scan_of_all_files
    (cli : Cli) (sel : Selection) (files : gmap string string)
    (isfile : string -> bool) (getmtime : string -> spec_float) (paths : list string) :
  all sel = true ->
  (forall p, In p paths -> files !! p <> None) ->
  exists s,
    filter_paths cli sel files isfile getmtime paths empty_scan = (s, None) /\
    filtered_paths s =
    List.filter (fun p => match files !! p with
                          | Some text =>
                              Z.of_nat (List.length (readlines text)) <=? line_limit sel
                          | None => false
                          end) paths.
Proof.
  intros Hall Hr.
  exact (filter_paths_with_all cli sel files isfile getmtime paths empty_scan Hall Hr).
Qed.

Lemma scan_of_all_files_witness :
  all (mkSelection true true 1 false) = true /\
  exists s,
    filter_paths cli_default (mkSelection true true 1 false) two_files (fun _ => true)
      (fun _ => S754_zero false)
      ["./input/a.regionresult"; "./input/b.regionresult"]%string empty_scan = (s, None) /\
    filtered_paths s =
    List.filter (fun p => match two_files !! p with
                          | Some text => Z.of_nat (List.length (readlines text)) <=? 1
                          | None => false
                          end)
      ["./input/a.regionresult"; "./input/b.regionresult"]%string.
Proof.
  assert (Ha : all (mkSelection true true 1 false) = true) by reflexivity.
  assert (Hr : forall p,
             In p ["./input/a.regionresult"; "./input/b.regionresult"]%string ->
             two_files !! p <> None).
  { intros p [<- | [<- | []]]; vm_compute; discriminate. }
  split; [exact Ha |].
  exact (scan_of_all_files cli_default (mkSelection true true 1 false) two_files
           (fun _ => true) (fun _ => S754_zero false) _ Ha Hr).
Defined.

(** X18.  An exception of the generator for one file ends the whole loop
    over the files: the files after it are not converted, and the files
    and the standard output are as the files before it left them. *)
Theorem conversion_error_ends_batch
    (args : Args) (graph_styles : option (gmap string string)) (output_to_std : bool)
    (paths_out : gmap string (option string))
    (repr : spec_float -> string)
    (try_write : world -> string -> string -> write_outcome)
    (w w1 : world) (before : list string) (p : string) (after : list string)
    (text : string) (e : exn) :
  convert_files args graph_styles output_to_std paths_out repr try_write w before
  = (w1, None) ->
  output_to_std = true \/ spinner w1 = true ->
  world_files w1 !! p = Some text ->
  generate_output args graph_styles text p = Raise e ->
  exists w2,
    convert_files args graph_styles output_to_std paths_out repr try_write w
      (before ++ p :: after) = (w2, Some (ConversionError e)) /\
    world_files w2 = world_files w1 /\ stdout w2 = stdout w1.
Proof.
  intros Hb Hs Hf Hg. rewrite convert_files_app, Hb. cbn [convert_files].
  unfold convert_file.
  destruct output_to_std; cbn [negb andb].
  - rewrite Hf, Hg. eexists. split; [reflexivity |]. split; reflexivity.
  - destruct Hs as [Hs | Hs]; [discriminate |]. rewrite Hs. cbn [negb world_files].
    rewrite Hf, Hg. eexists. split; [reflexivity |]. split; reflexivity.
Qed.

Lemma conversion_error_ends_batch_witness :
  exists w1 w2,
    convert_files args_default (Some default_styles) false two_outputs
      (fun _ => "0.0"%string) writes_succeed (world_of two_files)
      ["./input/a.regionresult"%string] = (w1, None) /\
    (false = true \/ spinner w1 = true) /\
    world_files w1 !! "./input/b.regionresult"%string = Some ("garbage text" ++ nl)%string /\
    generate_output args_default (Some default_styles) ("garbage text" ++ nl)
      "./input/b.regionresult" = Raise (format_error 0) /\
    convert_files args_default (Some default_styles) false two_outputs
      (fun _ => "0.0"%string) writes_succeed (world_of two_files)
      (["./input/a.regionresult"%string] ++ "./input/b.regionresult"%string
       :: ["./input/a.regionresult"%string])
    = (w2, Some (ConversionError (format_error 0))) /\
    world_files w2 = world_files w1 /\ stdout w2 = stdout w1.
Proof.
  assert (H : { w1 | convert_files args_default (Some default_styles) false two_outputs
                       (fun _ => "0.0"%string) writes_succeed (world_of two_files)
                       ["./input/a.regionresult"%string] = (w1, None) /\
                     spinner w1 = true /\
                     world_files w1 !! "./input/b.regionresult"%string
                     = Some ("garbage text" ++ nl)%string })
    by (eexists; split; [vm_compute; reflexivity |]; split; vm_compute; reflexivity).
  destruct H as [w1 (H & Hs & Hf)].
  assert (Hg : generate_output args_default (Some default_styles) ("garbage text" ++ nl)
                 "./input/b.regionresult" = Raise (format_error 0))
    by (vm_compute; reflexivity).
  destruct (conversion_error_ends_batch args_default (Some default_styles) false two_outputs
              (fun _ => "0.0"%string) writes_succeed (world_of two_files) w1
              ["./input/a.regionresult"%string] "./input/b.regionresult"
              ["./input/a.regionresult"%string] _ _ H (or_intror Hs) Hf Hg)
    as (w2 & E & F1 & F2).
  exists w1, w2.
  split; [exact H |]. split; [right; exact Hs |]. split; [exact Hf |].
  split; [exact Hg |]. split; [exact E |]. split; [exact F1 | exact F2].
Defined.

(** X19.  When no output path is the path of a file to convert, then
    however the loop over the files ends, a file is as it was before, or
    it is the output path recorded for one of the files to convert and
    holds what the write of the document of that file has left: the whole
    document generated from the text that this input file held before the
    loop, or, if the write broke off with an [OSError], the characters of
    that document that had reached the file, and nothing of what the file
    held before.  When the documents go to the standard output no file
    changes. *)
Theorem files_change_by_writes_of_documents
    (args : Args) (graph_styles : option (gmap string string)) (output_to_std : bool)
    (paths_out : gmap string (option string))
    (repr : spec_float -> string)
    (try_write : world -> string -> string -> write_outcome)
    (w w' : world) (paths : list string) (r : option script_exn) :
  outputs_apart paths_out paths ->
  convert_files args graph_styles output_to_std paths_out repr try_write w paths = (w', r) ->
  forall q,
    world_files w' !! q = world_files w !! q \/
    (output_to_std = false /\
     exists p text doc,
       In p paths /\ paths_out !! p = Some (Some q) /\
       world_files w !! p = Some text /\
       generate_output args graph_styles text p = Ok doc /\
       holds_written try_write (world_files w' !! q) q (render repr doc)).
Proof.
  intros Hapart H.
  exact (convert_files_files args graph_styles output_to_std paths_out repr try_write
           paths w w' r Hapart H).
Qed.

Lemma files_change_by_writes_of_documents_witness :
  outputs_apart two_outputs ["./input/a.regionresult"; "./input/b.regionresult"]%string /\
  exists w' r,
    convert_files args_default (Some default_styles) false two_outputs
      (fun _ => "0.0"%string) (write_of_a_breaks 5) (world_of two_files)
      ["./input/a.regionresult"; "./input/b.regionresult"]%string = (w', r) /\
    forall q,
      world_files w' !! q = world_files (world_of two_files) !! q \/
      (false = false /\
       exists p text doc,
         In p ["./input/a.regionresult"; "./input/b.regionresult"]%string /\
         two_outputs !! p = Some (Some q) /\
         world_files (world_of two_files) !! p = Some text /\
         generate_output args_default (Some default_styles) text p = Ok doc /\
         holds_written (write_of_a_breaks 5) (world_files w' !! q) q
           (render (fun _ => "0.0"%string) doc)).
Proof.
  assert (Hapart : outputs_apart two_outputs
                     ["./input/a.regionresult"; "./input/b.regionresult"]%string).
  { intros p q [<- | [<- | []]] Ho; vm_compute in Ho; injection Ho as <-;
      intros [Hq | [Hq | []]]; discriminate Hq. }
  assert (H : { wr | convert_files args_default (Some default_styles) false two_outputs
                       (fun _ => "0.0"%string) (write_of_a_breaks 5) (world_of two_files)
                       ["./input/a.regionresult"; "./input/b.regionresult"]%string = wr })
    by (eexists; reflexivity).
  destruct H as [[w' r] H]. split; [exact Hapart |]. exists w', r. split; [exact H |].
  exact (files_change_by_writes_of_documents _ _ _ _ _ _ _ _ _ _ Hapart H).
Defined.

(** X20.  After a scan of the input directory, and with the spinner
    bound, the loop over the files the scan kept never fails on the
    lookup of an output path or on the spinner: it ends without an
    exception or with an exception of the generator. *)
Theorem scanned_files_have_output_paths
    (cli : Cli) (sel : Selection) (files : gmap string string)
    (isfile : string -> bool) (getmtime : string -> spec_float)
    (paths : list string) (s : scan) (r0 : option script_exn)
    (args : Args) (graph_styles : option (gmap string string))
    (repr : spec_float -> string)
    (try_write : world -> string -> string -> write_outcome)
    (w w' : world) (r : option script_exn) :
  filter_paths cli sel files isfile getmtime paths empty_scan = (s, r0) ->
  spinner w = true ->
  convert_files args graph_styles false (output_file_paths s) repr try_write w
    (filtered_paths s) = (w', r) ->
  r = None \/ exists e, r = Some (ConversionError e).
Proof.
  intros Hscan Hsp H.
  destruct (filter_paths_kept cli sel files isfile getmtime paths empty_scan s r0 Hscan)
    as (K & _); [intros p [] |].
  destruct r as [e |]; [right | left; reflexivity].
  destruct (convert_files_exception _ _ _ _ _ _ _ _ _ _ H)
    as [Hc | [[_ [Hn | Hn]] | (_ & p & Hp & [[_ Hk] | [_ Hk]])]].
  - destruct Hc as [ce ->]. eauto.
  - discriminate.
  - congruence.
  - destruct (K p Hp) as (Ho & _). congruence.
  - destruct (K p Hp) as (Ho & _). congruence.
Qed.

Lemma scanned_files_have_output_paths_witness :
  exists s r0 w' r,
    filter_paths cli_default selection_default two_files (fun _ => false)
      (fun _ => S754_zero false)
      ["./input/a.regionresult"; "./input/b.regionresult"]%string empty_scan = (s, r0) /\
    spinner (world_of two_files) = true /\
    convert_files args_default (Some default_styles) false (output_file_paths s)
      (fun _ => "0.0"%string) writes_succeed (world_of two_files) (filtered_paths s)
    = (w', r) /\
    (r = None \/ exists e, r = Some (ConversionError e)).
Proof.
  assert (H : { sr | filter_paths cli_default selection_default two_files (fun _ => false)
                       (fun _ => S754_zero false)
                       ["./input/a.regionresult"; "./input/b.regionresult"]%string
                       empty_scan = sr })
    by (eexists; reflexivity).
  destruct H as [[s r0] H].
  assert (C : { wr | convert_files args_default (Some default_styles) false
                       (output_file_paths s) (fun _ => "0.0"%string) writes_succeed
                       (world_of two_files) (filtered_paths s) = wr })
    by (eexists; reflexivity).
  destruct C as [[w' r] C].
  assert (Hs : spinner (world_of two_files) = true) by reflexivity.
  exists s, r0, w', r.
  split; [exact H |]. split; [exact Hs |]. split; [exact C |].
  exact (scanned_files_have_output_paths _ _ _ _ _ _ _ _ _ _ _ _ _ _ _ H Hs C).
Defined.

(** The scan and the conversion of the two files of the examples: both
    are kept, the first is written to its output, the second ends the
    loop. *)
Example scan_and_convert_two_files :
  exists s w',
    filter_paths cli_default selection_default two_files (fun _ => false)
      (fun _ => S754_zero false)
      ["./input/a.regionresult"; "./input/b.regionresult"]%string empty_scan = (s, None) /\
    output_file_paths s !! "./input/a.regionresult"%string = Some (Some "./output/a.tex"%string) /\
    convert_files args_default (Some default_styles) false (output_file_paths s)
      (fun _ => "0.0"%string) writes_succeed (world_of two_files) (filtered_paths s)
    = (w', Some (ConversionError (format_error 0))) /\
    (exists t, world_files w' !! "./output/a.tex"%string = Some t) /\
    world_files w' !! "./output/b.tex"%string = None.
Proof.
  eexists _, _. split; [vm_compute; reflexivity |].
  split; [vm_compute; reflexivity |]. split; [vm_compute; reflexivity |].
  split; [eexists; vm_compute; reflexivity | vm_compute; reflexivity].
Qed.

(** A write that breaks off leaves the start of the document where the
    output was, and the loop goes on: here the output of the first file
    held an older text, the write breaks off after five characters, and
    the second file is converted as ever. *)
Example broken_write_truncates_output :
  exists w',
    convert_files args_default (Some default_styles) false two_outputs
      (fun _ => "0.0"%string) (write_of_a_breaks 5)
      (world_of (<[ "./output/a.tex"%string := "an older document"%string ]>
                   (<[ "./input/b.regionresult"%string := one_region ]> two_files)))
      ["./input/a.regionresult"; "./input/b.regionresult"]%string = (w', None) /\
    world_files w' !! "./output/a.tex"%string = Some (nl ++ "\beg")%string /\
    (exists t, world_files w' !! "./output/b.tex"%string = Some t /\
               (5 < String.length t)%nat) /\
    shown w' = [Stopped; Started "./input/a.regionresult...";
                WriteFailed "./output/a.tex";
                Stopped; Started "./input/b.regionresult...";
                Converted "./input/b.regionresult"]%string.
Proof.
  eexists. split; [vm_compute; reflexivity |].
  split; [vm_compute; reflexivity |].
  split; [eexists; split; [vm_compute; reflexivity | vm_compute; lia] | vm_compute; reflexivity].
Qed.

(** X21.  A line width that [positive_float] accepts is never zero and
    never negative: it is a positive finite float, the positive infinity,
    or not a number (the test [fvalue <= 0] is false for it). *)
Theorem positive_float_accepts (value : string) (f : spec_float) :
  positive_float value = Accepted f ->
  f = S754_nan \/ f = S754_infinity false \/ exists m e, f = S754_finite false m e.
Proof.
  unfold positive_float. destruct (Py.float value) as [x |]; [| discriminate].
  destruct x as [s | [] | | [] m e]; cbn; intros H; try discriminate;
    injection H as <-; eauto.
Qed.

Lemma positive_float_accepts_witness :
  positive_float "0.5" = Accepted (S754_finite false 4503599627370496 (-53)) /\
  (S754_finite false 4503599627370496 (-53) = S754_nan \/
   S754_finite false 4503599627370496 (-53) = S754_infinity false \/
   exists m e, S754_finite false 4503599627370496 (-53) = S754_finite false m e).
Proof.
  assert (H : positive_float "0.5" = Accepted (S754_finite false 4503599627370496 (-53)))
    by (vm_compute; reflexivity).
  split; [exact H |]. exact (positive_float_accepts "0.5" _ H).
Defined.

(** The line widths "nan" and "inf" are accepted; a decimal too small for
    a float is refused as zero. *)
Example positive_float_examples :
  positive_float "nan" = Accepted S754_nan /\
  positive_float "inf" = Accepted (S754_infinity false) /\
  positive_float "1e-400"
  = ArgumentTypeError [Repr (S754_zero false); Text " is not a positive decimal"] /\
  positive_float "-0.0"
  = ArgumentTypeError [Repr (S754_zero true); Text " is not a positive decimal"] /\
  positive_float "1_0.5" = Accepted (Float.round_ratio false 21 2) /\
  positive_float "wide" = InvalidLiteral.
Proof. vm_compute. repeat split. Qed.

(** [int] on signs, white space and underscores. *)
Example positive_int_examples :
  positive_int " +1_000 " = Accepted 1000 /\
  positive_int "-5" = ArgumentTypeError [Text "-5 is not a positive integer"] /\
  positive_int "5.0" = InvalidLiteral /\
  positive_int "1__0" = InvalidLiteral /\
  positive_int "" = InvalidLiteral.
Proof. vm_compute. repeat split. Qed.

(** * The limit of [int] on the number of digits *)

Module DigitLimitFacts.

Lemma all_digits_no_space s :
  all_digits s -> Str.all (fun c => negb (Py.is_space c)) s = true.
Proof.
  unfold all_digits. induction s as [| c s IH]; cbn [Str.all]; [reflexivity |].
  rewrite andb_true_iff. intros [Hc Hs].
  rewrite (digit_not_space c Hc), (IH Hs). reflexivity.
Qed.

Lemma strip_all_digits s : all_digits s -> Py.strip s = s.
Proof.
  intros H. pose proof (all_digits_no_space s H) as Hall.
  unfold Py.strip. destruct s as [| c s]; [reflexivity |].
  cbn [Py.lstrip]. cbn [Str.all] in Hall. apply andb_true_iff in Hall.
  destruct Hall as [Hc Hs]. apply negb_true_iff in Hc. rewrite Hc.
  apply rstrip_no_space. cbn [Str.all]. rewrite Hc, Hs. reflexivity.
Qed.

Lemma count_digits_all_digits s : all_digits s -> Py.count_digits s = String.length s.
Proof.
  unfold all_digits. induction s as [| c s IH]; cbn [Str.all]; [reflexivity |].
  rewrite andb_true_iff. intros [Hc Hs].
  cbn [Py.count_digits String.length]. rewrite Hc, (IH Hs). reflexivity.
Qed.

End DigitLimitFacts.

Import DigitLimitFacts.

(** X22.  A run of more than [int_max_str_digits] = 4300 digits is a
    [ValueError] as a bound of its own, as the numerator and as the
    denominator of a bound, whatever its value and whatever the other run
    of digits: the length is refused before a denominator is compared with
    zero and before the quotient is rounded. *)
Theorem long_bound_is_value_error (a b : string) :
  all_digits a -> all_digits b ->
  int_max_str_digits < Z.of_nat (String.length b) ->
  s2f b = Raise ValueError /\
  s2f (a ++ "/" ++ b) = Raise ValueError /\
  s2f (b ++ "/" ++ a) = Raise ValueError.
Proof.
  intros Ha Hb Hlen. pose proof (parse_digits_too_long b Hlen) as Eb.
  unfold s2f, Fraction.
  rewrite (split_first_none_all_digits b Hb), (split_first_all_digits a b Ha),
    (split_first_all_digits b a Hb), Eb.
  split; [reflexivity |]. split; [| reflexivity].
  destruct (parse_digits a); reflexivity.
Qed.

Lemma long_bound_is_value_error_witness :
  all_digits "1" /\ all_digits (zeros 4301) /\
  int_max_str_digits < Z.of_nat (String.length (zeros 4301)) /\
  s2f (zeros 4301) = Raise ValueError /\
  s2f ("1" ++ "/" ++ zeros 4301) = Raise ValueError /\
  s2f (zeros 4301 ++ "/" ++ "1") = Raise ValueError.
Proof.
  assert (H1 : all_digits "1") by reflexivity.
  assert (H2 : all_digits (zeros 4301)) by (vm_compute; reflexivity).
  assert (H3 : int_max_str_digits < Z.of_nat (String.length (zeros 4301)))
    by (vm_compute; reflexivity).
  split; [exact H1 |]. split; [exact H2 |]. split; [exact H3 |].
  exact (long_bound_is_value_error "1" (zeros 4301) H1 H2 H3).
Defined.

(** X23.  [positive_int] takes no string of more than
    [int_max_str_digits] = 4300 digits, not even one of zeros before a
    small number: the conversion is a [ValueError], and the message about
    a positive integer is not reached. *)
Theorem positive_int_digit_limit (value : string) :
  all_digits value ->
  int_max_str_digits < Z.of_nat (String.length value) ->
  positive_int value = InvalidLiteral.
Proof.
  intros Hd Hlen. unfold positive_int, Py.int.
  rewrite (strip_all_digits value Hd). cbv zeta.
  rewrite (count_digits_all_digits value Hd).
  replace (int_max_str_digits <? Z.of_nat (String.length value)) with true
    by (symmetry; apply Z.ltb_lt; exact Hlen).
  reflexivity.
Qed.

Lemma positive_int_digit_limit_witness :
  all_digits (zeros 4300 ++ "7") /\
  int_max_str_digits < Z.of_nat (String.length (zeros 4300 ++ "7")) /\
  positive_int (zeros 4300 ++ "7") = InvalidLiteral.
Proof.
  assert (H1 : all_digits (zeros 4300 ++ "7")) by (vm_compute; reflexivity).
  assert (H2 : int_max_str_digits < Z.of_nat (String.length (zeros 4300 ++ "7")))
    by (vm_compute; reflexivity).
  split; [exact H1 |]. split; [exact H2 |].
  exact (positive_int_digit_limit _ H1 H2).
Defined.

(** At the limit: 4300 digits are converted, one more is refused, by
    [int] and by [Fraction]; the sign and the white space do not count;
    [float] has no limit. *)
Example digit_limit_examples :
  positive_int (zeros 4299 ++ "7") = Accepted 7 /\
  positive_int (" +" ++ zeros 4299 ++ "7 ") = Accepted 7 /\
  positive_int ("-" ++ zeros 4301) = InvalidLiteral /\
  positive_int "-000"
  = ArgumentTypeError [Text "-000 is not a positive integer"] /\
  s2f (zeros 4299 ++ "1") = Ok (S754_finite false 4503599627370496 (-52)) /\
  s2f (zeros 4300 ++ "1") = Raise ValueError /\
  s2f ("1/" ++ zeros 4300) = Raise ZeroDivisionError /\
  s2f ("1/" ++ zeros 4301) = Raise ValueError /\
  s2f (zeros 4301 ++ "/0") = Raise ValueError /\
  positive_float (zeros 5000 ++ "1") = Accepted (S754_finite false 4503599627370496 (-52)).
Proof. vm_compute. repeat split. Qed.

